(** * The Codeforces recommender ([src/ml/recommender.py])

    A shallow embedding of [CodeforcesRecommender]: the corpus refresh
    ([fetch_problems]), feature composition ([process_problem_features]),
    the user profile ([create_user_vector]) and the ranker
    ([get_recommendations]).

    Conventions of the embedding.
    - A pandas [DataFrame] built from a list of JSON objects is the list of
      its rows; a column exists when at least one row carries the key, and
      a row without the key holds NaN there ([None] below).
    - numpy's float64 values are rationals ([Q]); arithmetic is exact.  The
      binary64 rounding of the min-max scaler is modelled separately
      ([f64_minmax_scale]) on primitive floats.
    - Python exceptions are values of [exn]; a [try/except Exception] is a
      match on the result.  Mutations done before the exception stay.
    - The replies of the Codeforces API and the state of the disk are
      explicit arguments.
    - [np.sqrt] and [sort_values] are given by what the theorems need of
      them (the classes [NumpySqrt] and [SortValues]).  The examples run
      with [sqrt_Q] and with [stable_SortValues]; [vector_SortValues] is
      the order numpy's vector code gives to equal keys. *)

From Stdlib Require Import ZArith QArith Qminmax Lia Lqa Sorted Permutation.
From Stdlib Require Import Floats.PrimFloat Uint63 Ascii.
From stdpp Require Import gmap strings list pretty.

Local Open Scope Z_scope.

(** ** Python exceptions *)

Inductive exn :=
  | KeyError (key : string)
  | ValueError
  | TypeError
  | AttributeError
  | IndexError
  | OSError
  | RequestException.

Inductive result (A : Type) :=
  | Ok (a : A)
  | Raise (e : exn).
Arguments Ok {A} a.
Arguments Raise {A} e.

Definition bind {A B} (m : result A) (k : A → result B) : result B :=
  match m with
  | Ok a => k a
  | Raise e => Raise e
  end.

Notation "x ←! m ; k" := (bind m (λ x, k))
  (at level 100, m at next level, right associativity, only parsing).

(** [for x in xs: ...] with a body that may raise. *)
Fixpoint mapM {A B} (f : A → result B) (xs : list A) : result (list B) :=
  match xs with
  | [] => Ok []
  | x :: xs' => y ←! f x; ys ←! mapM f xs'; Ok (y :: ys)
  end.

(** ** The data the program handles *)

(** A row of [problems_df]: one problem of the corpus.  [rating] and
    [solvedCount] are NaN in pandas when the JSON object has no such key. *)
Record Problem := {
  contestId : Z;
  index : string;
  tags : list string;
  rating : option Z;
  solvedCount : option Z
}.

Definition DataFrame := list Problem.

(** The JSON objects of the Codeforces API.  A key the API documents as
    "can be absent" is an [option]. *)
Record ApiProblem := {
  api_contestId : option Z;
  api_index : string;
  api_tags : list string;
  api_rating : option Z
}.

Record ApiStatistics := {
  stat_contestId : option Z;
  stat_index : string;
  stat_solvedCount : option Z
}.

Record ApiSubmission := {
  verdict : option string;
  sub_contestId : option Z;
  sub_index : string
}.

Inductive ApiResult :=
  | ResultAbsent
  | ResultProblemset (problems : list ApiProblem)
                     (problemStatistics : option (list ApiStatistics))
  | ResultSubmissions (submissions : list ApiSubmission).

Record ApiReply := {
  status : string;
  api_result : ApiResult
}.

(** What [requests.get(...)] followed by [response.json()] gives: [None] when
    either raises (transport error, invalid body). *)
Definition HttpOutcome := option ApiReply.

(** A fitted [TfidfVectorizer]: [transform] on one text. *)
Record TfidfVectorizer := {
  transform : string → list Q
}.

(** A value of the [user_vectors] dictionary: what [json.load] gave or what
    [create_user_vector] stored ([user_vector.tolist()]). *)
Inductive CachedVector :=
  | VecList (v : list Q)
  | VecOther.

Record Recommender := {
  problems_df : option DataFrame;
  tfidf_vectorizer : option TfidfVectorizer;
  problem_vectors : option (list (list Q));
  user_vectors : gmap string CachedVector;
  last_update : Z
}.

(** The files the recommender writes: [PROBLEMS_PATH], [USER_VECTORS_PATH],
    and whether [open(path, 'w')] succeeds. *)
Record Disk := {
  problems_file : option (list Problem);
  user_vectors_file : option (gmap string CachedVector);
  writable : bool
}.

(** [f"{row['contestId']}_{row['index']}"] *)
Definition format_problem_id (contest : Z) (idx : string) : string :=
  pretty contest +:+ "_" +:+ idx.

(** A row of [recommendations_df]: the row label of the corpus, the problem
    and the two columns [get_recommendations] adds. *)
Record Row := {
  label : nat;
  problem : Problem;
  similarity : Q;
  problem_id : string
}.

(** An element of [to_dict('records')]: the row without its label. *)
Record Recommendation := {
  rec_problem : Problem;
  rec_similarity : Q;
  rec_problem_id : string
}.

(** ** Library functions *)

(** [numpy.sqrt]: a square root on the non-negative rationals, of which only
    [np_sqrt_eq0] is used. *)
Class NumpySqrt := {
  np_sqrt : Q → Q;
  np_sqrt_eq0 : ∀ q, (0 <= q)%Q → (np_sqrt q == 0)%Q → (q == 0)%Q
}.

Definition by_similarity_desc (a b : Row) : Prop :=
  (similarity b <= similarity a)%Q.

(** [DataFrame.sort_values('similarity', ascending=False)] with the default
    [kind='quicksort']: the rows reordered so that the key decreases.  The
    order among equal keys is the algorithm's own. *)
Class SortValues := {
  sort_values : list Row → list Row;
  sort_values_perm : ∀ l, sort_values l ≡ₚ l;
  sort_values_sorted : ∀ l, StronglySorted by_similarity_desc (sort_values l)
}.

(** [np.mean(m, axis=0)] of a matrix given by its rows. *)
Definition vadd (a b : list Q) : list Q := zip_with Qplus a b.

Definition np_mean (m : list (list Q)) : list Q :=
  match m with
  | [] => []
  | r :: rs =>
      let n := inject_Z (Z.of_nat (length m)) in
      map (λ s, s / n)%Q (fold_left vadd rs r)
  end.

(** [sklearn.preprocessing._data._handle_zeros_in_scale] *)
Definition handle_zeros_in_scale (scale : Q) : Q :=
  if Qeq_bool scale 0 then 1%Q else scale.

(** [MinMaxScaler().fit_transform(X)] on one column, feature range (0, 1). *)
Definition MinMaxScaler_fit_transform (X : list Q) : result (list Q) :=
  match X with
  | [] => Raise ValueError
  | x :: xs =>
      let data_min := fold_left Qmin xs x in
      let data_max := fold_left Qmax xs x in
      let data_range := (data_max - data_min)%Q in
      let scale_ := ((1 - 0) / handle_zeros_in_scale data_range)%Q in
      let min_ := (0 - data_min * scale_)%Q in
      Ok (map (λ v, v * scale_ + min_)%Q X)
  end.

(** The same computation as binary64 performs it on a column of integers
    (two values suffice to fix [data_min] and [data_max]). *)
Definition f64_of_Z (z : Z) : float :=
  match z with
  | Z0 => 0%float
  | Zpos _ => PrimFloat.of_uint63 (Uint63.of_Z z)
  | Zneg p => PrimFloat.opp (PrimFloat.of_uint63 (Uint63.of_Z (Zpos p)))
  end.

Definition f64_minmax_scale (data_min data_max v : Z) : float :=
  let data_range := (f64_of_Z data_max - f64_of_Z data_min)%float in
  let scale_ :=
    ((1 - 0) / (if PrimFloat.eqb data_range 0 then 1 else data_range))%float in
  let min_ := (0 - f64_of_Z data_min * scale_)%float in
  (f64_of_Z v * scale_ + min_)%float.

Section Similarity.
Context `{NumpySqrt}.

Definition dot (x y : list Q) : Q :=
  fold_right Qplus 0%Q (zip_with Qmult x y).

(** [sklearn.utils.extmath.row_norms] on one row *)
Definition row_norm (x : list Q) : Q := np_sqrt (dot x x).

(** [sklearn.preprocessing.normalize(X)] on one row, l2 norm *)
Definition normalize (x : list Q) : list Q :=
  let norm := handle_zeros_in_scale (row_norm x) in
  map (λ v, v / norm)%Q x.

(** [check_pairwise_arrays]: both arrays have at least one sample and one
    feature, and the same number of features. *)
Definition check_pairwise_arrays (X Y : list (list Q)) : result unit :=
  match X, Y with
  | x :: _, _ :: _ =>
      if bool_decide (length x = 0%nat) then Raise ValueError
      else if forallb (λ r, bool_decide (length r = length x)) (X ++ Y)
           then Ok tt
           else Raise ValueError
  | _, _ => Raise ValueError
  end.

(** [sklearn.metrics.pairwise.cosine_similarity(X, Y)]; [Y=None] stands
    for [Y = X]. *)
Definition cosine_similarity (X : list (list Q)) (Y : option (list (list Q)))
    : result (list (list Q)) :=
  let Y := default X Y in
  _ ←! check_pairwise_arrays X Y;
  Ok (map (λ x, map (λ y, dot (normalize x) (normalize y)) Y) X).
End Similarity.

(** ** Reading the API replies *)

(** [data['result']] read as the list of submissions of [user.status]. *)
Definition result_submissions (data : ApiReply) : result (list ApiSubmission) :=
  match api_result data with
  | ResultSubmissions subs => Ok subs
  | ResultAbsent => Raise (KeyError "result")
  | ResultProblemset _ _ => Raise TypeError
  end.

(** [[sub for sub in submissions if sub['verdict'] == 'OK']] *)
Fixpoint accepted_submissions (subs : list ApiSubmission)
    : result (list ApiSubmission) :=
  match subs with
  | [] => Ok []
  | sub :: rest =>
      match verdict sub with
      | None => Raise (KeyError "verdict")
      | Some v =>
          acc ←! accepted_submissions rest;
          Ok (if String.eqb v "OK" then sub :: acc else acc)
      end
  end.

(** The loop filling [solved_problems]. *)
Fixpoint solved_problem_ids (accepted : list ApiSubmission)
    (solved : gset string) : result (gset string) :=
  match accepted with
  | [] => Ok solved
  | sub :: rest =>
      match sub_contestId sub with
      | None => Raise (KeyError "contestId")
      | Some c =>
          solved_problem_ids rest
            ({[format_problem_id c (sub_index sub)]} ∪ solved)
      end
  end.

(** From [requests.get] to the set of solved ids, for a reply whose status is
    OK: the part [create_user_vector] and [get_recommendations] share. *)
Definition solved_of_reply (data : ApiReply) : result (gset string) :=
  subs ←! result_submissions data;
  acc ←! accepted_submissions subs;
  solved_problem_ids acc ∅.

(** ** [fetch_problems] *)

Fixpoint build_stats_dict (stats : list ApiStatistics)
    (stats_dict : gmap string Z) : result (gmap string Z) :=
  match stats with
  | [] => Ok stats_dict
  | stat :: rest =>
      match stat_contestId stat with
      | None => Raise (KeyError "contestId")
      | Some c =>
          let key := format_problem_id c (stat_index stat) in
          build_stats_dict rest
            (<[key := default 0 (stat_solvedCount stat)]> stats_dict)
      end
  end.

(** [problem['solvedCount'] = stats_dict.get(key, 0)], then the row of
    [pd.DataFrame(problems)]. *)
Definition add_solved_count (stats_dict : gmap string Z) (p : ApiProblem)
    : result Problem :=
  match api_contestId p with
  | None => Raise (KeyError "contestId")
  | Some c =>
      let key := format_problem_id c (api_index p) in
      Ok {| contestId := c; index := api_index p; tags := api_tags p;
            rating := api_rating p;
            solvedCount := Some (default 0 (stats_dict !! key)) |}
  end.

(** The body of the [if data['status'] == 'OK'] branch up to the DataFrame. *)
Definition merged_problems (data : ApiReply) : result (list Problem) :=
  match api_result data with
  | ResultProblemset problems problem_statistics =>
      stats_dict ←! build_stats_dict (default [] problem_statistics) ∅;
      mapM (add_solved_count stats_dict) problems
  | ResultAbsent => Raise (KeyError "result")
  | ResultSubmissions _ => Raise TypeError
  end.

Definition fetch_problems (self : Recommender) (disk : Disk)
    (response : HttpOutcome) (now : Z) : bool * Recommender * Disk :=
  match response with
  | None => (false, self, disk)
  | Some data =>
      if String.eqb (status data) "OK" then
        match merged_problems data with
        | Raise _ => (false, self, disk)
        | Ok problems =>
            let self1 :=
              {| problems_df := Some problems;
                 tfidf_vectorizer := tfidf_vectorizer self;
                 problem_vectors := problem_vectors self;
                 user_vectors := user_vectors self;
                 last_update := last_update self |} in
            if writable disk then
              (true,
               {| problems_df := Some problems;
                  tfidf_vectorizer := tfidf_vectorizer self;
                  problem_vectors := problem_vectors self;
                  user_vectors := user_vectors self;
                  last_update := now |},
               {| problems_file := Some problems;
                  user_vectors_file := user_vectors_file disk;
                  writable := writable disk |})
            else (false, self1, disk)
        end
      else (false, self, disk)
  end.

(** ** [process_problem_features] *)

(** [df[column]]: a [KeyError] when no row carries the key. *)
Definition getitem {A} (key : string) (column : Problem → option A)
    (df : DataFrame) : result (list (option A)) :=
  if existsb (λ p, bool_decide (is_Some (column p))) df
  then Ok (map column df)
  else Raise (KeyError key).

(** [series.fillna(value).values] as floats *)
Definition fillna (value : Z) (series : list (option Z)) : list Q :=
  map (λ x, inject_Z (default value x)) series.

(** [' '.join(x)] *)
Definition tags_text (p : Problem) : string := String.concat " " (tags p).

(** [np.hstack([tags_tfidf, ratings_scaled, solved_scaled])], all three with
    one row per problem. *)
Fixpoint hstack (tfidf : list (list Q)) (ratings solved : list Q)
    : list (list Q) :=
  match tfidf, ratings, solved with
  | t :: ts, r :: rs, s :: ss => (t ++ [r; s]) :: hstack ts rs ss
  | _, _, _ => []
  end.

(** Lines 121-143: the matrix [np.hstack] returns, or the exception. *)
Definition compose_features (df : DataFrame) (vectorizer : TfidfVectorizer)
    : result (list (list Q)) :=
  (* an empty DataFrame has no [tags] column *)
  _ ←! (if bool_decide (df = []) then Raise (KeyError "tags") else Ok tt);
  let tags_tfidf := map (λ p, transform vectorizer (tags_text p)) df in
  ratings ←! getitem "rating" rating df;
  ratings_scaled ←! MinMaxScaler_fit_transform (fillna 1500 ratings);
  solved_counts ←! getitem "solvedCount" solvedCount df;
  solved_scaled ←! MinMaxScaler_fit_transform (fillna 0 solved_counts);
  Ok (hstack tags_tfidf ratings_scaled solved_scaled).

Definition set_problem_vectors (self : Recommender) (vectors : list (list Q))
    : Recommender :=
  {| problems_df := problems_df self;
     tfidf_vectorizer := tfidf_vectorizer self;
     problem_vectors := Some vectors;
     user_vectors := user_vectors self;
     last_update := last_update self |}.

Definition process_problem_features (self : Recommender)
    : result bool * Recommender :=
  match problems_df self, tfidf_vectorizer self with
  | Some df, Some vectorizer =>
      match compose_features df vectorizer with
      | Ok vectors => (Ok true, set_problem_vectors self vectors)
      | Raise e => (Raise e, self)
      end
  | _, _ => (Ok false, self)
  end.

(** ** [create_user_vector] *)

(** The loop over [problems_df.iterrows()]: the row labels of the problems
    whose id is in [solved_problems]. *)
Definition problem_indices (df : DataFrame) (solved_problems : gset string)
    : list nat :=
  map fst
    (List.filter
       (λ ir, bool_decide
                (format_problem_id (contestId ir.2) (index ir.2) ∈ solved_problems))
       (zip (seq 0 (length df)) df)).

(** [self.problem_vectors[problem_indices]] *)
Definition take_rows (vectors : list (list Q)) (indices : list nat)
    : result (list (list Q)) :=
  mapM (λ i, match vectors !! i with
             | Some r => Ok r
             | None => Raise IndexError
             end) indices.

(** [np.mean(self.problem_vectors, axis=0)]; numpy rejects [None]. *)
Definition mean_of_all (self : Recommender) : result (list Q) :=
  match problem_vectors self with
  | Some vectors => Ok (np_mean vectors)
  | None => Raise ValueError
  end.

(** Lines 169-187: the vector of a user with the given solved set. *)
Definition user_vector_of (self : Recommender) (solved_problems : gset string)
    : result (list Q) :=
  if bool_decide (solved_problems = ∅) then mean_of_all self
  else
    match problems_df self with
    | None => Raise AttributeError
    | Some df =>
        let indices := problem_indices df solved_problems in
        if bool_decide (indices = []) then mean_of_all self
        else
          match problem_vectors self with
          | None => Raise TypeError
          | Some vectors =>
              user_problem_vectors ←! take_rows vectors indices;
              Ok (np_mean user_problem_vectors)
          end
    end.

Definition set_user_vector (self : Recommender) (user_handle : string)
    (v : list Q) : Recommender :=
  {| problems_df := problems_df self;
     tfidf_vectorizer := tfidf_vectorizer self;
     problem_vectors := problem_vectors self;
     user_vectors := <[user_handle := VecList v]> (user_vectors self);
     last_update := last_update self |}.

Definition create_user_vector (self : Recommender) (disk : Disk)
    (user_handle : string) (response : HttpOutcome)
    : option (list Q) * Recommender * Disk :=
  let computed :=
    data ←! match response with
            | Some data => Ok data
            | None => Raise RequestException
            end;
    if negb (String.eqb (status data) "OK") then Ok None
    else
      solved_problems ←! solved_of_reply data;
      user_vector ←! user_vector_of self solved_problems;
      Ok (Some user_vector) in
  match computed with
  | Ok (Some user_vector) =>
      let self1 := set_user_vector self user_handle user_vector in
      if writable disk then
        (Some user_vector, self1,
         {| problems_file := problems_file disk;
            user_vectors_file := Some (user_vectors self1);
            writable := writable disk |})
      else (None, self1, disk)
  | Ok None | Raise _ => (None, self, disk)
  end.

(** ** [get_recommendations] *)

(** Lines 213-229: the solved set the ranker excludes, empty when the fetch
    or the reading of the reply fails. *)
Definition solved_problems_of (response : HttpOutcome) : gset string :=
  match response with
  | None => ∅
  | Some data =>
      if negb (String.eqb (status data) "OK") then ∅
      else match solved_of_reply data with
           | Ok solved_problems => solved_problems
           | Raise _ => ∅
           end
  end.

(** [df.head(n)], that is [df.iloc[:n]] *)
Definition head {A} (n : Z) (l : list A) : list A :=
  if n <? 0 then take (length l - Z.to_nat (- n)) l
  else take (Z.to_nat n) l.

(** [recommendations_df['rating'] >= min_rating]: false on NaN *)
Definition rating_ge (min_rating : Z) (r : Row) : bool :=
  match rating (problem r) with
  | Some x => min_rating <=? x
  | None => false
  end.

Definition rating_le (max_rating : Z) (r : Row) : bool :=
  match rating (problem r) with
  | Some x => x <=? max_rating
  | None => false
  end.

(** [any(tag in x for tag in tags)] *)
Definition any_tag_in (wanted : list string) (x : list string) : bool :=
  existsb (λ tag, bool_decide (tag ∈ x)) wanted.

(** [df[df['rating'] >= bound]] and its mirror: the column must exist in the
    corpus. *)
Definition filter_rating (df : DataFrame) (keep : Z → Row → bool)
    (bound : option Z) (rows : list Row) : result (list Row) :=
  match bound with
  | None => Ok rows
  | Some b =>
      _ ←! getitem "rating" rating df;
      Ok (List.filter (keep b) rows)
  end.

Definition filter_tags (wanted : option (list string)) (rows : list Row)
    : list Row :=
  match wanted with
  | None => rows
  | Some ts => List.filter (λ r, any_tag_in ts (tags (problem r))) rows
  end.

(** [recommendations_df] after lines 232-238: the copy of the corpus with the
    [similarity] and [problem_id] columns. *)
Fixpoint scored_rows (first_label : nat) (df : DataFrame) (scores : list Q)
    : list Row :=
  match df, scores with
  | p :: df', s :: scores' =>
      {| label := first_label; problem := p; similarity := s;
         problem_id := format_problem_id (contestId p) (index p) |}
      :: scored_rows (S first_label) df' scores'
  | _, _ => []
  end.

Definition to_record (r : Row) : Recommendation :=
  {| rec_problem := problem r; rec_similarity := similarity r;
     rec_problem_id := problem_id r |}.

Section Ranker.
Context `{NumpySqrt} `{SortValues}.

(** Lines 209-255 for a given user vector and solved set: the DataFrame
    [top_recommendations]. *)
Definition top_recommendations (self : Recommender) (user_vector : list Q)
    (solved_problems : gset string) (n_recommendations : Z)
    (min_rating max_rating : option Z) (wanted_tags : option (list string))
    : result (list Row) :=
  scores ←! cosine_similarity [user_vector] (problem_vectors self);
  let similarity_scores := default [] (scores !! 0%nat) in
  df ←! match problems_df self with
        | Some df => Ok df
        | None => Raise AttributeError
        end;
  _ ←! (if bool_decide (df = []) then Raise (KeyError "contestId")
        else if bool_decide (length similarity_scores = length df) then Ok tt
        else Raise ValueError);
  let rows := scored_rows 0 df similarity_scores in
  let rows :=
    List.filter (λ r, bool_decide (problem_id r ∉ solved_problems)) rows in
  rows ←! filter_rating df rating_ge min_rating rows;
  rows ←! filter_rating df rating_le max_rating rows;
  let rows := filter_tags wanted_tags rows in
  Ok (head n_recommendations (sort_values rows)).

(** [response_vector] answers the request of [create_user_vector] (made only
    when no list is cached for the handle), [response_solved] the request of
    lines 213-229. *)
Definition get_recommendations (self : Recommender) (disk : Disk)
    (user_handle : string) (n_recommendations : Z)
    (min_rating max_rating : option Z) (wanted_tags : option (list string))
    (response_vector response_solved : HttpOutcome)
    : result (list Recommendation) * Recommender * Disk :=
  let '(vector, self1, disk1) :=
    match user_vectors self !! user_handle with
    | Some (VecList v) => (Some v, self, disk)
    | _ => create_user_vector self disk user_handle response_vector
    end in
  match vector with
  | None => (Ok [], self1, disk1)
  | Some user_vector =>
      (rows ←! top_recommendations self1 user_vector
                 (solved_problems_of response_solved) n_recommendations
                 min_rating max_rating wanted_tags;
       Ok (map to_record rows),
       self1, disk1)
  end.
End Ranker.

(** ** Executable instances of the library functions *)

(** A square root to run the model with.  For [q = n/d] the real root is
    [sqrt (n*d) / d]; [sqrt_Q] is that root cut to a multiple of
    [1 / (d * 2^64)].  It is exact when the root is rational, and within a
    relative error of [2^-64] of the real root otherwise (the binary64 root
    of [np.sqrt] is within [2^-53]). *)
Definition sqrt_Q (q : Q) : Q :=
  Z.sqrt (Qnum q * Zpos (Qden q) * 4 ^ 64) # (Qden q * 2 ^ 64).

(** Insertion of a row into a list that decreases in [similarity]: the row
    stays before the rows of equal key. *)
Definition goes_after (r x : Row) : bool :=
  negb (Qle_bool (similarity x) (similarity r)).

Fixpoint insert_row (r : Row) (l : list Row) : list Row :=
  match l with
  | [] => [r]
  | x :: l' => if goes_after r x then x :: insert_row r l' else r :: l
  end.

Definition insertion_sort (l : list Row) : list Row :=
  fold_right insert_row [] l.

(** [sort_values] where numpy sorts with vector instructions.

    [sort_values('similarity', ascending=False)] is pandas' [nargsort]: it
    reverses the keys, calls [argsort(kind='quicksort')] on them and
    reverses the result.  On x86-64 numpy's [argsort] of float64 keys is the
    one of x86-simd-sort: a frame of at most four rows is loaded into one
    vector register, the lanes beyond the frame holding the largest value
    ([None] below), and sorted by a bitonic network of lane exchanges (with
    AVX-512 the register has eight lanes and the network three more steps,
    which leave four sorted keys where they are).  An exchange moves the
    row label with the key and leaves equal keys in their lanes. *)
Definition lane_le (a b : option Row) : bool :=
  match a, b with
  | Some x, Some y => Qle_bool (similarity x) (similarity y)
  | _, None => true
  | None, Some _ => false
  end.

(** One exchange between the lanes [i < j]: the smaller key goes to [i]. *)
Definition cmp_merge (a b : option Row) : option Row * option Row :=
  if lane_le a b then (a, b) else (b, a).

(** The network on four lanes: lanes (0,1) and (2,3), then (0,3) and (1,2),
    then (0,1) and (2,3) again. *)
Definition sort_vec (a b c d : option Row) : list (option Row) :=
  let '(a, b) := cmp_merge a b in
  let '(c, d) := cmp_merge c d in
  let '(a, d) := cmp_merge a d in
  let '(b, c) := cmp_merge b c in
  let '(a, b) := cmp_merge a b in
  let '(c, d) := cmp_merge c d in
  [a; b; c; d].

(** [keys.argsort(kind='quicksort')] on at most four keys, as the rows in
    increasing order of the key. *)
Definition argsort_vec (keys : list Row) : list Row :=
  omap id (sort_vec (keys !! 0%nat) (keys !! 1%nat)
                    (keys !! 2%nat) (keys !! 3%nat)).

(** [nargsort(..., ascending=False)].  A longer frame takes several
    registers and a merging network, which are not modelled: it is sorted
    by insertion. *)
Definition nargsort_desc (rows : list Row) : list Row :=
  if bool_decide (length rows ≤ 4)%nat
  then reverse (argsort_vec (reverse rows))
  else insertion_sort rows.

(** ** The properties the claims speak of *)

Definition decreasing_similarity (recs : list Recommendation) : Prop :=
  StronglySorted (λ a b, rec_similarity b <= rec_similarity a)%Q recs.

(** Recommendations of equal similarity come in the order of the corpus. *)
Definition ties_in_corpus_order (df : DataFrame) (recs : list Recommendation)
    : Prop :=
  ∀ (i j : nat) (a b : Recommendation),
    recs !! i = Some a → recs !! j = Some b → (i < j)%nat →
    (rec_similarity a == rec_similarity b)%Q →
    ∃ p q : nat,
      df !! p = Some (rec_problem a) ∧ df !! q = Some (rec_problem b) ∧
      (p < q)%nat.

(** The column after default-fill takes more than one value. *)
Definition several_values (value : Z) (column : Problem → option Z)
    (df : DataFrame) : Prop :=
  ∃ p q, p ∈ df ∧ q ∈ df ∧ default value (column p) ≠ default value (column q).

Definition constant_column (value : Z) (column : Problem → option Z)
    (df : DataFrame) : Prop :=
  ∀ p q, p ∈ df → q ∈ df → default value (column p) = default value (column q).

Definition in_unit_interval (q : Q) : Prop := (0 <= q)%Q ∧ (q <= 1)%Q.

(** The sum of column [j] of a matrix, and what "column-wise mean" means. *)
Definition column_sum (m : list (list Q)) (j : nat) : Q :=
  fold_right Qplus 0%Q (map (λ row, nth j row 0%Q) m).

Definition failed_fetch (response : HttpOutcome) : Prop :=
  response = None ∨ ∃ data, response = Some data ∧ status data ≠ "OK".

(** * Proofs *)

(** ** The instances *)

Lemma sqrt_Q_eq0 q : (0 <= q)%Q → (sqrt_Q q == 0)%Q → (q == 0)%Q.
Proof.
  destruct q as [n d]. unfold sqrt_Q, Qle, Qeq. cbn [Qnum Qden].
  intros Hn Hs.
  assert (Hz : Z.sqrt (n * Z.pos d * 4 ^ 64) = 0) by lia.
  destruct (Z.lt_trichotomy 0 (n * Z.pos d * 4 ^ 64)) as [Hp | Hp].
  - apply Z.sqrt_pos in Hp. lia.
  - assert (0 < 4 ^ 64) by (by apply Z.pow_pos_nonneg). nia.
Qed.

(** [sqrt_Q] is exact on the square of a rational. *)
Lemma sqrt_Q_square q : (0 <= q)%Q → (sqrt_Q (q * q) == q)%Q.
Proof.
  destruct q as [n d]. unfold sqrt_Q, Qle, Qeq, Qmult. cbn [Qnum Qden].
  intros Hn.
  assert (Hn' : 0 <= n) by lia.
  replace (n * n * Z.pos (d * d) * 4 ^ 64)
    with ((n * Z.pos d * 2 ^ 64) * (n * Z.pos d * 2 ^ 64)).
  2:{ change (4 ^ 64) with (2 ^ 64 * 2 ^ 64). rewrite Pos2Z.inj_mul. ring. }
  rewrite Z.sqrt_square by (apply Z.mul_nonneg_nonneg; [lia | done]).
  rewrite !Pos2Z.inj_mul, Pos2Z.inj_pow. ring.
Qed.

#[export] Instance sqrt_NumpySqrt : NumpySqrt :=
  {| np_sqrt := sqrt_Q; np_sqrt_eq0 := sqrt_Q_eq0 |}.

Lemma insert_row_perm r l : insert_row r l ≡ₚ r :: l.
Proof.
  induction l as [| x l IH]; simpl; [done |].
  destruct (goes_after r x); [| done].
  rewrite IH. apply Permutation_swap.
Qed.

Lemma insertion_sort_perm l : insertion_sort l ≡ₚ l.
Proof.
  induction l as [| x l IH]; simpl; [done |].
  rewrite insert_row_perm. by f_equiv.
Qed.

Lemma Qle_bool_false a b : Qle_bool a b = false → (b < a)%Q.
Proof.
  intros Hn. apply Qnot_le_lt. intros Hle.
  apply Qle_bool_iff in Hle. congruence.
Qed.

Lemma goes_after_true r x : goes_after r x = true → by_similarity_desc x r.
Proof.
  unfold goes_after, by_similarity_desc.
  intros Hn. apply negb_true_iff in Hn.
  by apply Qlt_le_weak, Qle_bool_false.
Qed.

Lemma goes_after_false r x : goes_after r x = false → by_similarity_desc r x.
Proof.
  unfold goes_after, by_similarity_desc.
  intros Hn. apply negb_false_iff in Hn. by apply Qle_bool_imp_le.
Qed.

Lemma by_similarity_desc_trans a b c :
  by_similarity_desc a b → by_similarity_desc b c → by_similarity_desc a c.
Proof. unfold by_similarity_desc. intros ? ?. by eapply Qle_trans. Qed.

Lemma insert_row_sorted r l :
  StronglySorted by_similarity_desc l →
  StronglySorted by_similarity_desc (insert_row r l).
Proof.
  induction 1 as [| x l Hs IH Hx]; simpl.
  - repeat constructor.
  - destruct (goes_after r x) eqn:Hg.
    + constructor; [done |].
      rewrite insert_row_perm. constructor; [| done].
      by eapply goes_after_true.
    + apply goes_after_false in Hg.
      constructor; [by constructor |].
      constructor; [done |].
      eapply Forall_impl; [exact Hx |].
      intros y Hy. by eapply by_similarity_desc_trans.
Qed.

Lemma insertion_sort_sorted l :
  StronglySorted by_similarity_desc (insertion_sort l).
Proof.
  induction l as [| x l IH]; simpl; [constructor |].
  by apply insert_row_sorted.
Qed.

(** A sort that keeps ties in their order ([kind='stable']; numpy's scalar
    [quicksort] is such a sort on at most sixteen keys). *)
#[export] Instance stable_SortValues : SortValues | 10 :=
  {| sort_values := insertion_sort;
     sort_values_perm := insertion_sort_perm;
     sort_values_sorted := insertion_sort_sorted |}.

(** The vector network sorts: every case of the six exchanges. *)
Ltac lane_cases :=
  repeat match goal with
    | |- context [Qle_bool ?a ?b] =>
        let H := fresh "Hle" in
        destruct (Qle_bool a b) eqn:H;
        [apply Qle_bool_iff in H | apply Qle_bool_false in H]; simpl
    end.

Lemma nargsort_desc_short_perm rows :
  (length rows ≤ 4)%nat → reverse (argsort_vec (reverse rows)) ≡ₚ rows.
Proof.
  intros Hlen. rewrite reverse_Permutation.
  rewrite <- (reverse_Permutation rows) at 2.
  destruct rows as [| r1 [| r2 [| r3 [| r4 [| r5 rows]]]]];
    [| | | | | simpl in Hlen; lia];
    unfold argsort_vec, sort_vec, cmp_merge; simpl; lane_cases;
    solve_Permutation.
Qed.

Lemma nargsort_desc_short_sorted rows :
  (length rows ≤ 4)%nat →
  StronglySorted by_similarity_desc (reverse (argsort_vec (reverse rows))).
Proof.
  intros Hlen.
  destruct rows as [| r1 [| r2 [| r3 [| r4 [| r5 rows]]]]];
    [| | | | | simpl in Hlen; lia];
    unfold argsort_vec, sort_vec, cmp_merge; simpl; lane_cases;
    repeat constructor; unfold by_similarity_desc; lra.
Qed.

Lemma nargsort_desc_perm rows : nargsort_desc rows ≡ₚ rows.
Proof.
  unfold nargsort_desc. case_bool_decide.
  - by apply nargsort_desc_short_perm.
  - apply insertion_sort_perm.
Qed.

Lemma nargsort_desc_sorted rows :
  StronglySorted by_similarity_desc (nargsort_desc rows).
Proof.
  unfold nargsort_desc. case_bool_decide.
  - by apply nargsort_desc_short_sorted.
  - apply insertion_sort_sorted.
Qed.

(** [sort_values] on a build of numpy that sorts with vector instructions. *)
Definition vector_SortValues : SortValues :=
  {| sort_values := nargsort_desc;
     sort_values_perm := nargsort_desc_perm;
     sort_values_sorted := nargsort_desc_sorted |}.

(** ** Lists, filters and [head] *)

Lemma elem_of_List_filter {A} (f : A → bool) (l : list A) (x : A) :
  x ∈ List.filter f l ↔ x ∈ l ∧ f x = true.
Proof. rewrite !list_elem_of_In. apply filter_In. Qed.

Lemma head_prefix {A} (n : Z) (l : list A) : ∃ rest, l = head n l ++ rest.
Proof.
  unfold head. destruct (n <? 0).
  - exists (drop (length l - Z.to_nat (- n)) l). by rewrite take_drop.
  - exists (drop (Z.to_nat n) l). by rewrite take_drop.
Qed.

Lemma elem_of_head {A} (n : Z) (l : list A) (x : A) : x ∈ head n l → x ∈ l.
Proof.
  intros Hx. destruct (head_prefix n l) as [rest Hl].
  rewrite Hl. apply elem_of_app. by left.
Qed.

Lemma head_sorted {A} (R : A → A → Prop) (n : Z) (l : list A) :
  StronglySorted R l → StronglySorted R (head n l).
Proof.
  intros Hs. destruct (head_prefix n l) as [rest Hl].
  rewrite Hl in Hs. clear Hl.
  induction (head n l) as [| x pre IH]; [constructor |].
  simpl in Hs. inversion Hs as [| ? ? Hs' Hx]; subst.
  constructor; [by apply IH |].
  apply Forall_app in Hx. by destruct Hx.
Qed.

Lemma mapM_length {A B} (f : A → result B) (xs : list A) (ys : list B) :
  mapM f xs = Ok ys → length ys = length xs.
Proof.
  revert ys. induction xs as [| x xs IH]; simpl; intros ys Hm.
  - by inversion Hm.
  - destruct (f x); simpl in Hm; [| discriminate].
    destruct (mapM f xs); simpl in Hm; [| discriminate].
    inversion Hm; subst. simpl. f_equal. by apply IH.
Qed.

(** ** The rows of [recommendations_df] *)

Lemma scored_rows_elem k df scores r :
  r ∈ scored_rows k df scores →
  problem_id r = format_problem_id (contestId (problem r)) (index (problem r))
  ∧ problem r ∈ df.
Proof.
  revert k scores. induction df as [| p df IH]; intros k scores; simpl.
  - intros Hr. by apply elem_of_nil in Hr.
  - destruct scores as [| s scores]; [intros Hr; by apply elem_of_nil in Hr |].
    intros Hr. apply elem_of_cons in Hr as [-> | Hr]; simpl.
    + split; [done | apply elem_of_cons; by left].
    + destruct (IH _ _ Hr) as [Hid Hin].
      split; [done | apply elem_of_cons; by right].
Qed.

Lemma filter_rating_elem df keep bound rows rows' r :
  filter_rating df keep bound rows = Ok rows' → r ∈ rows' →
  r ∈ rows ∧ ∀ b, bound = Some b → keep b r = true.
Proof.
  unfold filter_rating. destruct bound as [b |].
  - destruct (getitem "rating" rating df); simpl; [| discriminate].
    intros [= <-] Hr. apply elem_of_List_filter in Hr as [Hr Hk].
    split; [done |]. by intros ? [= <-].
  - intros [= <-] Hr. split; [done | discriminate].
Qed.

Lemma filter_tags_elem wanted rows r :
  r ∈ filter_tags wanted rows →
  r ∈ rows ∧ ∀ ts, wanted = Some ts → any_tag_in ts (tags (problem r)) = true.
Proof.
  unfold filter_tags. destruct wanted as [ts |].
  - intros Hr. apply elem_of_List_filter in Hr as [Hr Hk].
    split; [done |]. by intros ? [= <-].
  - intros Hr. split; [done | discriminate].
Qed.

Section RankerFacts.
Context `{NumpySqrt} `{SortValues}.

(** What every row of [top_recommendations] went through. *)
Lemma top_recommendations_elem self user_vector solved n mn mx wanted rows r :
  top_recommendations self user_vector solved n mn mx wanted = Ok rows →
  r ∈ rows →
  (∃ df, problems_df self = Some df ∧ problem r ∈ df)
  ∧ problem_id r = format_problem_id (contestId (problem r)) (index (problem r))
  ∧ (problem_id r ∉ solved)
  ∧ (∀ b, mn = Some b → rating_ge b r = true)
  ∧ (∀ b, mx = Some b → rating_le b r = true)
  ∧ (∀ ts, wanted = Some ts → any_tag_in ts (tags (problem r)) = true).
Proof.
  unfold top_recommendations.
  destruct (cosine_similarity _ _) as [scores |]; simpl; [| discriminate].
  destruct (problems_df self) as [df |]; simpl; [| discriminate].
  destruct (bool_decide (df = [])); simpl; [discriminate |].
  destruct (bool_decide (_ = length df)); simpl; [| discriminate].
  destruct (filter_rating df rating_ge mn _) as [rows1 |] eqn:H1; simpl;
    [| discriminate].
  destruct (filter_rating df rating_le mx rows1) as [rows2 |] eqn:H2; simpl;
    [| discriminate].
  intros [= <-] Hr.
  apply elem_of_head in Hr. rewrite sort_values_perm in Hr.
  apply filter_tags_elem in Hr as [Hr Htags].
  destruct (filter_rating_elem _ _ _ _ _ _ H2 Hr) as [Hr1 Hmx].
  destruct (filter_rating_elem _ _ _ _ _ _ H1 Hr1) as [Hr0 Hmn].
  apply elem_of_List_filter in Hr0 as [Hr0 Hsolved].
  apply bool_decide_eq_true in Hsolved.
  destruct (scored_rows_elem _ _ _ _ Hr0) as [Hid Hin].
  split; [by exists df |]. done.
Qed.

Lemma top_recommendations_sorted self user_vector solved n mn mx wanted rows :
  top_recommendations self user_vector solved n mn mx wanted = Ok rows →
  StronglySorted by_similarity_desc rows.
Proof.
  unfold top_recommendations.
  destruct (cosine_similarity _ _) as [scores |]; simpl; [| discriminate].
  destruct (problems_df self) as [df |]; simpl; [| discriminate].
  destruct (bool_decide (df = [])); simpl; [discriminate |].
  destruct (bool_decide (_ = length df)); simpl; [| discriminate].
  destruct (filter_rating df rating_ge mn _) as [rows1 |]; simpl;
    [| discriminate].
  destruct (filter_rating df rating_le mx rows1) as [rows2 |]; simpl;
    [| discriminate].
  intros [= <-]. apply head_sorted, sort_values_sorted.
Qed.

(** A returned list is empty or the records of [top_recommendations] run on
    the corpus of the incoming state. *)
Lemma get_recommendations_inv self disk user_handle n mn mx wanted rv rs
    recs self' disk' :
  get_recommendations self disk user_handle n mn mx wanted rv rs
    = (Ok recs, self', disk') →
  recs = [] ∨
  ∃ user_vector rows,
    problems_df self' = problems_df self ∧
    top_recommendations self' user_vector (solved_problems_of rs) n mn mx wanted
      = Ok rows ∧
    recs = map to_record rows.
Proof.
  unfold get_recommendations.
  set (obtained := match user_vectors self !! user_handle with
                   | Some (VecList v) => (Some v, self, disk)
                   | _ => create_user_vector self disk user_handle rv
                   end).
  assert (Hdf : problems_df (obtained.1.2) = problems_df self).
  { unfold obtained.
    assert (Hc : problems_df ((create_user_vector self disk user_handle rv).1.2)
                 = problems_df self).
    { unfold create_user_vector.
      destruct (bind _ _) as [[v |] |]; simpl; [| done | done].
      by destruct (writable disk). }
    destruct (user_vectors self !! user_handle) as [[v |] |]; done. }
  destruct obtained as [[vector self1] disk1]. simpl in Hdf.
  destruct vector as [user_vector |].
  - destruct (top_recommendations _ _ _ _ _ _ _) as [rows |] eqn:Htop; simpl;
      [| discriminate].
    intros [= <- <- <-]. right. by exists user_vector, rows.
  - intros [= <- <- <-]. by left.
Qed.
End RankerFacts.

(** * A small corpus to run the model on *)

Definition pA : Problem :=
  {| contestId := 1; index := "A"; tags := ["math"];
     rating := Some 800; solvedCount := Some 100 |}.
Definition pB : Problem :=
  {| contestId := 2; index := "B"; tags := ["dp"];
     rating := Some 1200; solvedCount := Some 50 |}.
Definition pC : Problem :=
  {| contestId := 3; index := "C"; tags := ["math"; "dp"];
     rating := Some 1600; solvedCount := Some 20 |}.
(** A problem without a rating. *)
Definition pD : Problem :=
  {| contestId := 4; index := "D"; tags := ["greedy"];
     rating := None; solvedCount := Some 10 |}.

Definition ex_corpus : DataFrame := [pA; pB; pC; pD].

(** A vectorizer with the vocabulary (math, dp). *)
Definition ex_vectorizer : TfidfVectorizer :=
  {| transform := λ text,
       if String.eqb text "math" then [1; 0]%Q
       else if String.eqb text "dp" then [0; 1]%Q
       else if String.eqb text "math dp" then [1 # 2; 1 # 2]%Q
       else [0; 0]%Q |}.

Definition ex_fresh : Recommender :=
  {| problems_df := Some ex_corpus; tfidf_vectorizer := Some ex_vectorizer;
     problem_vectors := None; user_vectors := ∅; last_update := 0 |}.

(** The recommender once the features are composed. *)
Definition ex_self : Recommender := (process_problem_features ex_fresh).2.

Definition ex_disk : Disk :=
  {| problems_file := Some ex_corpus; user_vectors_file := None;
     writable := true |}.

(** The submissions of a user who solved 1_A and failed 2_B. *)
Definition ex_status : ApiReply :=
  {| status := "OK";
     api_result := ResultSubmissions
       [ {| verdict := Some "OK"; sub_contestId := Some 1; sub_index := "A" |};
         {| verdict := Some "WRONG_ANSWER"; sub_contestId := Some 2;
            sub_index := "B" |} ] |}.

Definition ex_failed : ApiReply :=
  {| status := "FAILED"; api_result := ResultAbsent |}.

(** Two problems with the same features, hence the same similarity. *)
Definition pT1 : Problem :=
  {| contestId := 7; index := "A"; tags := ["math"];
     rating := Some 1000; solvedCount := Some 5 |}.
Definition pT2 : Problem :=
  {| contestId := 8; index := "A"; tags := ["math"];
     rating := Some 1000; solvedCount := Some 5 |}.

Definition tie_corpus : DataFrame := [pT1; pT2].

Definition tie_self : Recommender :=
  (process_problem_features
     {| problems_df := Some tie_corpus; tfidf_vectorizer := Some ex_vectorizer;
        problem_vectors := None; user_vectors := ∅; last_update := 0 |}).2.

(** A problem the user has solved, then two pairs of problems with the same
    features: the pair tagged dp is orthogonal to the profile of the user,
    the pair tagged math is parallel to it. *)
Definition pM0 : Problem :=
  {| contestId := 10; index := "A"; tags := ["math"];
     rating := Some 1000; solvedCount := Some 5 |}.
Definition pL1 : Problem :=
  {| contestId := 11; index := "A"; tags := ["dp"];
     rating := Some 1000; solvedCount := Some 5 |}.
Definition pL2 : Problem :=
  {| contestId := 12; index := "A"; tags := ["dp"];
     rating := Some 1000; solvedCount := Some 5 |}.
Definition pH1 : Problem :=
  {| contestId := 13; index := "A"; tags := ["math"];
     rating := Some 1000; solvedCount := Some 5 |}.
Definition pH2 : Problem :=
  {| contestId := 14; index := "A"; tags := ["math"];
     rating := Some 1000; solvedCount := Some 5 |}.

Definition pair_corpus : DataFrame := [pM0; pL1; pL2; pH1; pH2].

Definition pair_self : Recommender :=
  (process_problem_features
     {| problems_df := Some pair_corpus;
        tfidf_vectorizer := Some ex_vectorizer;
        problem_vectors := None; user_vectors := ∅; last_update := 0 |}).2.

(** The submissions of a user who solved 10_A. *)
Definition pair_status : ApiReply :=
  {| status := "OK";
     api_result := ResultSubmissions
       [ {| verdict := Some "OK"; sub_contestId := Some 10;
            sub_index := "A" |} ] |}.

(** * The ranker: exclusion, order and filters *)

Section RankerClaims.
Context `{NumpySqrt} `{SortValues}.


(** C2 (as the code has it): the returned list is sorted by similarity
    score in descending order.  Nothing is said of the order among equal
    scores, which [sort_values] with its default kind does not fix. *)
Theorem recommendations_sorted_by_similarity self disk user_handle n mn mx
    wanted rv rs recs :
  (get_recommendations self disk user_handle n mn mx wanted rv rs).1.1
    = Ok recs →
  decreasing_similarity recs.
Proof.
  destruct (get_recommendations _ _ _ _ _ _ _ _ _) as [[res self'] disk']
    eqn:Hget.
  simpl. intros ->.
  apply get_recommendations_inv in Hget as [-> | (uv & rows & _ & Htop & ->)].
  - constructor.
  - apply top_recommendations_sorted in Htop.
    unfold decreasing_similarity.
    induction Htop as [| row rows Hs IH Hrow]; simpl; constructor; [done |].
    apply Forall_fmap. eapply Forall_impl; [exact Hrow |]. done.
Qed.

(** C4: every returned problem has a rating of at least [min_rating] when
    that bound is given, of at most [max_rating] when that one is given, and
    shares a tag with [tags] when tags are given. *)
Theorem returned_problems_pass_filters self disk user_handle n mn mx wanted
    rv rs recs r :
  (get_recommendations self disk user_handle n mn mx wanted rv rs).1.1
    = Ok recs →
  r ∈ recs →
  (∀ b, mn = Some b → ∃ x, rating (rec_problem r) = Some x ∧ b ≤ x)
  ∧ (∀ b, mx = Some b → ∃ x, rating (rec_problem r) = Some x ∧ x ≤ b)
  ∧ (∀ ts, wanted = Some ts →
       ∃ tag, tag ∈ ts ∧ tag ∈ tags (rec_problem r)).
Proof.
  destruct (get_recommendations _ _ _ _ _ _ _ _ _) as [[res self'] disk']
    eqn:Hget.
  simpl. intros -> Hr.
  apply get_recommendations_inv in Hget as [-> | (uv & rows & _ & Htop & ->)].
  { by apply elem_of_nil in Hr. }
  apply list_elem_of_fmap in Hr as (row & -> & Hrow).
  destruct (top_recommendations_elem _ _ _ _ _ _ _ _ _ Htop Hrow)
    as (_ & _ & _ & Hmn & Hmx & Htags).
  simpl. split; [| split].
  - intros b Hb. specialize (Hmn b Hb). unfold rating_ge in Hmn.
    destruct (rating (problem row)) as [x |]; [| discriminate].
    exists x. split; [done | by apply Z.leb_le].
  - intros b Hb. specialize (Hmx b Hb). unfold rating_le in Hmx.
    destruct (rating (problem row)) as [x |]; [| discriminate].
    exists x. split; [done | by apply Z.leb_le].
  - intros ts Hts. specialize (Htags ts Hts). unfold any_tag_in in Htags.
    apply existsb_exists in Htags as (tag & Hin & Hdec).
    exists tag. split; [by apply list_elem_of_In |].
    by apply bool_decide_eq_true in Hdec.
Qed.
End RankerClaims.


(** C2 (sorted part) on the example. *)
Lemma recommendations_sorted_by_similarity_example :
  ∃ recs,
    (get_recommendations ex_self ex_disk "alice" 10 None None None
       (Some ex_status) (Some ex_status)).1.1 = Ok recs
    ∧ rec_problem_id <$> recs = ["3_C"; "2_B"; "4_D"]
    ∧ decreasing_similarity recs.
Proof.
  eexists. split; [vm_compute; reflexivity |].
  split; [reflexivity |].
  apply (recommendations_sorted_by_similarity ex_self ex_disk "alice" 10
           None None None (Some ex_status) (Some ex_status)).
  vm_compute; reflexivity.
Defined.

(** C2 as stated fails where numpy sorts with vector instructions.  The
    user solved 10_A, which is excluded; of the four rows that are sorted,
    11_A and 12_A have similarity 0 and 13_A and 14_A similarity 1 (every
    operation on these values is exact in binary64 as well).  The two pairs
    come back in the reverse of their corpus order: 14_A, 13_A, 12_A,
    11_A. *)
Lemma ties_not_in_corpus_order :
  ∃ recs,
    (get_recommendations (H0 := vector_SortValues) pair_self ex_disk "bob"
       10 None None None (Some pair_status) (Some pair_status)).1.1 = Ok recs
    ∧ problems_df pair_self = Some pair_corpus
    ∧ problem_vectors pair_self
      = Some [[1; 0; 0; 0]; [0; 1; 0; 0]; [0; 1; 0; 0];
              [1; 0; 0; 0]; [1; 0; 0; 0]]%Q
    ∧ rec_problem <$> recs = [pH2; pH1; pL2; pL1]
    ∧ Forall2 Qeq (rec_similarity <$> recs) [1; 1; 0; 0]%Q
    ∧ decreasing_similarity recs
    ∧ ¬ ties_in_corpus_order pair_corpus recs.
Proof.
  eexists. split; [vm_compute; reflexivity |].
  split; [reflexivity |]. split; [reflexivity |]. split; [reflexivity |].
  split; [by repeat constructor |].
  split.
  { apply (recommendations_sorted_by_similarity (H0 := vector_SortValues)
             pair_self ex_disk "bob" 10 None None None
             (Some pair_status) (Some pair_status)).
    vm_compute; reflexivity. }
  intros Hties.
  destruct (Hties 0%nat 1%nat _ _ eq_refl eq_refl) as (p & q & Hp & Hq & Hlt);
    [lia | reflexivity |].
  do 5 (destruct p as [| p]; [try discriminate Hp |]);
    [| by destruct p].
  do 5 (destruct q as [| q]; [try discriminate Hq; try lia |]).
  by destruct q.
Qed.

(** On two rows of equal similarity the same network leaves the corpus
    order, as the stable sort does. *)
Example two_ties_stay_in_corpus_order :
  ∃ recs,
    (get_recommendations (H0 := vector_SortValues) tie_self ex_disk "bob"
       10 None None None (Some ex_status) (Some ex_status)).1.1 = Ok recs
    ∧ (get_recommendations (H0 := stable_SortValues) tie_self ex_disk "bob"
         10 None None None (Some ex_status) (Some ex_status)).1.1 = Ok recs
    ∧ rec_problem <$> recs = [pT1; pT2].
Proof.
  eexists. split; [vm_compute; reflexivity |].
  split; [vm_compute; reflexivity | reflexivity].
Qed.

(** C4 on the example: bounds 1000..1600 and the tag dp. *)
Lemma returned_problems_pass_filters_example :
  ∃ recs,
    (get_recommendations ex_self ex_disk "alice" 10 (Some 1000) (Some 1600)
       (Some ["dp"]) (Some ex_status) (Some ex_status)).1.1 = Ok recs
    ∧ rec_problem <$> recs = [pC; pB]
    ∧ Forall (λ r,
        (∀ b, Some 1000 = Some b → ∃ x, rating (rec_problem r) = Some x ∧ b ≤ x)
        ∧ (∀ b, Some 1600 = Some b →
             ∃ x, rating (rec_problem r) = Some x ∧ x ≤ b)
        ∧ (∀ ts, Some ["dp"] = Some ts →
             ∃ tag, tag ∈ ts ∧ tag ∈ tags (rec_problem r))) recs.
Proof.
  eexists. split; [vm_compute; reflexivity |].
  split; [reflexivity |].
  apply Forall_forall. intros r Hr.
  eapply (returned_problems_pass_filters ex_self ex_disk "alice" 10
            (Some 1000) (Some 1600) (Some ["dp"])
            (Some ex_status) (Some ex_status)); [| exact Hr].
  vm_compute; reflexivity.
Defined.

(** * The corpus refresh *)

Lemma failed_fetch_not_ok data : status data ≠ "OK" →
  String.eqb (status data) "OK" = false.
Proof. intros Hs. by apply String.eqb_neq. Qed.

(** C7: when the refresh fails because the fetch raises or the reply
    reports a status other than OK, [fetch_problems] returns [False] and
    leaves the recommender (the in-memory corpus with it) and the files
    exactly as they were. *)
Theorem failed_refresh_keeps_corpus self disk response now :
  failed_fetch response →
  fetch_problems self disk response now = (false, self, disk).
Proof.
  intros [-> | (data & -> & Hs)]; simpl; [done |].
  by rewrite (failed_fetch_not_ok _ Hs).
Qed.

Lemma failed_refresh_keeps_corpus_example :
  failed_fetch (Some ex_failed)
  ∧ failed_fetch None
  ∧ fetch_problems ex_self ex_disk (Some ex_failed) 42 = (false, ex_self, ex_disk)
  ∧ problems_file ex_disk = Some ex_corpus.
Proof.
  assert (Hf : failed_fetch (Some ex_failed)).
  { right. exists ex_failed. split; [reflexivity | discriminate]. }
  split; [exact Hf |]. split; [by left |].
  split; [| reflexivity].
  apply (failed_refresh_keeps_corpus ex_self ex_disk (Some ex_failed) 42 Hf).
Defined.

(** * The user profile *)



(** When the fetch fails, [create_user_vector] returns [None] and changes
    nothing. *)
Lemma create_user_vector_failed self disk user_handle response :
  failed_fetch response →
  create_user_vector self disk user_handle response = (None, self, disk).
Proof.
  intros [-> | (data & -> & Hs)]; unfold create_user_vector; simpl; [done |].
  by rewrite (failed_fetch_not_ok _ Hs).
Qed.


(** [np_mean] is the mean of each column. *)
Lemma vadd_lookup (a b : list Q) j d :
  length a = d → length b = d → (j < d)%nat →
  length (vadd a b) = d ∧ nth j (vadd a b) 0%Q = (nth j a 0 + nth j b 0)%Q.
Proof.
  intros Ha Hb Hj. unfold vadd. split.
  - rewrite length_zip_with. lia.
  - rewrite !nth_lookup, lookup_zip_with.
    destruct (lookup_lt_is_Some_2 a j) as [x Hx]; [lia |].
    destruct (lookup_lt_is_Some_2 b j) as [y Hy]; [lia |].
    by rewrite Hx, Hy.
Qed.

Lemma fold_vadd_column rs : ∀ r j d,
  length r = d → Forall (λ row, length row = d) rs → (j < d)%nat →
  length (fold_left vadd rs r) = d ∧
  (nth j (fold_left vadd rs r) 0 == nth j r 0 + column_sum rs j)%Q.
Proof.
  induction rs as [| x rs IH]; intros r j d Hr Hrs Hj; simpl.
  - split; [done |]. unfold column_sum. simpl. ring.
  - inversion Hrs as [| ? ? Hx Hrs']; subst.
    destruct (vadd_lookup r x j (length r) eq_refl Hx Hj) as [Hlen Hnth].
    destruct (IH (vadd r x) j (length r) Hlen Hrs' Hj) as [Hlen' Hsum].
    split; [done |].
    rewrite Hsum, Hnth. unfold column_sum. simpl. ring.
Qed.

Lemma np_mean_column (m : list (list Q)) j d :
  m ≠ [] → Forall (λ row, length row = d) m → (j < d)%nat →
  length (np_mean m) = d ∧
  (nth j (np_mean m) 0
   == column_sum m j / inject_Z (Z.of_nat (length m)))%Q.
Proof.
  destruct m as [| r rs]; [done |]. intros _ Hm Hj.
  inversion Hm as [| ? ? Hr Hrs]; subst.
  destruct (fold_vadd_column rs r j (length r) eq_refl Hrs Hj) as [Hlen Hsum].
  unfold np_mean. split; [by rewrite length_map |].
  rewrite !nth_lookup, list_lookup_fmap.
  destruct (lookup_lt_is_Some_2 (fold_left vadd rs r) j) as [s Hs]; [lia |].
  rewrite Hs. simpl.
  rewrite nth_lookup, Hs in Hsum. simpl in Hsum. rewrite Hsum.
  unfold column_sum. simpl. reflexivity.
Qed.




(** * No vector, no recommendation *)

Section ErrorPaths.
Context `{NumpySqrt} `{SortValues}.

(** The same for every cause that makes [create_user_vector] return
    [None]. *)
Lemma no_vector_no_recommendation self disk user_handle n mn mx wanted rv rs :
  (∀ v, user_vectors self !! user_handle ≠ Some (VecList v)) →
  (create_user_vector self disk user_handle rv).1.1 = None →
  (get_recommendations self disk user_handle n mn mx wanted rv rs).1.1 = Ok [].
Proof.
  intros Hcache Hnone. unfold get_recommendations.
  destruct (user_vectors self !! user_handle) as [[v |] |];
    [by destruct (Hcache v) | |];
    destruct (create_user_vector self disk user_handle rv) as [[vector s] d];
    simpl in Hnone; by subst.
Qed.

(** C6: with no list cached for the handle and a [user.status] fetch that
    raises or reports a status other than OK, [create_user_vector] returns
    [None] and [get_recommendations] returns the empty list (a value, not an
    exception), leaving the recommender and the disk as they were. *)
Theorem unobtainable_vector_gives_empty_list self disk user_handle n mn mx
    wanted rv rs :
  (∀ v, user_vectors self !! user_handle ≠ Some (VecList v)) →
  failed_fetch rv →
  (create_user_vector self disk user_handle rv).1.1 = None
  ∧ get_recommendations self disk user_handle n mn mx wanted rv rs
    = (Ok [], self, disk).
Proof.
  intros Hcache Hfail.
  pose proof (create_user_vector_failed self disk user_handle rv Hfail) as Hc.
  split; [by rewrite Hc |].
  unfold get_recommendations.
  destruct (user_vectors self !! user_handle) as [[v |] |];
    [by destruct (Hcache v) | |]; by rewrite Hc.
Qed.
End ErrorPaths.

Lemma unobtainable_vector_gives_empty_list_example :
  (∀ v, user_vectors ex_self !! "erin" ≠ Some (VecList v))
  ∧ failed_fetch (Some ex_failed)
  ∧ (create_user_vector ex_self ex_disk "erin" (Some ex_failed)).1.1 = None
  ∧ get_recommendations ex_self ex_disk "erin" 10 None None None
      (Some ex_failed) (Some ex_status) = (Ok [], ex_self, ex_disk)
  ∧ get_recommendations ex_self ex_disk "erin" 10 None None None
      None (Some ex_status) = (Ok [], ex_self, ex_disk).
Proof.
  assert (Hcache : ∀ v, user_vectors ex_self !! "erin" ≠ Some (VecList v))
    by (intros v; vm_compute; discriminate).
  assert (Hf : failed_fetch (Some ex_failed)).
  { right. exists ex_failed. split; [reflexivity | discriminate]. }
  split; [exact Hcache |]. split; [exact Hf |].
  destruct (unobtainable_vector_gives_empty_list ex_self ex_disk "erin" 10
              None None None (Some ex_failed) (Some ex_status) Hcache Hf)
    as [Hnone Hempty].
  split; [exact Hnone |]. split; [exact Hempty |].
  apply (unobtainable_vector_gives_empty_list ex_self ex_disk "erin" 10
           None None None None (Some ex_status) Hcache).
  by left.
Defined.

(** * Cosine similarity *)

Definition all_zero (x : list Q) : Prop := Forall (λ v, v == 0)%Q x.

Lemma dot_cons a x b y : dot (a :: x) (b :: y) = (a * b + dot x y)%Q.
Proof. reflexivity. Qed.

Lemma dot_zero_l x y : all_zero x → (dot x y == 0)%Q.
Proof.
  intros Hx. revert y. induction Hx as [| a x Ha Hx IH]; intros [| b y];
    try reflexivity.
  rewrite dot_cons, IH, Ha. ring.
Qed.

Lemma dot_zero_r x y : all_zero y → (dot x y == 0)%Q.
Proof.
  intros Hy. revert x. induction Hy as [| b y Hb Hy IH]; intros [| a x];
    try reflexivity.
  rewrite dot_cons, IH, Hb. ring.
Qed.

Lemma dot_self_nonneg x : (0 <= dot x x)%Q.
Proof.
  induction x as [| a x IH]; [apply Qle_refl |].
  rewrite dot_cons.
  assert (0 <= a * a)%Q by nra. lra.
Qed.

Lemma dot_self_zero x : (dot x x == 0)%Q → all_zero x.
Proof.
  induction x as [| a x IH]; [constructor |].
  rewrite dot_cons. intros Hs.
  pose proof (dot_self_nonneg x) as Hx.
  assert (Ha : (0 <= a * a)%Q) by nra.
  assert (Haa : (a * a == 0)%Q) by lra.
  assert (Hxx : (dot x x == 0)%Q) by lra.
  constructor; [| by apply IH].
  by destruct (Qmult_integral _ _ Haa).
Qed.

Section SimilarityFacts.
Context `{NumpySqrt}.

Lemma zero_norm_all_zero x : (row_norm x == 0)%Q → all_zero x.
Proof.
  intros Hn. apply dot_self_zero, np_sqrt_eq0; [apply dot_self_nonneg | done].
Qed.

Lemma normalize_all_zero x : all_zero x → all_zero (normalize x).
Proof.
  unfold normalize, all_zero. intros Hx. apply Forall_fmap.
  eapply Forall_impl; [exact Hx |].
  intros v Hv. simpl. unfold Qdiv. rewrite Hv. ring.
Qed.

Lemma check_pairwise_arrays_ok user_vector vectors :
  user_vector ≠ [] → vectors ≠ [] →
  Forall (λ row, length row = length user_vector) vectors →
  check_pairwise_arrays [user_vector] vectors = Ok tt.
Proof.
  intros Hu Hv Hlen. unfold check_pairwise_arrays.
  destruct vectors as [| row rows]; [done |].
  rewrite bool_decide_eq_false_2 by (by destruct user_vector).
  assert (Hall : forallb (λ r, bool_decide (length r = length user_vector))
                   ([user_vector] ++ row :: rows) = true).
  { apply forallb_forall. intros r Hr. apply bool_decide_eq_true.
    apply list_elem_of_In in Hr. apply elem_of_cons in Hr as [-> | Hr]; [done |].
    by eapply (proj1 (Forall_forall _ _) Hlen). }
  by rewrite Hall.
Qed.

Lemma handle_zeros_in_scale_nonzero s : ¬ (handle_zeros_in_scale s == 0)%Q.
Proof.
  unfold handle_zeros_in_scale. destruct (Qeq_bool s 0) eqn:He.
  - intros Hone. discriminate Hone.
  - by apply Qeq_bool_neq.
Qed.

(** Dividing both vectors by their norms divides the dot product by the
    product of the norms, when neither is zero. *)
Lemma dot_div a b x : ∀ y,
  ¬ (a == 0)%Q → ¬ (b == 0)%Q →
  (dot (map (λ v, v / a) x) (map (λ v, v / b) y) * (a * b) == dot x y)%Q.
Proof.
  induction x as [| x0 x IH]; intros [| y0 y] Ha Hb; simpl;
    try (unfold dot; simpl; ring).
  rewrite !dot_cons, <- (IH y Ha Hb). field. by split.
Qed.

Lemma dot_normalize x y :
  (dot (normalize x) (normalize y)
   * (handle_zeros_in_scale (row_norm x) * handle_zeros_in_scale (row_norm y))
   == dot x y)%Q.
Proof. apply dot_div; apply handle_zeros_in_scale_nonzero. Qed.

End SimilarityFacts.

(** * Feature composition: the min-max scaler *)

Lemma fold_Qmin_le xs : ∀ x v, v ∈ x :: xs → (fold_left Qmin xs x <= v)%Q.
Proof.
  induction xs as [| y xs IH]; intros x v Hv; simpl.
  - apply list_elem_of_singleton in Hv as ->. apply Qle_refl.
  - apply elem_of_cons in Hv as [-> | Hv].
    + eapply Qle_trans; [apply IH; apply elem_of_cons; by left |].
      apply Q.le_min_l.
    + apply elem_of_cons in Hv as [-> | Hv].
      * eapply Qle_trans; [apply IH; apply elem_of_cons; by left |].
        apply Q.le_min_r.
      * apply IH. apply elem_of_cons. by right.
Qed.

Lemma fold_Qmax_ge xs : ∀ x v, v ∈ x :: xs → (v <= fold_left Qmax xs x)%Q.
Proof.
  induction xs as [| y xs IH]; intros x v Hv; simpl.
  - apply list_elem_of_singleton in Hv as ->. apply Qle_refl.
  - apply elem_of_cons in Hv as [-> | Hv].
    + eapply Qle_trans; [apply Q.le_max_l |].
      apply IH. apply elem_of_cons. by left.
    + apply elem_of_cons in Hv as [-> | Hv].
      * eapply Qle_trans; [apply Q.le_max_r |].
        apply IH. apply elem_of_cons. by left.
      * apply IH. apply elem_of_cons. by right.
Qed.

Lemma handle_zeros_in_scale_pos r : (0 < r)%Q → handle_zeros_in_scale r = r.
Proof.
  intros Hr. unfold handle_zeros_in_scale.
  destruct (Qeq_bool r 0) eqn:He; [| done].
  apply Qeq_bool_eq in He. lra.
Qed.

Lemma scaled_in_unit_interval mn mx v :
  (mn <= v)%Q → (v <= mx)%Q → (mn < mx)%Q →
  in_unit_interval (v * ((1 - 0) / (mx - mn)) + (0 - mn * ((1 - 0) / (mx - mn))))%Q.
Proof.
  intros Hlo Hhi Hr.
  assert (Heq : (v * ((1 - 0) / (mx - mn)) + (0 - mn * ((1 - 0) / (mx - mn)))
                 == (v - mn) / (mx - mn))%Q) by (field; lra).
  unfold in_unit_interval. rewrite Heq. split.
  - apply Qle_shift_div_l; lra.
  - apply Qle_shift_div_r; lra.
Qed.

(** On a column with two different values every scaled entry is in [0,1]. *)
Lemma MinMaxScaler_range X a b :
  a ∈ X → b ∈ X → ¬ (a == b)%Q →
  ∃ scaled,
    MinMaxScaler_fit_transform X = Ok scaled
    ∧ length scaled = length X
    ∧ Forall in_unit_interval scaled.
Proof.
  intros Ha Hb Hab. destruct X as [| x xs]; [by apply elem_of_nil in Ha |].
  eexists. split; [reflexivity |]. split; [by rewrite length_map |].
  set (mn := fold_left Qmin xs x). set (mx := fold_left Qmax xs x).
  assert (Hr : (mn < mx)%Q).
  { pose proof (fold_Qmin_le xs x a Ha). pose proof (fold_Qmin_le xs x b Hb).
    pose proof (fold_Qmax_ge xs x a Ha). pose proof (fold_Qmax_ge xs x b Hb).
    fold mn in H, H0. fold mx in H1, H2.
    destruct (Qlt_le_dec mn mx) as [Hlt | Hge]; [done |].
    destruct Hab. lra. }
  rewrite handle_zeros_in_scale_pos by lra.
  apply Forall_fmap, Forall_forall. intros v Hv. simpl.
  apply scaled_in_unit_interval; [by apply fold_Qmin_le | by apply fold_Qmax_ge | done].
Qed.

Lemma fold_Qmin_constant c xs :
  Forall (λ v, v = c) xs → fold_left Qmin xs c = c.
Proof.
  induction 1 as [| v xs -> _ IH]; simpl; [done |].
  replace (Qmin c c) with c; [done |].
  unfold Qmin, GenericMinMax.gmin. by destruct (c ?= c)%Q.
Qed.

Lemma fold_Qmax_constant c xs :
  Forall (λ v, v = c) xs → fold_left Qmax xs c = c.
Proof.
  induction 1 as [| v xs -> _ IH]; simpl; [done |].
  replace (Qmax c c) with c; [done |].
  unfold Qmax, GenericMinMax.gmax. by destruct (c ?= c)%Q.
Qed.

(** On a constant column the range is zero, the scale is taken to be one,
    and every scaled entry is zero. *)
Lemma MinMaxScaler_constant X c :
  X ≠ [] → Forall (λ v, v = c) X →
  ∃ scaled,
    MinMaxScaler_fit_transform X = Ok scaled
    ∧ length scaled = length X
    ∧ Forall (λ s, s == 0)%Q scaled.
Proof.
  intros Hne Hc. destruct X as [| x xs]; [done |].
  apply Forall_cons in Hc as [-> Hxs].
  eexists. split; [reflexivity |]. split; [by rewrite length_map |].
  rewrite (fold_Qmin_constant c xs Hxs), (fold_Qmax_constant c xs Hxs).
  assert (Hz : handle_zeros_in_scale (c - c) = 1%Q).
  { unfold handle_zeros_in_scale.
    assert (He : Qeq_bool (c - c) 0 = true) by (apply Qeq_bool_iff; ring).
    by rewrite He. }
  rewrite Hz. apply Forall_fmap, Forall_forall. intros v Hv. simpl.
  assert (v = c) as ->.
  { apply elem_of_cons in Hv as [-> | Hv]; [done |].
    by apply (proj1 (Forall_forall _ _) Hxs). }
  field.
Qed.

(** ** The feature matrix *)

Lemma hstack_length tfidf ratings solved n :
  length tfidf = n → length ratings = n → length solved = n →
  length (hstack tfidf ratings solved) = n.
Proof.
  revert ratings solved n.
  induction tfidf as [| t ts IH]; intros [| r rs] [| s ss] n; simpl;
    intros <-; try done.
  intros [= Hr] [= Hs]. f_equal. by apply IH.
Qed.

Lemma hstack_lookup tfidf ratings solved i row :
  hstack tfidf ratings solved !! i = Some row →
  ∃ t r s,
    tfidf !! i = Some t ∧ ratings !! i = Some r ∧ solved !! i = Some s
    ∧ row = t ++ [r; s].
Proof.
  revert ratings solved i.
  induction tfidf as [| t ts IH]; intros [| r rs] [| s ss] i; simpl;
    try done.
  destruct i as [| i]; simpl.
  - intros [= <-]. by exists t, r, s.
  - apply IH.
Qed.

Lemma getitem_several {value column} key df :
  several_values value column df →
  getitem key column df = Ok (map column df).
Proof.
  intros (p & q & Hp & Hq & Hpq). unfold getitem.
  destruct (existsb _ df) eqn:He; [done |].
  assert (Hnone : ∀ x, x ∈ df → column x = None).
  { intros x Hx. destruct (column x) as [z |] eqn:Hz; [| done].
    assert (existsb (λ p, bool_decide (is_Some (column p))) df = true);
      [| congruence].
    apply existsb_exists. exists x.
    split; [by apply list_elem_of_In |].
    apply bool_decide_eq_true. by rewrite Hz. }
  destruct Hpq. by rewrite (Hnone p Hp), (Hnone q Hq).
Qed.

Lemma fillna_several value column df :
  several_values value column df →
  ∃ a b, a ∈ fillna value (map column df) ∧ b ∈ fillna value (map column df)
         ∧ ¬ (a == b)%Q.
Proof.
  intros (p & q & Hp & Hq & Hpq).
  exists (inject_Z (default value (column p))),
         (inject_Z (default value (column q))).
  unfold fillna. rewrite !map_map.
  split; [apply list_elem_of_fmap; by exists p |].
  split; [apply list_elem_of_fmap; by exists q |].
  intros Heq. apply Hpq. by apply inject_Z_injective.
Qed.

Lemma several_values_nonempty value column df :
  several_values value column df → df ≠ [].
Proof. intros (p & _ & Hp & _) ->. by apply elem_of_nil in Hp. Qed.

(** What a composed matrix is made of. *)
Lemma compose_features_inv df vectorizer vectors :
  compose_features df vectorizer = Ok vectors →
  ∃ ratings_scaled solved_scaled,
    MinMaxScaler_fit_transform (fillna 1500 (map rating df)) = Ok ratings_scaled
    ∧ MinMaxScaler_fit_transform (fillna 0 (map solvedCount df))
      = Ok solved_scaled
    ∧ vectors
      = hstack (map (λ p, transform vectorizer (tags_text p)) df)
          ratings_scaled solved_scaled.
Proof.
  unfold compose_features, getitem.
  destruct (bool_decide (df = [])); simpl; [discriminate |].
  destruct (existsb _ df); simpl; [| discriminate].
  destruct (MinMaxScaler_fit_transform _) as [rs |] eqn:Hr; simpl;
    [| discriminate].
  destruct (existsb _ df); simpl; [| discriminate].
  destruct (MinMaxScaler_fit_transform (fillna 0 _)) as [ss |] eqn:Hs; simpl;
    [| discriminate].
  intros [= <-]. by exists rs, ss.
Qed.

Lemma process_problem_features_corpus self :
  problems_df (process_problem_features self).2 = problems_df self.
Proof.
  unfold process_problem_features.
  destruct (problems_df self) as [df |] eqn:Hdf; [| done].
  destruct (tfidf_vectorizer self) as [v |]; [| done].
  by destruct (compose_features df v).
Qed.

(** C9 (in exact arithmetic): when the ratings after default-fill take more
    than one value, and the solved-counts too, [process_problem_features]
    produces a matrix with one row per problem whose last two entries, the
    scaled rating and the scaled solved-count, lie in [0,1]. *)
Theorem scaled_columns_in_unit_interval self df vectorizer :
  problems_df self = Some df →
  tfidf_vectorizer self = Some vectorizer →
  several_values 1500 rating df →
  several_values 0 solvedCount df →
  ∃ vectors,
    process_problem_features self = (Ok true, set_problem_vectors self vectors)
    ∧ length vectors = length df
    ∧ ∀ i row, vectors !! i = Some row →
        ∃ t r s, row = t ++ [r; s] ∧ in_unit_interval r ∧ in_unit_interval s.
Proof.
  intros Hdf Hvec Hrating Hsolved.
  destruct (fillna_several _ _ _ Hrating) as (a & b & Ha & Hb & Hab).
  destruct (MinMaxScaler_range _ a b Ha Hb Hab) as (rs & Hrs & Hrlen & Hrint).
  destruct (fillna_several _ _ _ Hsolved) as (c & d & Hc & Hd & Hcd).
  destruct (MinMaxScaler_range _ c d Hc Hd Hcd) as (ss & Hss & Hslen & Hsint).
  exists (hstack (map (λ p, transform vectorizer (tags_text p)) df) rs ss).
  split; [| split].
  - unfold process_problem_features, compose_features. rewrite Hdf, Hvec.
    rewrite bool_decide_eq_false_2
      by (by eapply several_values_nonempty).
    simpl. rewrite (getitem_several _ _ Hrating). simpl. rewrite Hrs. simpl.
    rewrite (getitem_several _ _ Hsolved). simpl. by rewrite Hss.
  - unfold fillna in Hrlen, Hslen. rewrite !length_map in Hrlen, Hslen.
    apply hstack_length; [by rewrite length_map | done | done].
  - intros i row Hrow.
    apply hstack_lookup in Hrow as (t & r & s & _ & Hr & Hs & ->).
    exists t, r, s. split; [done |]. split.
    + eapply (proj1 (Forall_forall _ _) Hrint), list_elem_of_lookup. eauto.
    + eapply (proj1 (Forall_forall _ _) Hsint), list_elem_of_lookup. eauto.
Qed.

Lemma scaled_columns_in_unit_interval_example :
  several_values 1500 rating ex_corpus
  ∧ several_values 0 solvedCount ex_corpus
  ∧ ∃ vectors,
      process_problem_features ex_fresh
        = (Ok true, set_problem_vectors ex_fresh vectors)
      ∧ length vectors = 4%nat
      ∧ ∀ i row, vectors !! i = Some row →
          ∃ t r s, row = t ++ [r; s] ∧ in_unit_interval r ∧ in_unit_interval s.
Proof.
  assert (Hr : several_values 1500 rating ex_corpus).
  { exists pA, pB. split; [by left |].
    split; [right; by left | discriminate]. }
  assert (Hs : several_values 0 solvedCount ex_corpus).
  { exists pA, pB. split; [by left |].
    split; [right; by left | discriminate]. }
  split; [exact Hr |]. split; [exact Hs |].
  apply (scaled_columns_in_unit_interval ex_fresh ex_corpus ex_vectorizer
           eq_refl eq_refl Hr Hs).
Defined.

(** C9 as stated fails in binary64: on the solved counts 1 and 6 the scaler
    computes [6 * 0.2 + (0 - 1 * 0.2)] for the larger one, which rounds to
    1.0000000000000002. *)
Lemma binary64_scaled_entry_above_one :
  several_values 0 solvedCount
    [ {| contestId := 1; index := "A"; tags := []; rating := Some 800;
         solvedCount := Some 1 |};
      {| contestId := 1; index := "B"; tags := []; rating := Some 900;
         solvedCount := Some 6 |} ]
  ∧ PrimFloat.ltb 1 (f64_minmax_scale 1 6 6) = true
  ∧ f64_minmax_scale 1 6 6 = 0x1.0000000000001p+0%float.
Proof.
  split; [| split; reflexivity].
  eexists _, _. split; [by left |]. split; [right; by left | discriminate].
Qed.

(** ** Constant columns *)

Lemma getitem_some {A} key (column : Problem → option A) df p :
  p ∈ df → is_Some (column p) → getitem key column df = Ok (map column df).
Proof.
  intros Hp Hsome. unfold getitem.
  assert (He : existsb (λ p, bool_decide (is_Some (column p))) df = true).
  { apply existsb_exists. exists p.
    split; [by apply list_elem_of_In | by apply bool_decide_eq_true]. }
  by rewrite He.
Qed.

Lemma MinMaxScaler_ok X :
  X ≠ [] →
  ∃ scaled, MinMaxScaler_fit_transform X = Ok scaled
            ∧ length scaled = length X.
Proof.
  destruct X as [| x xs]; [done |]. intros _.
  eexists. split; [reflexivity |]. by rewrite length_map.
Qed.

Lemma fillna_constant value column df p :
  p ∈ df → constant_column value column df →
  fillna value (map column df) ≠ []
  ∧ Forall (λ v, v = inject_Z (default value (column p)))
      (fillna value (map column df)).
Proof.
  intros Hp Hconst. unfold fillna. rewrite map_map. split.
  - destruct df; [by apply elem_of_nil in Hp | done].
  - apply Forall_fmap, Forall_forall. intros q Hq. simpl.
    f_equal. by apply Hconst.
Qed.

(** When every problem has the same rating after default-fill and the
    [rating] and [solvedCount] columns exist, the matrix is produced, with
    one row per problem and a scaled rating of zero in each. *)
Lemma constant_rating_scaled_to_zero self df vectorizer p q :
  problems_df self = Some df →
  tfidf_vectorizer self = Some vectorizer →
  p ∈ df → is_Some (rating p) →
  q ∈ df → is_Some (solvedCount q) →
  constant_column 1500 rating df →
  ∃ vectors,
    process_problem_features self = (Ok true, set_problem_vectors self vectors)
    ∧ length vectors = length df
    ∧ ∀ i row, vectors !! i = Some row →
        ∃ t r s, row = t ++ [r; s] ∧ (r == 0)%Q.
Proof.
  intros Hdf Hvec Hp Hrp Hq Hsq Hconst.
  destruct (fillna_constant 1500 rating df p Hp Hconst) as [Hne Hall].
  destruct (MinMaxScaler_constant _ _ Hne Hall) as (rs & Hrs & Hrlen & Hzero).
  destruct (MinMaxScaler_ok (fillna 0 (map solvedCount df)))
    as (ss & Hss & Hslen).
  { unfold fillna. rewrite map_map.
    destruct df; [by apply elem_of_nil in Hp | done]. }
  exists (hstack (map (λ p, transform vectorizer (tags_text p)) df) rs ss).
  split; [| split].
  - unfold process_problem_features, compose_features. rewrite Hdf, Hvec.
    rewrite bool_decide_eq_false_2
      by (intros ->; by apply elem_of_nil in Hp).
    simpl. rewrite (getitem_some _ _ _ p Hp Hrp). simpl. rewrite Hrs. simpl.
    rewrite (getitem_some _ _ _ q Hq Hsq). simpl. by rewrite Hss.
  - unfold fillna in Hrlen, Hslen. rewrite !length_map in Hrlen, Hslen.
    apply hstack_length; [by rewrite length_map | done | done].
  - intros i row Hrow.
    apply hstack_lookup in Hrow as (t & r & s & _ & Hr & _ & ->).
    exists t, r, s. split; [done |].
    eapply (proj1 (Forall_forall _ _) Hzero), list_elem_of_lookup. eauto.
Qed.

(** The same for a constant solved-count. *)
Lemma constant_solved_count_scaled_to_zero self df vectorizer p q :
  problems_df self = Some df →
  tfidf_vectorizer self = Some vectorizer →
  p ∈ df → is_Some (rating p) →
  q ∈ df → is_Some (solvedCount q) →
  constant_column 0 solvedCount df →
  ∃ vectors,
    process_problem_features self = (Ok true, set_problem_vectors self vectors)
    ∧ length vectors = length df
    ∧ ∀ i row, vectors !! i = Some row →
        ∃ t r s, row = t ++ [r; s] ∧ (s == 0)%Q.
Proof.
  intros Hdf Hvec Hp Hrp Hq Hsq Hconst.
  destruct (fillna_constant 0 solvedCount df q Hq Hconst) as [Hne Hall].
  destruct (MinMaxScaler_constant _ _ Hne Hall) as (ss & Hss & Hslen & Hzero).
  destruct (MinMaxScaler_ok (fillna 1500 (map rating df)))
    as (rs & Hrs & Hrlen).
  { unfold fillna. rewrite map_map.
    destruct df; [by apply elem_of_nil in Hp | done]. }
  exists (hstack (map (λ p, transform vectorizer (tags_text p)) df) rs ss).
  split; [| split].
  - unfold process_problem_features, compose_features. rewrite Hdf, Hvec.
    rewrite bool_decide_eq_false_2
      by (intros ->; by apply elem_of_nil in Hp).
    simpl. rewrite (getitem_some _ _ _ p Hp Hrp). simpl. rewrite Hrs. simpl.
    rewrite (getitem_some _ _ _ q Hq Hsq). simpl. by rewrite Hss.
  - unfold fillna in Hrlen, Hslen. rewrite !length_map in Hrlen, Hslen.
    apply hstack_length; [by rewrite length_map | done | done].
  - intros i row Hrow.
    apply hstack_lookup in Hrow as (t & r & s & _ & _ & Hs & ->).
    exists t, r, s. split; [done |].
    eapply (proj1 (Forall_forall _ _) Hzero), list_elem_of_lookup. eauto.
Qed.

(** The constant columns of [tie_corpus]. *)
Example tie_corpus_features :
  problem_vectors tie_self = Some [[1; 0; 0; 0]; [1; 0; 0; 0]]%Q.
Proof. vm_compute. reflexivity. Qed.

(** A corpus in which no problem carries a rating: after default-fill every
    rating would be 1500. *)
Definition unrated_corpus : DataFrame := [pD].

Definition unrated_self : Recommender :=
  {| problems_df := Some unrated_corpus;
     tfidf_vectorizer := Some ex_vectorizer;
     problem_vectors := None; user_vectors := ∅; last_update := 0 |}.

(** C10 at the failing input: every rating of [unrated_corpus] is the
    default after the fill the claim speaks of, yet the DataFrame has no
    [rating] column, [self.problems_df['rating']] raises [KeyError] and no
    matrix is produced. *)
Theorem unrated_corpus_raises_KeyError :
  constant_column 1500 rating unrated_corpus
  ∧ process_problem_features unrated_self
    = (Raise (KeyError "rating"), unrated_self)
  ∧ problem_vectors (process_problem_features unrated_self).2 = None.
Proof.
  split; [| split; reflexivity].
  intros p q Hp Hq.
  apply list_elem_of_singleton in Hp as ->.
  by apply list_elem_of_singleton in Hq as ->.
Qed.

(** * Missing ratings at filter time *)

Section MissingRating.
Context `{NumpySqrt} `{SortValues}.

(** C5 (as the code has it): feature composition fills missing ratings
    only in the values it scales and leaves the corpus as it was; every
    returned problem is a row of that corpus, and as soon as [min_rating]
    or [max_rating] is given no returned problem has a missing rating. *)
Theorem missing_rating_fails_rating_filters self0 disk user_handle n mn mx
    wanted rv rs recs r :
  (get_recommendations (process_problem_features self0).2 disk user_handle
     n mn mx wanted rv rs).1.1 = Ok recs →
  r ∈ recs →
  problems_df (process_problem_features self0).2 = problems_df self0
  ∧ (∃ df, problems_df self0 = Some df ∧ rec_problem r ∈ df)
  ∧ (is_Some mn ∨ is_Some mx → is_Some (rating (rec_problem r))).
Proof.
  pose proof (process_problem_features_corpus self0) as Hcorpus.
  destruct (get_recommendations _ _ _ _ _ _ _ _ _) as [[res self'] disk']
    eqn:Hget.
  simpl. intros -> Hr.
  apply get_recommendations_inv in Hget as [-> | (uv & rows & Hsame & Htop & ->)].
  { by apply elem_of_nil in Hr. }
  apply list_elem_of_fmap in Hr as (row & -> & Hrow).
  destruct (top_recommendations_elem _ _ _ _ _ _ _ _ _ Htop Hrow)
    as ((df & Hdf & Hin) & _ & _ & Hmn & Hmx & _).
  split; [done |]. split.
  - exists df. split; [congruence | done].
  - simpl. intros [[b Hb] | [b Hb]].
    + specialize (Hmn b Hb). unfold rating_ge in Hmn.
      by destruct (rating (problem row)).
    + specialize (Hmx b Hb). unfold rating_le in Hmx.
      by destruct (rating (problem row)).
Qed.
End MissingRating.

Lemma missing_rating_fails_rating_filters_example :
  ∃ recs,
    (get_recommendations (process_problem_features ex_fresh).2 ex_disk "alice"
       10 None (Some 3000) None (Some ex_status) (Some ex_status)).1.1
      = Ok recs
    ∧ rec_problem <$> recs = [pC; pB]
    ∧ Forall (λ r,
        problems_df (process_problem_features ex_fresh).2
          = problems_df ex_fresh
        ∧ (∃ df, problems_df ex_fresh = Some df ∧ rec_problem r ∈ df)
        ∧ (is_Some (@None Z) ∨ is_Some (Some 3000) →
           is_Some (rating (rec_problem r)))) recs.
Proof.
  eexists. split; [vm_compute; reflexivity |].
  split; [reflexivity |].
  apply Forall_forall. intros r Hr.
  eapply (missing_rating_fails_rating_filters ex_fresh ex_disk "alice" 10
            None (Some 3000) None (Some ex_status) (Some ex_status));
    [| exact Hr].
  vm_compute; reflexivity.
Defined.

(** C5 as stated fails: feature composition succeeds on [ex_corpus], 4_D
    still has no rating in the corpus the ranker filters, it is returned
    when no bound is given and dropped by [min_rating = 1000] although the
    default rating 1500 would pass. *)
Lemma missing_rating_reaches_filters :
  process_problem_features ex_fresh = (Ok true, ex_self)
  ∧ problems_df ex_self = Some ex_corpus
  ∧ pD ∈ ex_corpus ∧ rating pD = None
  ∧ (∃ recs,
       (get_recommendations ex_self ex_disk "alice" 10 None None None
          (Some ex_status) (Some ex_status)).1.1 = Ok recs
       ∧ rec_problem <$> recs = [pC; pB; pD])
  ∧ (∃ recs,
       (get_recommendations ex_self ex_disk "alice" 10 (Some 1000) None None
          (Some ex_status) (Some ex_status)).1.1 = Ok recs
       ∧ rec_problem <$> recs = [pC; pB]).
Proof.
  split; [vm_compute; reflexivity |].
  split; [reflexivity |].
  split; [apply list_elem_of_lookup; by exists 3%nat |].
  split; [reflexivity |].
  split; eexists; (split; [vm_compute; reflexivity | reflexivity]).
Qed.

(** * What the solved set contains *)

Lemma accepted_submissions_spec subs : ∀ acc,
  accepted_submissions subs = Ok acc →
  ∀ sub, sub ∈ acc ↔ sub ∈ subs ∧ verdict sub = Some "OK".
Proof.
  induction subs as [| s subs IH]; simpl; intros acc Hacc sub.
  - injection Hacc as <-. split; [intros Hs | intros [Hs _]];
      by apply elem_of_nil in Hs.
  - destruct (verdict s) as [v |] eqn:Hv; [| discriminate].
    destruct (accepted_submissions subs) as [acc' |]; simpl in Hacc;
      [| discriminate].
    injection Hacc as <-. specialize (IH acc' eq_refl sub).
    destruct (String.eqb v "OK") eqn:Hok.
    + apply String.eqb_eq in Hok as ->.
      rewrite !elem_of_cons, IH. split.
      * intros [-> | [Hin Hsub]]; [by split; [left |] | by split; [right |]].
      * intros [[-> | Hin] Hsub]; [by left | by right].
    + apply String.eqb_neq in Hok.
      rewrite elem_of_cons, IH. split.
      * intros [Hin Hsub]. by split; [right |].
      * intros [[-> | Hin] Hsub]; [congruence | done].
Qed.

Lemma solved_problem_ids_spec accepted : ∀ solved0 solved,
  solved_problem_ids accepted solved0 = Ok solved →
  ∀ id, id ∈ solved ↔
    id ∈ solved0 ∨
    ∃ sub c, sub ∈ accepted ∧ sub_contestId sub = Some c
             ∧ id = format_problem_id c (sub_index sub).
Proof.
  induction accepted as [| s accepted IH]; simpl; intros solved0 solved Hs id.
  - injection Hs as <-. split; [by left |].
    intros [Hin | (sub & c & Hsub & _)]; [done | by apply elem_of_nil in Hsub].
  - destruct (sub_contestId s) as [c |] eqn:Hc; [| discriminate].
    rewrite (IH _ _ Hs id), elem_of_union, elem_of_singleton. split.
    + intros [[-> | Hin] | (sub & c' & Hsub & Hc' & ->)].
      * right. exists s, c. split; [by left | done].
      * by left.
      * right. exists sub, c'. split; [by right | done].
    + intros [Hin | (sub & c' & Hsub & Hc' & ->)]; [left; by right |].
      apply elem_of_cons in Hsub as [-> | Hsub].
      * left. left. congruence.
      * right. by exists sub, c'.
Qed.

(** When the reply is read without error, the solved set is the set of the
    ids of the submissions whose verdict is OK. *)
Lemma solved_of_reply_spec data solved :
  solved_of_reply data = Ok solved →
  ∀ id, id ∈ solved ↔
    ∃ subs sub c,
      api_result data = ResultSubmissions subs ∧ sub ∈ subs
      ∧ verdict sub = Some "OK" ∧ sub_contestId sub = Some c
      ∧ id = format_problem_id c (sub_index sub).
Proof.
  unfold solved_of_reply, result_submissions.
  destruct (api_result data) as [| ? ? | subs]; simpl; try discriminate.
  destruct (accepted_submissions subs) as [acc |] eqn:Hacc; simpl;
    [| discriminate].
  intros Hs id. rewrite (solved_problem_ids_spec _ _ _ Hs id). split.
  - intros [Hin | (sub & c & Hsub & Hc & ->)]; [by apply elem_of_empty in Hin |].
    apply (accepted_submissions_spec _ _ Hacc) in Hsub as [Hsub Hv].
    by exists subs, sub, c.
  - intros (subs' & sub & c & [= <-] & Hsub & Hv & Hc & ->).
    right. exists sub, c. split; [| done].
    by apply (accepted_submissions_spec _ _ Hacc).
Qed.

(** * Reading the submissions *)

Lemma accepted_submissions_total subs :
  Forall (λ sub, is_Some (verdict sub)) subs →
  ∃ acc, accepted_submissions subs = Ok acc.
Proof.
  induction 1 as [| sub subs [v Hv] _ [acc IH]]; simpl; [by eexists |].
  rewrite Hv, IH. simpl. by eexists.
Qed.

Lemma accepted_submissions_missing_verdict subs sub :
  sub ∈ subs → verdict sub = None →
  accepted_submissions subs = Raise (KeyError "verdict").
Proof.
  induction subs as [| s subs IH]; intros Hin Hv; [by apply elem_of_nil in Hin |].
  simpl. apply elem_of_cons in Hin as [<- | Hin]; [by rewrite Hv |].
  destruct (verdict s); [| done]. by rewrite (IH Hin Hv).
Qed.

Lemma solved_problem_ids_total accepted : ∀ solved0,
  Forall (λ sub, is_Some (sub_contestId sub)) accepted →
  ∃ solved, solved_problem_ids accepted solved0 = Ok solved.
Proof.
  induction accepted as [| sub accepted IH]; intros solved0 Hall; simpl;
    [by eexists |].
  apply Forall_cons in Hall as [[c Hc] Hall]. rewrite Hc. by apply IH.
Qed.

Lemma solved_problem_ids_missing_contest accepted sub : ∀ solved0,
  sub ∈ accepted → sub_contestId sub = None →
  solved_problem_ids accepted solved0 = Raise (KeyError "contestId").
Proof.
  induction accepted as [| s accepted IH]; intros solved0 Hin Hc;
    [by apply elem_of_nil in Hin |].
  simpl. apply elem_of_cons in Hin as [<- | Hin]; [by rewrite Hc |].
  destruct (sub_contestId s); [by apply IH | done].
Qed.

(** X1: for a [user.status] reply with status OK in which every submission
    has a verdict and every accepted one a contest id, the set the ranker
    excludes is exactly the set of keys [contestId_index] of the submissions
    whose verdict is OK. *)
Theorem solved_set_is_accepted_ids data subs id :
  status data = "OK" →
  api_result data = ResultSubmissions subs →
  Forall (λ sub, is_Some (verdict sub)) subs →
  Forall (λ sub, verdict sub = Some "OK" → is_Some (sub_contestId sub)) subs →
  id ∈ solved_problems_of (Some data) ↔
    ∃ sub c, sub ∈ subs ∧ verdict sub = Some "OK"
             ∧ sub_contestId sub = Some c
             ∧ id = format_problem_id c (sub_index sub).
Proof.
  intros Hs Hres Hverdicts Hcontests.
  destruct (accepted_submissions_total subs Hverdicts) as [acc Hacc].
  destruct (solved_problem_ids_total acc ∅) as [solved Hsolved].
  { apply Forall_forall. intros sub Hsub.
    apply (accepted_submissions_spec _ _ Hacc) in Hsub as [Hsub Hv].
    by apply (proj1 (Forall_forall _ _) Hcontests). }
  assert (Hreply : solved_of_reply data = Ok solved).
  { unfold solved_of_reply, result_submissions. rewrite Hres. simpl.
    by rewrite Hacc. }
  unfold solved_problems_of. rewrite Hs. simpl. rewrite Hreply.
  rewrite (solved_of_reply_spec _ _ Hreply id). split.
  - intros (subs' & sub & c & Hr & Hrest). rewrite Hres in Hr.
    injection Hr as <-. by exists sub, c.
  - intros (sub & c & Hrest). by exists subs, sub, c.
Qed.

Lemma solved_set_is_accepted_ids_example :
  ("1_A" ∈ solved_problems_of (Some ex_status) ↔
     ∃ sub c, sub ∈ [ {| verdict := Some "OK"; sub_contestId := Some 1;
                         sub_index := "A" |};
                      {| verdict := Some "WRONG_ANSWER";
                         sub_contestId := Some 2; sub_index := "B" |} ]
              ∧ verdict sub = Some "OK" ∧ sub_contestId sub = Some c
              ∧ "1_A" = format_problem_id c (sub_index sub))
  ∧ "1_A" ∈ solved_problems_of (Some ex_status)
  ∧ "2_B" ∉ solved_problems_of (Some ex_status).
Proof.
  split; [| split].
  - apply (solved_set_is_accepted_ids ex_status _ "1_A" eq_refl eq_refl).
    + repeat constructor; by eexists.
    + repeat constructor; intros _; by eexists.
  - apply (bool_decide_unpack _). vm_compute. exact I.
  - apply (bool_decide_unpack _). vm_compute. exact I.
Defined.

(** X2: one submission without a verdict, or one accepted submission
    without a contest id, makes the reading of the whole reply raise:
    [get_recommendations] then excludes nothing and [create_user_vector]
    returns [None] without touching the recommender or the disk. *)
Theorem malformed_submission_disables_exclusion self disk user_handle data
    subs sub :
  status data = "OK" →
  api_result data = ResultSubmissions subs →
  sub ∈ subs →
  verdict sub = None ∨ (verdict sub = Some "OK" ∧ sub_contestId sub = None) →
  solved_problems_of (Some data) = ∅
  ∧ create_user_vector self disk user_handle (Some data) = (None, self, disk).
Proof.
  intros Hs Hres Hin Hbad.
  assert (Hraise : ∃ e, solved_of_reply data = Raise e).
  { unfold solved_of_reply, result_submissions. rewrite Hres. simpl.
    destruct (accepted_submissions subs) as [acc |] eqn:Hacc; simpl;
      [| by eexists].
    destruct Hbad as [Hv | [Hv Hc]].
    - rewrite (accepted_submissions_missing_verdict _ _ Hin Hv) in Hacc.
      discriminate.
    - assert (Hsub : sub ∈ acc)
        by (by apply (accepted_submissions_spec _ _ Hacc)).
      rewrite (solved_problem_ids_missing_contest _ _ _ Hsub Hc).
      by eexists. }
  destruct Hraise as [e He]. split.
  - unfold solved_problems_of. rewrite Hs. simpl. by rewrite He.
  - unfold create_user_vector. simpl. rewrite Hs. simpl. by rewrite He.
Qed.

(** A user with one accepted submission in the corpus and one accepted
    submission of a problem without contest id. *)
Definition ex_gym_status : ApiReply :=
  {| status := "OK";
     api_result := ResultSubmissions
       [ {| verdict := Some "OK"; sub_contestId := Some 1; sub_index := "A" |};
         {| verdict := Some "OK"; sub_contestId := None; sub_index := "C" |} ] |}.

Lemma malformed_submission_disables_exclusion_example :
  solved_problems_of (Some ex_gym_status) = ∅
  ∧ create_user_vector ex_self ex_disk "gina" (Some ex_gym_status)
    = (None, ex_self, ex_disk).
Proof.
  apply (malformed_submission_disables_exclusion ex_self ex_disk "gina"
           ex_gym_status _
           {| verdict := Some "OK"; sub_contestId := None; sub_index := "C" |}
           eq_refl eq_refl).
  - apply list_elem_of_lookup. by exists 1%nat.
  - right. by split.
Defined.

(** * The merge of problems and statistics *)

Lemma mapM_Forall2 {A B} (f : A → result B) xs : ∀ ys,
  mapM f xs = Ok ys → Forall2 (λ x y, f x = Ok y) xs ys.
Proof.
  induction xs as [| x xs IH]; simpl; intros ys Hm.
  - injection Hm as <-. constructor.
  - destruct (f x) as [y |] eqn:Hy; simpl in Hm; [| discriminate].
    destruct (mapM f xs) as [ys' |]; simpl in Hm; [| discriminate].
    injection Hm as <-. constructor; [done | by apply IH].
Qed.

Lemma mapM_total {A B} (f : A → result B) xs :
  Forall (λ x, ∃ y, f x = Ok y) xs → ∃ ys, mapM f xs = Ok ys.
Proof.
  induction 1 as [| x xs [y Hy] _ [ys IH]]; simpl; [by eexists |].
  rewrite Hy, IH. simpl. by eexists.
Qed.

Lemma mapM_raises {A B} (f : A → result B) xs x e :
  x ∈ xs → f x = Raise e → ∃ e', mapM f xs = Raise e'.
Proof.
  induction xs as [| a xs IH]; intros Hin Hx; [by apply elem_of_nil in Hin |].
  simpl. apply elem_of_cons in Hin as [<- | Hin].
  - rewrite Hx. by eexists.
  - destruct (f a); simpl; [| by eexists].
    destruct (IH Hin Hx) as [e' ->]. by eexists.
Qed.

(** The key of a statistics entry that has a contest id. *)
Definition stat_key (stat : ApiStatistics) : option string :=
  c ← stat_contestId stat; Some (format_problem_id c (stat_index stat)).

Definition api_problem_key (p : ApiProblem) : option string :=
  c ← api_contestId p; Some (format_problem_id c (api_index p)).

Lemma build_stats_dict_total stats : ∀ d0,
  Forall (λ stat, is_Some (stat_contestId stat)) stats →
  ∃ d, build_stats_dict stats d0 = Ok d.
Proof.
  induction stats as [| stat stats IH]; intros d0 Hall; simpl; [by eexists |].
  apply Forall_cons in Hall as [[c Hc] Hall]. rewrite Hc. by apply IH.
Qed.

Lemma build_stats_dict_raises stats stat : ∀ d0,
  stat ∈ stats → stat_contestId stat = None →
  ∃ e, build_stats_dict stats d0 = Raise e.
Proof.
  induction stats as [| s stats IH]; intros d0 Hin Hc;
    [by apply elem_of_nil in Hin |].
  simpl. apply elem_of_cons in Hin as [<- | Hin].
  - rewrite Hc. by eexists.
  - destruct (stat_contestId s); [by apply IH | by eexists].
Qed.

Lemma build_stats_dict_app l1 l2 : ∀ d0 d,
  build_stats_dict (l1 ++ l2) d0 = Ok d →
  ∃ d1, build_stats_dict l1 d0 = Ok d1 ∧ build_stats_dict l2 d1 = Ok d.
Proof.
  induction l1 as [| s l1 IH]; intros d0 d; simpl; [by eexists |].
  destruct (stat_contestId s); [apply IH | discriminate].
Qed.

Lemma build_stats_dict_other stats key : ∀ d0 d,
  build_stats_dict stats d0 = Ok d →
  (∀ stat, stat ∈ stats → stat_key stat ≠ Some key) →
  d !! key = d0 !! key.
Proof.
  induction stats as [| s stats IH]; intros d0 d; simpl.
  - by intros [= <-] _.
  - destruct (stat_contestId s) as [c |] eqn:Hc; [| discriminate].
    intros Hd Hno. rewrite (IH _ _ Hd).
    + apply lookup_insert_ne. intros Hk.
      apply (Hno s); [by left |]. unfold stat_key. rewrite Hc. simpl.
      by rewrite Hk.
    + intros stat Hstat. apply Hno. by right.
Qed.

(** The dictionary holds, for a key, the solved count of its last entry. *)
Lemma build_stats_dict_last before stat after key d :
  build_stats_dict (before ++ stat :: after) ∅ = Ok d →
  stat_key stat = Some key →
  (∀ s, s ∈ after → stat_key s ≠ Some key) →
  d !! key = Some (default 0 (stat_solvedCount stat)).
Proof.
  intros Hd Hkey Hafter.
  apply build_stats_dict_app in Hd as (d1 & _ & Hd). simpl in Hd.
  unfold stat_key in Hkey.
  destruct (stat_contestId stat) as [c |]; [| discriminate].
  simpl in Hkey. injection Hkey as Hkey.
  rewrite (build_stats_dict_other _ key _ _ Hd Hafter), Hkey.
  apply lookup_insert_eq.
Qed.

Lemma merged_problems_inv data rows :
  merged_problems data = Ok rows →
  ∃ ps stats d,
    api_result data = ResultProblemset ps stats
    ∧ build_stats_dict (default [] stats) ∅ = Ok d
    ∧ Forall2 (λ p row, add_solved_count d p = Ok row) ps rows.
Proof.
  unfold merged_problems.
  destruct (api_result data) as [| ps stats |]; try discriminate.
  destruct (build_stats_dict _ ∅) as [d |] eqn:Hd; simpl; [| discriminate].
  intros Hm. exists ps, stats, d. split; [done |]. split; [done |].
  by apply mapM_Forall2.
Qed.

Lemma add_solved_count_inv d p row :
  add_solved_count d p = Ok row →
  api_contestId p = Some (contestId row) ∧ index row = api_index p
  ∧ tags row = api_tags p ∧ rating row = api_rating p
  ∧ solvedCount row
    = Some (default 0
              (d !! format_problem_id (contestId row) (index row))).
Proof.
  unfold add_solved_count. destruct (api_contestId p) as [c |];
    [| discriminate].
  by intros [= <-].
Qed.

(** X3: a refresh that succeeds replaces the corpus in memory and the
    file by the same rows, one per problem of the reply and in the order of
    the reply, with the contest id, index, tags and rating of the reply and
    a solved count that is never missing; [last_update] becomes the current
    time and nothing else changes. *)
Theorem successful_refresh_replaces_corpus self disk data ps stats now :
  status data = "OK" →
  api_result data = ResultProblemset ps stats →
  Forall (λ p, is_Some (api_contestId p)) ps →
  Forall (λ stat, is_Some (stat_contestId stat)) (default [] stats) →
  writable disk = true →
  ∃ rows,
    fetch_problems self disk (Some data) now
    = (true,
       {| problems_df := Some rows;
          tfidf_vectorizer := tfidf_vectorizer self;
          problem_vectors := problem_vectors self;
          user_vectors := user_vectors self;
          last_update := now |},
       {| problems_file := Some rows;
          user_vectors_file := user_vectors_file disk;
          writable := true |})
    ∧ Forall2 (λ p row,
        api_contestId p = Some (contestId row) ∧ index row = api_index p
        ∧ tags row = api_tags p ∧ rating row = api_rating p
        ∧ is_Some (solvedCount row)) ps rows.
Proof.
  intros Hs Hres Hps Hstats Hw.
  destruct (build_stats_dict_total _ ∅ Hstats) as [d Hd].
  destruct (mapM_total (add_solved_count d) ps) as [rows Hrows].
  { eapply Forall_impl; [exact Hps |]. intros p [c Hc].
    unfold add_solved_count. rewrite Hc. by eexists. }
  exists rows. split.
  - unfold fetch_problems, merged_problems.
    rewrite Hs, Hres. simpl. rewrite Hd. simpl. rewrite Hrows, Hw. done.
  - apply mapM_Forall2 in Hrows.
    eapply Forall2_impl; [exact Hrows |]. intros p row Hrow.
    destruct (add_solved_count_inv _ _ _ Hrow) as (? & ? & ? & ? & Hsc).
    rewrite Hsc. repeat split; done.
Qed.

(** The reply of [problemset.problems] for three problems, with statistics
    for two of them, one of them twice. *)
Definition ex_problemset : ApiReply :=
  {| status := "OK";
     api_result := ResultProblemset
       [ {| api_contestId := Some 1; api_index := "A"; api_tags := ["math"];
            api_rating := Some 800 |};
         {| api_contestId := Some 2; api_index := "B"; api_tags := ["dp"];
            api_rating := None |};
         {| api_contestId := Some 3; api_index := "C"; api_tags := [];
            api_rating := Some 1600 |} ]
       (Some
         [ {| stat_contestId := Some 1; stat_index := "A";
              stat_solvedCount := Some 100 |};
           {| stat_contestId := Some 2; stat_index := "B";
              stat_solvedCount := Some 7 |};
           {| stat_contestId := Some 1; stat_index := "A";
              stat_solvedCount := Some 120 |} ]) |}.

Definition ex_refreshed : DataFrame :=
  [ {| contestId := 1; index := "A"; tags := ["math"]; rating := Some 800;
       solvedCount := Some 120 |};
    {| contestId := 2; index := "B"; tags := ["dp"]; rating := None;
       solvedCount := Some 7 |};
    {| contestId := 3; index := "C"; tags := []; rating := Some 1600;
       solvedCount := Some 0 |} ].

Lemma successful_refresh_replaces_corpus_example :
  ∃ rows,
    fetch_problems ex_self ex_disk (Some ex_problemset) 42
    = (true,
       {| problems_df := Some rows;
          tfidf_vectorizer := tfidf_vectorizer ex_self;
          problem_vectors := problem_vectors ex_self;
          user_vectors := user_vectors ex_self;
          last_update := 42 |},
       {| problems_file := Some rows;
          user_vectors_file := user_vectors_file ex_disk;
          writable := true |})
    ∧ rows = ex_refreshed.
Proof.
  destruct (successful_refresh_replaces_corpus ex_self ex_disk ex_problemset
              _ _ 42 eq_refl eq_refl) as (rows & Hfetch & _).
  - repeat constructor; by eexists.
  - repeat constructor; by eexists.
  - reflexivity.
  - exists rows. split; [exact Hfetch |].
    assert (Hrun : (fetch_problems ex_self ex_disk (Some ex_problemset) 42).2
                   = {| problems_file := Some ex_refreshed;
                        user_vectors_file := None; writable := true |})
      by (vm_compute; reflexivity).
    rewrite Hfetch in Hrun. simpl in Hrun. by injection Hrun.
Defined.

Lemma fetch_problems_true_inv self disk response now self' disk' :
  fetch_problems self disk response now = (true, self', disk') →
  ∃ data rows,
    response = Some data ∧ status data = "OK"
    ∧ merged_problems data = Ok rows
    ∧ problems_df self' = Some rows ∧ problems_file disk' = Some rows.
Proof.
  unfold fetch_problems. destruct response as [data |]; [| discriminate].
  destruct (String.eqb (status data) "OK") eqn:Hs; [| discriminate].
  apply String.eqb_eq in Hs.
  destruct (merged_problems data) as [rows |] eqn:Hm; [| discriminate].
  destruct (writable disk); [| discriminate].
  intros [= <- <-]. exists data, rows. by repeat split.
Qed.

(** X4: after a successful refresh the solved count of a problem is the
    [solvedCount] of the last statistics entry with the same key
    [contestId_index] (zero when that entry has none), and zero when no
    entry has the key. *)
Theorem solved_count_is_last_statistic self disk data ps stats now self' disk'
    rows row :
  fetch_problems self disk (Some data) now = (true, self', disk') →
  api_result data = ResultProblemset ps stats →
  problems_df self' = Some rows →
  row ∈ rows →
  ((∀ s, s ∈ default [] stats →
      stat_key s ≠ Some (format_problem_id (contestId row) (index row))) →
   solvedCount row = Some 0)
  ∧ (∀ before stat after,
       default [] stats = before ++ stat :: after →
       stat_key stat = Some (format_problem_id (contestId row) (index row)) →
       (∀ s, s ∈ after →
          stat_key s ≠ Some (format_problem_id (contestId row) (index row))) →
       solvedCount row = Some (default 0 (stat_solvedCount stat))).
Proof.
  intros Hfetch Hres Hdf Hrow.
  apply fetch_problems_true_inv in Hfetch
    as (data' & rows' & [= <-] & _ & Hmerged & Hdf' & _).
  rewrite Hdf in Hdf'. injection Hdf' as <-.
  apply merged_problems_inv in Hmerged as (ps' & stats' & d & Hres' & Hd & Hall).
  rewrite Hres in Hres'. injection Hres' as <- <-.
  assert (Hsc : solvedCount row
                = Some (default 0
                          (d !! format_problem_id (contestId row) (index row)))).
  { apply list_elem_of_lookup in Hrow as [i Hi].
    destruct (Forall2_lookup_r _ _ _ _ _ Hall Hi) as (p & _ & Hp).
    by destruct (add_solved_count_inv _ _ _ Hp) as (_ & _ & _ & _ & ?). }
  split.
  - intros Hno. rewrite Hsc, (build_stats_dict_other _ _ _ _ Hd Hno).
    by rewrite lookup_empty.
  - intros before stat after Hsplit Hkey Hafter. rewrite Hsplit in Hd.
    by rewrite Hsc, (build_stats_dict_last _ _ _ _ _ Hd Hkey Hafter).
Qed.

Lemma solved_count_is_last_statistic_example :
  ∃ self' disk' row,
    fetch_problems ex_self ex_disk (Some ex_problemset) 42 = (true, self', disk')
    ∧ problems_df self' = Some ex_refreshed
    ∧ ex_refreshed !! 0%nat = Some row
    ∧ solvedCount row = Some 120
    ∧ ((∀ s, s ∈ default [] (Some
               [ {| stat_contestId := Some 1; stat_index := "A";
                    stat_solvedCount := Some 100 |};
                 {| stat_contestId := Some 2; stat_index := "B";
                    stat_solvedCount := Some 7 |};
                 {| stat_contestId := Some 1; stat_index := "A";
                    stat_solvedCount := Some 120 |} ]) →
          stat_key s ≠ Some (format_problem_id (contestId row) (index row))) →
       solvedCount row = Some 0)
    ∧ (∀ before stat after,
         default [] (Some
               [ {| stat_contestId := Some 1; stat_index := "A";
                    stat_solvedCount := Some 100 |};
                 {| stat_contestId := Some 2; stat_index := "B";
                    stat_solvedCount := Some 7 |};
                 {| stat_contestId := Some 1; stat_index := "A";
                    stat_solvedCount := Some 120 |} ])
         = before ++ stat :: after →
         stat_key stat
         = Some (format_problem_id (contestId row) (index row)) →
         (∀ s, s ∈ after →
            stat_key s ≠ Some (format_problem_id (contestId row) (index row))) →
         solvedCount row = Some (default 0 (stat_solvedCount stat))).
Proof.
  eexists _, _, _. split; [vm_compute; reflexivity |].
  split; [reflexivity |]. split; [reflexivity |]. split; [reflexivity |].
  eapply (solved_count_is_last_statistic ex_self ex_disk ex_problemset _ _ 42).
  - vm_compute; reflexivity.
  - reflexivity.
  - reflexivity.
  - by left.
Defined.

(** X5: a reply in which one problem, or one statistics entry, has no
    contest id is rejected as a whole: [fetch_problems] returns [False] and
    neither the recommender nor the disk changes, whatever the other
    problems are. *)
Theorem refresh_is_all_or_nothing self disk data ps stats now :
  api_result data = ResultProblemset ps stats →
  (∃ p, p ∈ ps ∧ api_contestId p = None)
  ∨ (∃ stat, stat ∈ default [] stats ∧ stat_contestId stat = None) →
  fetch_problems self disk (Some data) now = (false, self, disk).
Proof.
  intros Hres Hbad. unfold fetch_problems.
  destruct (String.eqb (status data) "OK"); [| done].
  assert (Hraise : ∃ e, merged_problems data = Raise e).
  { unfold merged_problems. rewrite Hres.
    destruct Hbad as [(p & Hp & Hc) | (stat & Hstat & Hc)].
    - destruct (build_stats_dict _ ∅) as [d |]; simpl; [| by eexists].
      apply (mapM_raises _ _ p (KeyError "contestId") Hp).
      unfold add_solved_count. by rewrite Hc.
    - destruct (build_stats_dict_raises _ _ ∅ Hstat Hc) as [e ->].
      by eexists. }
  destruct Hraise as [e ->]. done.
Qed.

Definition ex_partial_problemset : ApiReply :=
  {| status := "OK";
     api_result := ResultProblemset
       [ {| api_contestId := Some 1; api_index := "A"; api_tags := ["math"];
            api_rating := Some 800 |};
         {| api_contestId := None; api_index := "B"; api_tags := ["dp"];
            api_rating := None |} ]
       None |}.

Lemma refresh_is_all_or_nothing_example :
  fetch_problems ex_self ex_disk (Some ex_partial_problemset) 42
  = (false, ex_self, ex_disk).
Proof.
  apply (refresh_is_all_or_nothing ex_self ex_disk ex_partial_problemset
           _ _ 42 eq_refl).
  left. eexists. split; [apply list_elem_of_lookup; by exists 1%nat | done].
Defined.

(** X6: whatever the reply, [fetch_problems] never touches the vectorizer,
    the feature matrix or the user vectors.  When it returns [True] the corpus
    in memory is the corpus in the file and [last_update] is the current time;
    when it returns [False] the file and [last_update] are as before, and the
    corpus in memory is as before unless the file could not be opened. *)
Theorem refresh_outcome_invariants self disk response now :
  let '(ok, self', disk') := fetch_problems self disk response now in
  tfidf_vectorizer self' = tfidf_vectorizer self
  ∧ problem_vectors self' = problem_vectors self
  ∧ user_vectors self' = user_vectors self
  ∧ user_vectors_file disk' = user_vectors_file disk
  ∧ if ok
    then (∃ rows, problems_df self' = Some rows
                  ∧ problems_file disk' = Some rows)
         ∧ last_update self' = now
    else disk' = disk ∧ last_update self' = last_update self
         ∧ (problems_df self' = problems_df self ∨ writable disk = false).
Proof.
  unfold fetch_problems. destruct response as [data |]; [| by auto 10].
  destruct (String.eqb (status data) "OK"); [| by auto 10].
  destruct (merged_problems data) as [rows |]; [| by auto 10].
  destruct (writable disk) eqn:Hw; simpl.
  - repeat split; try done. by exists rows.
  - by auto 10.
Qed.

(** * The shape of the feature matrix *)

Lemma MinMaxScaler_affine X scaled :
  MinMaxScaler_fit_transform X = Ok scaled →
  ∃ scale_ min_,
    (0 < scale_)%Q ∧ scaled = map (λ v, v * scale_ + min_)%Q X.
Proof.
  destruct X as [| x xs]; [discriminate |]. intros [= <-].
  set (mn := fold_left Qmin xs x). set (mx := fold_left Qmax xs x).
  exists ((1 - 0) / handle_zeros_in_scale (mx - mn))%Q,
         (0 - mn * ((1 - 0) / handle_zeros_in_scale (mx - mn)))%Q.
  split; [| done].
  assert (Hr : (mn <= mx)%Q).
  { eapply Qle_trans;
      [apply (fold_Qmin_le xs x x) | apply (fold_Qmax_ge xs x x)]; by left. }
  assert (Hh : (0 < handle_zeros_in_scale (mx - mn))%Q).
  { unfold handle_zeros_in_scale.
    destruct (Qeq_bool (mx - mn) 0) eqn:He; [reflexivity |].
    apply Qeq_bool_neq in He. lra. }
  apply Qlt_shift_div_l; [done | lra].
Qed.

Lemma hstack_lookup_Some tfidf ratings solved i t :
  length ratings = length tfidf → length solved = length tfidf →
  tfidf !! i = Some t →
  ∃ r s, ratings !! i = Some r ∧ solved !! i = Some s
         ∧ hstack tfidf ratings solved !! i = Some (t ++ [r; s]).
Proof.
  intros Hr Hs Ht.
  pose proof (hstack_length tfidf ratings solved _ eq_refl Hr Hs) as Hlen.
  destruct (lookup_lt_is_Some_2 (hstack tfidf ratings solved) i) as [row Hrow].
  { rewrite Hlen. by eapply lookup_lt_Some. }
  destruct (hstack_lookup _ _ _ _ _ Hrow) as (t' & r & s & Ht' & Hr' & Hs' & ->).
  rewrite Ht in Ht'. injection Ht' as <-. by exists r, s.
Qed.

(** What [process_problem_features] stores when it returns [True]. *)
Lemma process_problem_features_true self df vectorizer :
  problems_df self = Some df →
  tfidf_vectorizer self = Some vectorizer →
  (process_problem_features self).1 = Ok true →
  ∃ ratings_scaled solved_scaled,
    MinMaxScaler_fit_transform (fillna 1500 (map rating df)) = Ok ratings_scaled
    ∧ MinMaxScaler_fit_transform (fillna 0 (map solvedCount df))
      = Ok solved_scaled
    ∧ length ratings_scaled = length df
    ∧ length solved_scaled = length df
    ∧ (process_problem_features self).2
      = set_problem_vectors self
          (hstack (map (λ p, transform vectorizer (tags_text p)) df)
             ratings_scaled solved_scaled).
Proof.
  intros Hdf Hvec. unfold process_problem_features. rewrite Hdf, Hvec.
  destruct (compose_features df vectorizer) as [vectors |] eqn:Hc; simpl;
    [| discriminate].
  intros _.
  apply compose_features_inv in Hc as (rs & ss & Hrs & Hss & ->).
  exists rs, ss. split; [done |]. split; [done |].
  destruct (MinMaxScaler_affine _ _ Hrs) as (? & ? & _ & ->).
  destruct (MinMaxScaler_affine _ _ Hss) as (? & ? & _ & ->).
  unfold fillna. by rewrite !length_map.
Qed.

(** X7: when [process_problem_features] returns [True] the matrix has one
    row per problem, in the order of the corpus; the row of a problem is
    the TF-IDF vector of its tags joined by spaces, followed by exactly two
    entries (scaled rating, scaled solved count); so when the vectorizer
    gives vectors of one width, every row has that width plus two. *)
Theorem feature_matrix_shape self df vectorizer :
  problems_df self = Some df →
  tfidf_vectorizer self = Some vectorizer →
  (process_problem_features self).1 = Ok true →
  ∃ vectors,
    problem_vectors (process_problem_features self).2 = Some vectors
    ∧ length vectors = length df
    ∧ (∀ i p, df !! i = Some p →
         ∃ r s, vectors !! i
                = Some (transform vectorizer (tags_text p) ++ [r; s]))
    ∧ (∀ width, (∀ text, length (transform vectorizer text) = width) →
         Forall (λ row, length row = (width + 2)%nat) vectors).
Proof.
  intros Hdf Hvec Hok.
  destruct (process_problem_features_true _ _ _ Hdf Hvec Hok)
    as (rs & ss & _ & _ & Hrlen & Hslen & ->).
  set (tfidf := map (λ p, transform vectorizer (tags_text p)) df).
  assert (Htlen : length tfidf = length df) by (unfold tfidf; by rewrite length_map).
  exists (hstack tfidf rs ss). split; [done |].
  split; [apply hstack_length; congruence |].
  split.
  - intros i p Hp.
    destruct (hstack_lookup_Some tfidf rs ss i
                (transform vectorizer (tags_text p)))
      as (r & s & _ & _ & Hrow); [congruence | congruence | |].
    + unfold tfidf, DataFrame in *. by rewrite list_lookup_fmap, Hp.
    + by exists r, s.
  - intros width Hwidth. apply Forall_forall. intros row Hrow.
    apply list_elem_of_lookup in Hrow as [i Hrow].
    apply hstack_lookup in Hrow as (t & r & s & Ht & _ & _ & ->).
    unfold tfidf in Ht. apply list_lookup_fmap_Some in Ht as (p & -> & _).
    rewrite length_app, Hwidth. simpl. lia.
Qed.

Lemma ex_vectorizer_width text : length (transform ex_vectorizer text) = 2%nat.
Proof.
  simpl. by repeat (destruct (String.eqb text _); [done |]).
Qed.

Lemma feature_matrix_shape_example :
  ∃ vectors,
    problem_vectors (process_problem_features ex_fresh).2 = Some vectors
    ∧ length vectors = 4%nat
    ∧ (∀ i p, ex_corpus !! i = Some p →
         ∃ r s, vectors !! i
                = Some (transform ex_vectorizer (tags_text p) ++ [r; s]))
    ∧ (∀ width, (∀ text, length (transform ex_vectorizer text) = width) →
         Forall (λ row, length row = (width + 2)%nat) vectors)
    ∧ Forall (λ row, length row = 4%nat) vectors.
Proof.
  destruct (feature_matrix_shape ex_fresh ex_corpus ex_vectorizer
              eq_refl eq_refl) as (vectors & Hv & Hlen & Hrows & Hwidth).
  { vm_compute; reflexivity. }
  exists vectors. split; [exact Hv |]. split; [exact Hlen |].
  split; [exact Hrows |]. split; [exact Hwidth |].
  apply (Hwidth 2%nat ex_vectorizer_width).
Defined.

(** X8: with a corpus and a vectorizer present, [process_problem_features]
    returns [True] exactly when some problem carries a rating and some
    problem a solved count; otherwise (an empty corpus included) it raises a
    [KeyError] and leaves the recommender as it was, the old feature matrix
    included. *)
Theorem feature_composition_needs_both_columns self df vectorizer :
  problems_df self = Some df →
  tfidf_vectorizer self = Some vectorizer →
  ((∃ p, p ∈ df ∧ is_Some (rating p)) ∧ (∃ q, q ∈ df ∧ is_Some (solvedCount q))
   ∧ (process_problem_features self).1 = Ok true)
  ∨ (¬ ((∃ p, p ∈ df ∧ is_Some (rating p))
        ∧ (∃ q, q ∈ df ∧ is_Some (solvedCount q)))
     ∧ ∃ key, process_problem_features self = (Raise (KeyError key), self)).
Proof.
  intros Hdf Hvec. unfold process_problem_features, compose_features.
  rewrite Hdf, Hvec.
  assert (Hcol : ∀ {A} key (column : Problem → option A),
            (getitem key column df = Ok (map column df)
             ∧ ∃ p, p ∈ df ∧ is_Some (column p))
            ∨ (getitem key column df = Raise (KeyError key)
               ∧ ¬ ∃ p, p ∈ df ∧ is_Some (column p))).
  { intros A key column. unfold getitem.
    destruct (existsb _ df) eqn:He.
    - left. split; [done |].
      apply existsb_exists in He as (p & Hp & Hsome).
      exists p. split; [by apply list_elem_of_In |].
      by apply bool_decide_eq_true in Hsome.
    - right. split; [done |]. intros (p & Hp & Hsome).
      assert (existsb (λ p, bool_decide (is_Some (column p))) df = true);
        [| congruence].
      apply existsb_exists. exists p.
      split; [by apply list_elem_of_In | by apply bool_decide_eq_true]. }
  destruct (decide (df = [])) as [-> | Hne].
  { right. split; [| by exists "tags"].
    intros [(p & Hp & _) _]. by apply elem_of_nil in Hp. }
  rewrite bool_decide_eq_false_2 by done. simpl.
  destruct (Hcol Z "rating" rating) as [[-> Hr] | [-> Hr]]; simpl;
    [| right; split; [tauto | by eexists]].
  destruct (MinMaxScaler_ok (fillna 1500 (map rating df))) as (rs & -> & _).
  { unfold fillna. rewrite map_map. by destruct df. }
  simpl.
  destruct (Hcol Z "solvedCount" solvedCount) as [[-> Hs] | [-> Hs]]; simpl;
    [| right; split; [tauto | by eexists]].
  destruct (MinMaxScaler_ok (fillna 0 (map solvedCount df))) as (ss & -> & _).
  { unfold fillna. rewrite map_map. by destruct df. }
  simpl. left. done.
Qed.

Lemma feature_composition_needs_both_columns_example :
  (process_problem_features ex_fresh).1 = Ok true
  ∧ process_problem_features unrated_self
    = (Raise (KeyError "rating"), unrated_self)
  ∧ ∃ key,
      process_problem_features
        {| problems_df := Some []; tfidf_vectorizer := Some ex_vectorizer;
           problem_vectors := Some [[1; 0; 0; 0]%Q]; user_vectors := ∅;
           last_update := 0 |}
      = (Raise (KeyError key),
         {| problems_df := Some []; tfidf_vectorizer := Some ex_vectorizer;
            problem_vectors := Some [[1; 0; 0; 0]%Q]; user_vectors := ∅;
            last_update := 0 |}).
Proof.
  split; [vm_compute; reflexivity |]. split; [reflexivity |].
  destruct (feature_composition_needs_both_columns
              {| problems_df := Some []; tfidf_vectorizer := Some ex_vectorizer;
                 problem_vectors := Some [[1; 0; 0; 0]%Q]; user_vectors := ∅;
                 last_update := 0 |} [] ex_vectorizer eq_refl eq_refl)
    as [(_ & _ & Hok) | [_ Hraise]]; [discriminate Hok | exact Hraise].
Defined.

Lemma fillna_lookup value (column : Problem → option Z) (df : list Problem)
    i p :
  df !! i = Some p →
  fillna value (map column df) !! i
  = Some (inject_Z (default value (column p))).
Proof.
  intros Hp. unfold fillna. rewrite map_map.
  by rewrite list_lookup_fmap, Hp.
Qed.

Lemma affine_order (scale_ min_ : Q) (a b : Z) :
  (0 < scale_)%Q →
  (a ≤ b → (inject_Z a * scale_ + min_ <= inject_Z b * scale_ + min_)%Q)
  ∧ (a < b → (inject_Z a * scale_ + min_ < inject_Z b * scale_ + min_)%Q).
Proof.
  intros Hs. split.
  - intros Hab. rewrite Zle_Qle in Hab.
    apply Qplus_le_l, Qmult_le_compat_r; [done | lra].
  - intros Hab. rewrite Zlt_Qlt in Hab.
    apply Qplus_lt_l, Qmult_lt_compat_r; done.
Qed.

Lemma last_two_inj (t t' : list Q) r s r' s' :
  t ++ [r; s] = t' ++ [r'; s'] → r = r' ∧ s = s'.
Proof.
  intros Heq. apply app_inj_2 in Heq as [_ [= -> ->]]; done.
Qed.

(** X9: the scaling keeps the order of the corpus.  In the matrix that
    [process_problem_features] stores, a problem whose rating (1500 when
    missing) is lower than that of another problem has a lower scaled
    rating, strictly when the ratings differ, and likewise for the solved
    counts (zero when missing). *)
Theorem scaling_preserves_order self (df : list Problem) vectorizer vectors
    i j p q ti ri si tj rj sj :
  problems_df self = Some df →
  tfidf_vectorizer self = Some vectorizer →
  (process_problem_features self).1 = Ok true →
  problem_vectors (process_problem_features self).2 = Some vectors →
  df !! i = Some p → df !! j = Some q →
  vectors !! i = Some (ti ++ [ri; si]) →
  vectors !! j = Some (tj ++ [rj; sj]) →
  (default 1500 (rating p) ≤ default 1500 (rating q) → (ri <= rj)%Q)
  ∧ (default 1500 (rating p) < default 1500 (rating q) → (ri < rj)%Q)
  ∧ (default 0 (solvedCount p) ≤ default 0 (solvedCount q) → (si <= sj)%Q)
  ∧ (default 0 (solvedCount p) < default 0 (solvedCount q) → (si < sj)%Q).
Proof.
  intros Hdf Hvec Hok Hvectors Hp Hq Hi Hj.
  destruct (process_problem_features_true _ _ _ Hdf Hvec Hok)
    as (rs & ss & Hrs & Hss & _ & _ & Hstate).
  rewrite Hstate in Hvectors. simpl in Hvectors. injection Hvectors as <-.
  apply hstack_lookup in Hi as (? & r1 & s1 & _ & Hr1 & Hs1 & Hrow1).
  apply hstack_lookup in Hj as (? & r2 & s2 & _ & Hr2 & Hs2 & Hrow2).
  apply last_two_inj in Hrow1 as [-> ->].
  apply last_two_inj in Hrow2 as [-> ->].
  destruct (MinMaxScaler_affine _ _ Hrs) as (a & b & Ha & ->).
  destruct (MinMaxScaler_affine _ _ Hss) as (c & d & Hc & ->).
  rewrite list_lookup_fmap, (fillna_lookup _ _ _ _ _ Hp) in Hr1.
  rewrite list_lookup_fmap, (fillna_lookup _ _ _ _ _ Hp) in Hs1.
  rewrite list_lookup_fmap, (fillna_lookup _ _ _ _ _ Hq) in Hr2.
  rewrite list_lookup_fmap, (fillna_lookup _ _ _ _ _ Hq) in Hs2.
  simpl in Hr1, Hs1, Hr2, Hs2.
  injection Hr1 as <-. injection Hs1 as <-.
  injection Hr2 as <-. injection Hs2 as <-.
  destruct (affine_order a b (default 1500 (rating p))
              (default 1500 (rating q)) Ha).
  destruct (affine_order c d (default 0 (solvedCount p))
              (default 0 (solvedCount q)) Hc).
  done.
Qed.

(** On the example: 1_A (800, solved 100) against 4_D (no rating, solved
    10): the missing rating counts as 1500. *)
Lemma scaling_preserves_order_example :
  problem_vectors (process_problem_features ex_fresh).2
  = Some [ [1; 0; 0 # 640000; 8100 # 8100];
           [0; 1; 320000 # 640000; 3600 # 8100];
           [1 # 2; 1 # 2; 640000 # 640000; 900 # 8100];
           [0; 0; 560000 # 640000; 0 # 8100] ]%Q
  ∧ (0 # 640000 < 560000 # 640000)%Q
  ∧ (0 # 8100 <= 8100 # 8100)%Q.
Proof.
  assert (Hv : problem_vectors (process_problem_features ex_fresh).2
               = Some [ [1; 0; 0 # 640000; 8100 # 8100];
                        [0; 1; 320000 # 640000; 3600 # 8100];
                        [1 # 2; 1 # 2; 640000 # 640000; 900 # 8100];
                        [0; 0; 560000 # 640000; 0 # 8100] ]%Q)
    by (vm_compute; reflexivity).
  assert (Hok : (process_problem_features ex_fresh).1 = Ok true)
    by (vm_compute; reflexivity).
  split; [exact Hv |].
  destruct (scaling_preserves_order ex_fresh ex_corpus ex_vectorizer _
              0%nat 3%nat pA pD [1; 0]%Q (0 # 640000)%Q (8100 # 8100)%Q
              [0; 0]%Q (560000 # 640000)%Q (0 # 8100)%Q
              eq_refl eq_refl Hok Hv eq_refl eq_refl eq_refl eq_refl)
    as (_ & Hrating & _ & _).
  destruct (scaling_preserves_order ex_fresh ex_corpus ex_vectorizer _
              3%nat 0%nat pD pA [0; 0]%Q (560000 # 640000)%Q (0 # 8100)%Q
              [1; 0]%Q (0 # 640000)%Q (8100 # 8100)%Q
              eq_refl eq_refl Hok Hv eq_refl eq_refl eq_refl eq_refl)
    as (_ & _ & Hsolved & _).
  split; [apply Hrating; simpl; lia | apply Hsolved; simpl; lia].
Defined.

(** * The user vector: cache, file and solved rows *)

Lemma create_user_vector_Some_inv self disk user_handle response v self' disk' :
  create_user_vector self disk user_handle response = (Some v, self', disk') →
  writable disk = true
  ∧ self' = set_user_vector self user_handle v
  ∧ disk' = {| problems_file := problems_file disk;
               user_vectors_file :=
                 Some (<[user_handle := VecList v]> (user_vectors self));
               writable := writable disk |}
  ∧ ∃ data solved,
      response = Some data ∧ status data = "OK"
      ∧ solved_of_reply data = Ok solved
      ∧ user_vector_of self solved = Ok v.
Proof.
  unfold create_user_vector. destruct response as [data |]; simpl;
    [| discriminate].
  destruct (String.eqb (status data) "OK") eqn:Hs; simpl; [| discriminate].
  apply String.eqb_eq in Hs.
  destruct (solved_of_reply data) as [solved |] eqn:Hsolved; simpl;
    [| discriminate].
  destruct (user_vector_of self solved) as [u |] eqn:Hu; simpl;
    [| discriminate].
  destruct (writable disk); [| discriminate].
  intros [= <- <- <-]. repeat split. by exists data, solved.
Qed.

(** X10: when [create_user_vector] returns a vector, that vector is what
    the dictionary now holds for the handle (replacing whatever was there),
    the entries of the other handles are untouched, the whole dictionary is
    what the file now holds, and the corpus, the vectorizer and the feature
    matrix are as before. *)
Theorem created_vector_is_cached_and_persisted self disk user_handle response
    v self' disk' :
  create_user_vector self disk user_handle response = (Some v, self', disk') →
  user_vectors self' !! user_handle = Some (VecList v)
  ∧ (∀ other, other ≠ user_handle →
       user_vectors self' !! other = user_vectors self !! other)
  ∧ user_vectors_file disk' = Some (user_vectors self')
  ∧ problems_df self' = problems_df self
  ∧ tfidf_vectorizer self' = tfidf_vectorizer self
  ∧ problem_vectors self' = problem_vectors self
  ∧ problems_file disk' = problems_file disk.
Proof.
  intros Hc.
  apply create_user_vector_Some_inv in Hc as (_ & -> & -> & _). simpl.
  split; [apply lookup_insert_eq |].
  split; [intros other Hne; by apply lookup_insert_ne |].
  done.
Qed.

Lemma created_vector_is_cached_and_persisted_example :
  ∃ v self' disk',
    create_user_vector ex_self ex_disk "alice" (Some ex_status)
    = (Some v, self', disk')
    ∧ user_vectors self' !! "alice" = Some (VecList v)
    ∧ user_vectors_file disk' = Some (user_vectors self')
    ∧ problem_vectors self' = problem_vectors ex_self.
Proof.
  assert (Hrun : ∃ v self' disk',
            create_user_vector ex_self ex_disk "alice" (Some ex_status)
            = (Some v, self', disk')).
  { eexists _, _, _. vm_compute; reflexivity. }
  destruct Hrun as (v & self' & disk' & Hrun).
  destruct (created_vector_is_cached_and_persisted ex_self ex_disk "alice"
              (Some ex_status) v self' disk' Hrun)
    as (Hcache & _ & Hfile & _ & _ & Hvec & _).
  exists v, self', disk'.
  split; [exact Hrun |]. split; [exact Hcache |].
  split; [exact Hfile | exact Hvec].
Defined.





(** * The ranking as a whole *)

Lemma List_filter_sublist {A} (f : A → bool) (l : list A) :
  List.filter f l `sublist_of` l.
Proof.
  induction l as [| x l IH]; simpl; [constructor |].
  destruct (f x); by constructor.
Qed.

Lemma filter_rating_sublist df keep bound rows rows' :
  filter_rating df keep bound rows = Ok rows' → rows' `sublist_of` rows.
Proof.
  unfold filter_rating. destruct bound as [b |]; [| by intros [= <-]].
  destruct (getitem "rating" rating df); simpl; [| discriminate].
  intros [= <-]. apply List_filter_sublist.
Qed.

Lemma filter_tags_sublist wanted rows : filter_tags wanted rows `sublist_of` rows.
Proof.
  unfold filter_tags. destruct wanted; [apply List_filter_sublist | done].
Qed.

Lemma scored_rows_labels df : ∀ k scores,
  label <$> scored_rows k df scores
  = seq k (length df `min` length scores).
Proof.
  induction df as [| p df IH]; intros k [| s scores]; simpl; try done.
  f_equal. apply IH.
Qed.

Lemma scored_rows_row df : ∀ k scores r,
  r ∈ scored_rows k df scores →
  ∃ i, label r = (k + i)%nat ∧ df !! i = Some (problem r)
       ∧ scores !! i = Some (similarity r).
Proof.
  induction df as [| p df IH]; intros k [| s scores] r; simpl;
    try (intros Hr; by apply elem_of_nil in Hr).
  intros Hr. apply elem_of_cons in Hr as [-> | Hr].
  - exists 0%nat. simpl. split; [lia | done].
  - destruct (IH _ _ _ Hr) as (i & Hl & Hp & Hs).
    exists (S i). simpl. split; [lia | done].
Qed.

Lemma head_fmap {A B} (f : A → B) n (l : list A) :
  f <$> head n l = head n (f <$> l).
Proof. unfold head. rewrite length_fmap. destruct (n <? 0); apply fmap_take. Qed.

Lemma head_length {A} n (l : list A) :
  length (head n l)
  = if n <? 0 then (length l - Z.to_nat (- n))%nat
    else (Z.to_nat n `min` length l)%nat.
Proof.
  unfold head. destruct (n <? 0); rewrite length_take; lia.
Qed.

Lemma head_all {A} n (l : list A) : Z.of_nat (length l) ≤ n → head n l = l.
Proof.
  intros Hn. unfold head.
  destruct (n <? 0) eqn:Hneg; [apply Z.ltb_lt in Hneg; lia |].
  apply take_ge. lia.
Qed.

Section Ranking.
Context `{NumpySqrt} `{SortValues}.

Lemma cosine_similarity_single v Y m :
  cosine_similarity [v] Y = Ok m → ∃ scores, m = [scores].
Proof.
  unfold cosine_similarity.
  destruct (check_pairwise_arrays _ _); simpl; [| discriminate].
  intros [= <-]. by eexists.
Qed.

(** The ranking does not depend on the count: [top_recommendations] is
    [head] of one sorted list of rows kept from the scored corpus. *)
Lemma top_recommendations_inv self user_vector solved n mn mx wanted rows :
  top_recommendations self user_vector solved n mn mx wanted = Ok rows →
  ∃ (df : list Problem) scores kept,
    problems_df self = Some df
    ∧ cosine_similarity [user_vector] (problem_vectors self) = Ok [scores]
    ∧ length scores = length df
    ∧ kept `sublist_of` scored_rows 0 df scores
    ∧ ∀ n', top_recommendations self user_vector solved n' mn mx wanted
            = Ok (head n' (sort_values kept)).
Proof.
  unfold top_recommendations.
  destruct (cosine_similarity _ _) as [m |] eqn:Hcos; simpl; [| discriminate].
  destruct (cosine_similarity_single _ _ _ Hcos) as [scores ->]. simpl.
  destruct (problems_df self) as [df |]; simpl; [| discriminate].
  destruct (bool_decide (df = [])); simpl; [discriminate |].
  destruct (bool_decide (length scores = length df)) eqn:Hlen; simpl;
    [| discriminate].
  apply bool_decide_eq_true in Hlen.
  destruct (filter_rating df rating_ge mn _) as [rows1 |] eqn:H1; simpl;
    [| discriminate].
  destruct (filter_rating df rating_le mx rows1) as [rows2 |] eqn:H2; simpl;
    [| discriminate].
  intros _. exists df, scores, (filter_tags wanted rows2).
  split; [done |]. split; [done |]. split; [done |]. split; [| done].
  etrans; [apply filter_tags_sublist |].
  etrans; [by eapply filter_rating_sublist |].
  etrans; [by eapply filter_rating_sublist |].
  apply List_filter_sublist.
Qed.

(** X12: the count only cuts the ranking.  For given state, filters and
    replies there is one list [full], no longer than the corpus, such that
    every count [n] returns [head n full]: the first [n] entries when
    [n >= 0] (all of them when [n] reaches the size of the corpus), and all
    but the last [-n] when [n] is negative. *)
Theorem count_only_cuts_the_ranking self disk user_handle n mn mx wanted rv rs
    recs :
  (get_recommendations self disk user_handle n mn mx wanted rv rs).1.1
    = Ok recs →
  ∃ full,
    recs = head n full
    ∧ (∀ n', (get_recommendations self disk user_handle n' mn mx wanted
                rv rs).1.1 = Ok (head n' full))
    ∧ (∀ df, problems_df self = Some df → (length full ≤ length df)%nat)
    ∧ length recs
      = (if n <? 0 then (length full - Z.to_nat (- n))%nat
         else (Z.to_nat n `min` length full)%nat).
Proof.
  unfold get_recommendations.
  set (obtained := match user_vectors self !! user_handle with
                   | Some (VecList v) => (Some v, self, disk)
                   | _ => create_user_vector self disk user_handle rv
                   end).
  assert (Hdf : problems_df (obtained.1.2) = problems_df self).
  { unfold obtained.
    assert (Hc : problems_df ((create_user_vector self disk user_handle rv).1.2)
                 = problems_df self).
    { unfold create_user_vector.
      destruct (bind _ _) as [[v |] |]; simpl; [| done | done].
      by destruct (writable disk). }
    destruct (user_vectors self !! user_handle) as [[v |] |]; done. }
  destruct obtained as [[vector self1] disk1]. simpl in Hdf.
  destruct vector as [user_vector |]; simpl.
  - destruct (top_recommendations _ _ _ n _ _ _) as [rows |] eqn:Htop; simpl;
      [| discriminate].
    intros [= <-].
    destruct (top_recommendations_inv _ _ _ _ _ _ _ _ Htop)
      as (df & scores & kept & Hdf1 & _ & Hlen & Hsub & Hall).
    rewrite Hall in Htop. injection Htop as <-.
    exists (to_record <$> sort_values kept).
    split; [apply head_fmap |]. split; [| split].
    + intros n'. rewrite Hall. simpl. f_equal. apply head_fmap.
    + intros df' Hdf'. rewrite Hdf1 in Hdf. rewrite Hdf' in Hdf.
      injection Hdf as ->. rewrite length_fmap, sort_values_perm.
      etrans; [by apply sublist_length |].
      rewrite <- (length_fmap label), scored_rows_labels, length_seq. lia.
    + rewrite length_map, length_fmap. apply head_length.
  - assert (Hnil : ∀ k, head k (@nil Recommendation) = [])
      by (intros k; unfold head; destruct (k <? 0); apply take_nil).
    intros [= <-]. exists []. split; [by rewrite Hnil |].
    split; [intros n'; by rewrite Hnil |]. split; [simpl; lia |].
    simpl. destruct (n <? 0); lia.
Qed.

(** X13: every returned record is a row of the corpus with the cosine
    similarity of that row to the user vector and the key of its problem,
    and no row is returned twice. *)
Theorem recommendations_are_scored_corpus_rows self disk user_handle n mn mx
    wanted rv rs recs self' disk' :
  get_recommendations self disk user_handle n mn mx wanted rv rs
    = (Ok recs, self', disk') →
  recs ≠ [] →
  ∃ (df : list Problem) user_vector scores labels,
    problems_df self = Some df
    ∧ (user_vectors self !! user_handle = Some (VecList user_vector)
       ∨ (create_user_vector self disk user_handle rv).1.1 = Some user_vector)
    ∧ cosine_similarity [user_vector] (problem_vectors self) = Ok [scores]
    ∧ length scores = length df
    ∧ NoDup labels
    ∧ Forall2 (λ i r,
        ∃ p s, df !! i = Some p ∧ scores !! i = Some s
               ∧ r = {| rec_problem := p; rec_similarity := s;
                        rec_problem_id :=
                          format_problem_id (contestId p) (index p) |})
        labels recs.
Proof.
  unfold get_recommendations.
  set (obtained := match user_vectors self !! user_handle with
                   | Some (VecList v) => (Some v, self, disk)
                   | _ => create_user_vector self disk user_handle rv
                   end).
  assert (Hsame : problems_df (obtained.1.2) = problems_df self
                  ∧ problem_vectors (obtained.1.2) = problem_vectors self
                  ∧ ∀ v, obtained.1.1 = Some v →
                      user_vectors self !! user_handle = Some (VecList v)
                      ∨ (create_user_vector self disk user_handle rv).1.1
                        = Some v).
  { unfold obtained.
    assert (Hc : problems_df ((create_user_vector self disk user_handle rv).1.2)
                 = problems_df self
                 ∧ problem_vectors
                     ((create_user_vector self disk user_handle rv).1.2)
                   = problem_vectors self).
    { unfold create_user_vector.
      destruct (bind _ _) as [[v |] |]; simpl; [| done | done].
      by destruct (writable disk). }
    destruct Hc as [Hc1 Hc2].
    destruct (user_vectors self !! user_handle) as [[v |] |];
      (split; [done | split; [done |]]); intros u Hu; try by right.
    left. simpl in Hu. by injection Hu as ->. }
  destruct obtained as [[vector self1] disk1]. simpl in Hsame.
  destruct Hsame as (Hdf & Hvec & Hsrc).
  destruct vector as [user_vector |]; simpl; [| by intros [= <- <- <-]].
  destruct (top_recommendations _ _ _ n _ _ _) as [rows |] eqn:Htop; simpl;
    [| discriminate].
  intros [= <- <- <-] _.
  destruct (top_recommendations_inv _ _ _ _ _ _ _ _ Htop)
    as (df & scores & kept & Hdf1 & Hcos & Hlen & Hsub & Hall).
  rewrite Hall in Htop. injection Htop as <-.
  exists df, user_vector, scores, (label <$> head n (sort_values kept)).
  split; [congruence |]. split; [by apply Hsrc |].
  split; [congruence |]. split; [done |].
  assert (Hnd : NoDup (label <$> sort_values kept)).
  { rewrite sort_values_perm.
    eapply sublist_NoDup; [| by apply fmap_sublist].
    rewrite scored_rows_labels. apply NoDup_seq. }
  split.
  - destruct (head_prefix n (sort_values kept)) as [rest Hrest].
    rewrite Hrest, fmap_app in Hnd. by apply NoDup_app in Hnd as [? _].
  - apply Forall2_fmap, Forall_Forall2_diag, Forall_forall.
    intros r Hr. apply elem_of_head in Hr.
    rewrite sort_values_perm in Hr.
    assert (Hr' : r ∈ scored_rows 0 df scores)
      by (eapply elem_of_sublist; [exact Hr | exact Hsub]).
    destruct (scored_rows_row _ _ _ _ Hr') as (i & Hl & Hp & Hs).
    destruct (scored_rows_elem _ _ _ _ Hr') as [Hid _].
    exists (problem r), (similarity r). simpl in Hl. rewrite Hl.
    split; [done |]. split; [done |].
    unfold to_record. by rewrite Hid.
Qed.

(** X14: an empty list of tags (as opposed to no tags) filters every
    problem out: whatever else is asked, the returned list is empty. *)
Theorem empty_tag_list_returns_nothing self disk user_handle n mn mx rv rs
    recs :
  (get_recommendations self disk user_handle n mn mx (Some []) rv rs).1.1
    = Ok recs →
  recs = [].
Proof.
  destruct (get_recommendations _ _ _ _ _ _ _ _ _) as [[res self'] disk']
    eqn:Hget.
  simpl. intros ->.
  apply get_recommendations_inv in Hget as [-> | (uv & rows & _ & Htop & ->)];
    [done |].
  destruct rows as [| r rows]; [done |].
  destruct (top_recommendations_elem _ _ _ _ _ _ _ _ r Htop)
    as (_ & _ & _ & _ & _ & Htags); [by left |].
  by specialize (Htags [] eq_refl).
Qed.
End Ranking.

Lemma count_only_cuts_the_ranking_example :
  ∃ full,
    rec_problem_id <$> full = ["3_C"; "2_B"; "4_D"]
    ∧ (get_recommendations ex_self ex_disk "alice" 2 None None None
         (Some ex_status) (Some ex_status)).1.1 = Ok (head 2 full)
    ∧ rec_problem_id <$> head 2 full = ["3_C"; "2_B"]
    ∧ (get_recommendations ex_self ex_disk "alice" (-1) None None None
         (Some ex_status) (Some ex_status)).1.1 = Ok (head (-1) full)
    ∧ rec_problem_id <$> head (-1) full = ["3_C"; "2_B"]
    ∧ (get_recommendations ex_self ex_disk "alice" 0 None None None
         (Some ex_status) (Some ex_status)).1.1 = Ok [].
Proof.
  assert (Hrun : ∃ recs,
            (get_recommendations ex_self ex_disk "alice" 10 None None None
               (Some ex_status) (Some ex_status)).1.1 = Ok recs
            ∧ rec_problem_id <$> recs = ["3_C"; "2_B"; "4_D"]).
  { eexists. split; [vm_compute; reflexivity | reflexivity]. }
  destruct Hrun as (recs & Hrun & Hids).
  destruct (count_only_cuts_the_ranking ex_self ex_disk "alice" 10 None None
              None (Some ex_status) (Some ex_status) recs Hrun)
    as (full & Hrecs & Hall & Hlen & _).
  assert (Hfull : head 10 full = full).
  { apply head_all. specialize (Hlen ex_corpus eq_refl). simpl in Hlen. lia. }
  rewrite Hfull in Hrecs. subst recs.
  exists full. split; [exact Hids |].
  split; [apply Hall |].
  split; [by rewrite head_fmap, Hids |].
  split; [apply Hall |].
  split; [by rewrite head_fmap, Hids |].
  by rewrite Hall.
Defined.

Lemma recommendations_are_scored_corpus_rows_example :
  ∃ recs self' disk' (df : list Problem) user_vector scores labels,
    get_recommendations ex_self ex_disk "alice" 2 None None None
      (Some ex_status) (Some ex_status) = (Ok recs, self', disk')
    ∧ length recs = 2%nat
    ∧ problems_df ex_self = Some df
    ∧ (user_vectors ex_self !! "alice" = Some (VecList user_vector)
       ∨ (create_user_vector ex_self ex_disk "alice" (Some ex_status)).1.1
         = Some user_vector)
    ∧ cosine_similarity [user_vector] (problem_vectors ex_self) = Ok [scores]
    ∧ length scores = length df
    ∧ NoDup labels
    ∧ Forall2 (λ i r,
        ∃ p s, df !! i = Some p ∧ scores !! i = Some s
               ∧ r = {| rec_problem := p; rec_similarity := s;
                        rec_problem_id :=
                          format_problem_id (contestId p) (index p) |})
        labels recs.
Proof.
  assert (Hrun : ∃ recs self' disk',
            get_recommendations ex_self ex_disk "alice" 2 None None None
              (Some ex_status) (Some ex_status) = (Ok recs, self', disk')
            ∧ length recs = 2%nat).
  { eexists _, _, _. split; [vm_compute; reflexivity | reflexivity]. }
  destruct Hrun as (recs & self' & disk' & Hrun & Hlen).
  destruct (recommendations_are_scored_corpus_rows ex_self ex_disk "alice" 2
              None None None (Some ex_status) (Some ex_status) recs self' disk'
              Hrun)
    as (df & v & scores & labels & Hrest).
  { intros ->. discriminate Hlen. }
  exists recs, self', disk', df, v, scores, labels.
  exact (conj Hrun (conj Hlen Hrest)).
Defined.

Lemma empty_tag_list_returns_nothing_example :
  ∃ recs,
    (get_recommendations ex_self ex_disk "alice" 10 None None (Some [])
       (Some ex_status) (Some ex_status)).1.1 = Ok recs
    ∧ recs = [].
Proof.
  assert (Hrun : ∃ recs,
            (get_recommendations ex_self ex_disk "alice" 10 None None (Some [])
               (Some ex_status) (Some ex_status)).1.1 = Ok recs).
  { eexists. vm_compute; reflexivity. }
  destruct Hrun as (recs & Hrun).
  exists recs. split; [exact Hrun |].
  apply (empty_tag_list_returns_nothing ex_self ex_disk "alice" 10 None None
           (Some ex_status) (Some ex_status) recs Hrun).
Defined.

(** * A cached vector *)

Section CachedVector.
Context `{NumpySqrt} `{SortValues}.

Lemma get_recommendations_cached self disk user_handle n mn mx wanted rv rs v :
  user_vectors self !! user_handle = Some (VecList v) →
  get_recommendations self disk user_handle n mn mx wanted rv rs
  = (rows ←! top_recommendations self v (solved_problems_of rs) n mn mx wanted;
     Ok (map to_record rows),
     self, disk).
Proof. intros Hv. unfold get_recommendations. by rewrite Hv. Qed.

(** X15: a profile is computed once.  When a first request for a handle
    without cached list obtains a vector from [create_user_vector], that
    request ranks with it, and every later request for the handle ranks
    with the same vector, whatever its count and filters and whatever the
    two replies then are (the user may have solved other problems since);
    the recommender and the disk stay as the first request left them.  Only
    the solved set follows the reply of the later request. *)
Theorem profile_is_computed_once self disk user_handle n mn mx wanted rv rs
    n2 mn2 mx2 wanted2 rv2 rs2 v self1 disk1 :
  (∀ u, user_vectors self !! user_handle ≠ Some (VecList u)) →
  create_user_vector self disk user_handle rv = (Some v, self1, disk1) →
  get_recommendations self disk user_handle n mn mx wanted rv rs
  = (rows ←! top_recommendations self1 v (solved_problems_of rs)
               n mn mx wanted;
     Ok (map to_record rows),
     self1, disk1)
  ∧ get_recommendations self1 disk1 user_handle n2 mn2 mx2 wanted2 rv2 rs2
    = (rows ←! top_recommendations self1 v (solved_problems_of rs2)
                 n2 mn2 mx2 wanted2;
       Ok (map to_record rows),
       self1, disk1).
Proof.
  intros Hcache Hc. split.
  - unfold get_recommendations.
    destruct (user_vectors self !! user_handle) as [[u |] |];
      [by destruct (Hcache u) | |]; by rewrite Hc.
  - apply get_recommendations_cached.
    apply create_user_vector_Some_inv in Hc as (_ & -> & _).
    simpl. apply lookup_insert_eq.
Qed.

(** X16: when the file of user vectors cannot be opened, a first request
    for a handle without cached list computes the vector, keeps it in the
    dictionary and still returns the empty list; the same request made again
    is then served from the dictionary with that vector. *)
Theorem unwritable_vector_file_serves_second_request self disk user_handle
    n mn mx wanted data rs rv2 rs2 solved v :
  (∀ u, user_vectors self !! user_handle ≠ Some (VecList u)) →
  status data = "OK" →
  solved_of_reply data = Ok solved →
  user_vector_of self solved = Ok v →
  writable disk = false →
  get_recommendations self disk user_handle n mn mx wanted (Some data) rs
  = (Ok [], set_user_vector self user_handle v, disk)
  ∧ get_recommendations (set_user_vector self user_handle v) disk user_handle
      n mn mx wanted rv2 rs2
    = (rows ←! top_recommendations (set_user_vector self user_handle v) v
                 (solved_problems_of rs2) n mn mx wanted;
       Ok (map to_record rows),
       set_user_vector self user_handle v, disk).
Proof.
  intros Hcache Hs Hsolved Hv Hw.
  assert (Hc : create_user_vector self disk user_handle (Some data)
               = (None, set_user_vector self user_handle v, disk)).
  { unfold create_user_vector. simpl. rewrite Hs. simpl. rewrite Hsolved.
    simpl. rewrite Hv. simpl. by rewrite Hw. }
  split.
  - unfold get_recommendations.
    destruct (user_vectors self !! user_handle) as [[u |] |];
      [by destruct (Hcache u) | |]; by rewrite Hc.
  - apply get_recommendations_cached. simpl. apply lookup_insert_eq.
Qed.

Lemma check_pairwise_arrays_width v (vectors : list (list Q)) row :
  row ∈ vectors → length row ≠ length v →
  check_pairwise_arrays [v] vectors = Raise ValueError.
Proof.
  intros Hrow Hlen. unfold check_pairwise_arrays.
  destruct vectors as [| r rows]; [done |].
  destruct (bool_decide (length v = 0%nat)); [done |].
  destruct (forallb _ _) eqn:Hall; [| done].
  rewrite forallb_forall in Hall.
  specialize (Hall row). rewrite bool_decide_eq_true in Hall.
  destruct Hlen. apply Hall. apply list_elem_of_In.
  apply elem_of_app. by right.
Qed.

(** X17: a cached vector whose width is not the width of some row of the
    feature matrix (a vector stored for another vectorizer) makes
    [get_recommendations] raise [ValueError]; nothing catches it and the
    state is unchanged. *)
Theorem cached_vector_of_other_width_raises self disk user_handle n mn mx
    wanted rv rs v vectors row :
  user_vectors self !! user_handle = Some (VecList v) →
  problem_vectors self = Some vectors →
  row ∈ vectors → length row ≠ length v →
  get_recommendations self disk user_handle n mn mx wanted rv rs
  = (Raise ValueError, self, disk).
Proof.
  intros Hv Hvec Hrow Hlen.
  rewrite (get_recommendations_cached _ _ _ _ _ _ _ _ _ _ Hv).
  unfold top_recommendations, cosine_similarity. rewrite Hvec. simpl default.
  by rewrite (check_pairwise_arrays_width _ _ _ Hrow Hlen).
Qed.

(** X18: a feature matrix that does not have as many rows as the corpus
    (a corpus replaced without recomposing the features) makes every ranked
    request raise [ValueError], whatever the filters. *)
Theorem stale_feature_matrix_raises self disk user_handle n mn mx wanted rv rs
    v vectors (df : list Problem) :
  user_vectors self !! user_handle = Some (VecList v) →
  problem_vectors self = Some vectors →
  v ≠ [] → vectors ≠ [] →
  Forall (λ row, length row = length v) vectors →
  problems_df self = Some df →
  df ≠ [] →
  length vectors ≠ length df →
  get_recommendations self disk user_handle n mn mx wanted rv rs
  = (Raise ValueError, self, disk).
Proof.
  intros Hv Hvec Hvne Hmne Hwidth Hdf Hdne Hlen.
  rewrite (get_recommendations_cached _ _ _ _ _ _ _ _ _ _ Hv).
  unfold top_recommendations, cosine_similarity. rewrite Hvec. simpl default.
  rewrite (check_pairwise_arrays_ok _ _ Hvne Hmne Hwidth). simpl.
  rewrite Hdf. simpl.
  rewrite (bool_decide_eq_false_2 _ Hdne).
  rewrite bool_decide_eq_false_2; [done |].
  by rewrite length_map.
Qed.
End CachedVector.

(** * Line 210: the similarity scores *)

Lemma fold_vadd_length rs : ∀ r w,
  length r = w → Forall (λ row, length row = w) rs →
  length (fold_left vadd rs r) = w.
Proof.
  induction rs as [| x rs IH]; intros r w Hr Hrs; simpl; [done |].
  apply Forall_cons in Hrs as [Hx Hrs]. apply IH; [| done].
  unfold vadd. rewrite length_zip_with. lia.
Qed.

Lemma np_mean_length (m : list (list Q)) w :
  m ≠ [] → Forall (λ row, length row = w) m → length (np_mean m) = w.
Proof.
  destruct m as [| r rs]; [done |]. intros _ Hm.
  apply Forall_cons in Hm as [Hr Hrs].
  unfold np_mean. rewrite length_map. by apply fold_vadd_length.
Qed.

(** A vector computed from a matrix has the width of the matrix. *)
Lemma user_vector_of_length self solved v vectors w :
  problem_vectors self = Some vectors → vectors ≠ [] →
  Forall (λ row, length row = w) vectors →
  user_vector_of self solved = Ok v → length v = w.
Proof.
  intros Hvec Hne Hrect. unfold user_vector_of, mean_of_all. rewrite Hvec.
  assert (Hall : Ok (np_mean vectors) = Ok v → length v = w).
  { intros [= <-]. by apply np_mean_length. }
  case_bool_decide; [done |].
  destruct (problems_df self) as [df |]; [| done].
  case_bool_decide as Hidx; [done |].
  destruct (take_rows vectors (problem_indices df solved)) as [rows |] eqn:Hrows;
    simpl; [| done].
  intros [= <-]. apply np_mean_length.
  - intros ->. apply mapM_length in Hrows.
    by destruct (problem_indices df solved).
  - apply mapM_Forall2 in Hrows. clear Hidx Hall.
    induction Hrows as [| i row indices rows Hi _ IH]; [constructor |].
    constructor; [| done].
    destruct (vectors !! i) as [row' |] eqn:Hrow; [| done].
    injection Hi as ->.
    apply list_elem_of_lookup_2 in Hrow.
    by apply (proj1 (Forall_forall _ _) Hrect).
Qed.

(** A corpus with a problem whose features are all zero: no word of the
    vocabulary, the lowest rating and the lowest solved count. *)
Definition pZ : Problem :=
  {| contestId := 5; index := "E"; tags := ["greedy"];
     rating := Some 800; solvedCount := Some 10 |}.

Definition zero_corpus : DataFrame := [pA; pZ].

Definition zero_self : Recommender :=
  (process_problem_features
     {| problems_df := Some zero_corpus;
        tfidf_vectorizer := Some ex_vectorizer;
        problem_vectors := None; user_vectors := ∅; last_update := 0 |}).2.

(** The submissions of a user who solved 5_E only. *)
Definition zero_status : ApiReply :=
  {| status := "OK";
     api_result := ResultSubmissions
       [ {| verdict := Some "OK"; sub_contestId := Some 5;
            sub_index := "E" |} ] |}.

(** A list of three entries cached for carol, the matrix of [ex_self] having
    four columns. *)
Definition stale_self : Recommender :=
  set_user_vector ex_self "carol" [1; 0; 0]%Q.

Section SimilarityScores.
Context `{NumpySqrt} `{SortValues}.

(** C8 (as the code has it): lines 202-210 on a feature matrix with at
    least one row whose rows have one width [w > 0] (a two-dimensional
    array).  A list cached for the handle with another number of entries
    makes [cosine_similarity] raise [ValueError], which
    [get_recommendations] lets through.  When the list cached for the
    handle, if there is one, has [w] entries, the user vector that is
    obtained, cached or computed by [create_user_vector], has the width of
    the matrix and [cosine_similarity] returns one score per row: it does
    not raise, whatever the norms.  Neither norm is zero once
    [handle_zeros_in_scale] has replaced a zero norm by 1, so the division
    is defined; the score times the product of the two norms is the dot
    product; and a user vector or a row of zero norm has the score zero. *)
Theorem cosine_similarity_zero_norm self disk user_handle vectors w :
  problem_vectors self = Some vectors →
  vectors ≠ [] → (0 < w)%nat →
  Forall (λ row, length row = w) vectors →
  (∀ v n mn mx wanted rv rs,
     user_vectors self !! user_handle = Some (VecList v) → length v ≠ w →
     cosine_similarity [v] (problem_vectors self) = Raise ValueError
     ∧ get_recommendations self disk user_handle n mn mx wanted rv rs
       = (Raise ValueError, self, disk))
  ∧ (∀ response_vector user_vector self' disk',
       (∀ v, user_vectors self !! user_handle = Some (VecList v) →
             length v = w) →
       match user_vectors self !! user_handle with
       | Some (VecList v) => (Some v, self, disk)
       | _ => create_user_vector self disk user_handle response_vector
       end = (Some user_vector, self', disk') →
       ∃ scores,
         cosine_similarity [user_vector] (problem_vectors self') = Ok [scores]
         ∧ length scores = length vectors
         ∧ ∀ j row s, vectors !! j = Some row → scores !! j = Some s →
             ¬ (handle_zeros_in_scale (row_norm user_vector) == 0)%Q
             ∧ ¬ (handle_zeros_in_scale (row_norm row) == 0)%Q
             ∧ (s * (handle_zeros_in_scale (row_norm user_vector)
                     * handle_zeros_in_scale (row_norm row))
                == dot user_vector row)%Q
             ∧ ((row_norm user_vector == 0)%Q ∨ (row_norm row == 0)%Q →
                (s == 0)%Q)).
Proof.
  intros Hvec Hne Hw Hrect. split.
  { intros v n mn mx wanted rv rs Hv Hlen.
    assert (Hcheck : check_pairwise_arrays [v] vectors = Raise ValueError).
    { destruct vectors as [| row rows]; [done |].
      apply (check_pairwise_arrays_width v (row :: rows) row);
        [by left |].
      apply Forall_cons in Hrect as [Hrow _]. congruence. }
    assert (Hcos : cosine_similarity [v] (problem_vectors self)
                   = Raise ValueError).
    { unfold cosine_similarity. rewrite Hvec. simpl default.
      by rewrite Hcheck. }
    split; [exact Hcos |].
    rewrite (get_recommendations_cached _ _ _ _ _ _ _ _ _ _ Hv).
    unfold top_recommendations. by rewrite Hcos. }
  intros response_vector user_vector self' disk' Hcached Hobtained.
  assert (Hshape : length user_vector = w
                   ∧ problem_vectors self' = Some vectors).
  { destruct (user_vectors self !! user_handle) as [[v |] |] eqn:Hlookup.
    - injection Hobtained as -> <- _. split; [by apply Hcached | done].
    - apply create_user_vector_Some_inv in Hobtained
        as (_ & -> & _ & data & solved & _ & _ & _ & Huv).
      split; [by eapply user_vector_of_length | done].
    - apply create_user_vector_Some_inv in Hobtained
        as (_ & -> & _ & data & solved & _ & _ & _ & Huv).
      split; [by eapply user_vector_of_length | done]. }
  destruct Hshape as [Hlen Hvec'].
  exists (map (λ y, dot (normalize user_vector) (normalize y)) vectors).
  split.
  { rewrite Hvec'. unfold cosine_similarity. simpl default.
    rewrite check_pairwise_arrays_ok; [done | | done |].
    - intros ->. simpl in Hlen. lia.
    - eapply Forall_impl; [exact Hrect |]. intros row Hrow. simpl. congruence. }
  split; [by rewrite length_map |].
  intros j row s Hrow Hs.
  rewrite list_lookup_fmap, Hrow in Hs. simpl in Hs. injection Hs as <-.
  split; [apply handle_zeros_in_scale_nonzero |].
  split; [apply handle_zeros_in_scale_nonzero |].
  split; [apply dot_normalize |].
  intros [Hn | Hn].
  - apply dot_zero_l, normalize_all_zero, zero_norm_all_zero, Hn.
  - apply dot_zero_r, normalize_all_zero, zero_norm_all_zero, Hn.
Qed.
End SimilarityScores.

(** C8 on the example: the user solved 5_E, whose features are all zero, so
    the user vector has zero norm; the scores of both rows are zero. *)
Lemma cosine_similarity_zero_norm_example :
  ∃ user_vector self' disk' scores,
    create_user_vector zero_self ex_disk "zed" (Some zero_status)
    = (Some user_vector, self', disk')
    ∧ problem_vectors zero_self
      = Some [[1; 0; 0; 8100 # 8100]; [0; 0; 0; 0 # 8100]]%Q
    ∧ Forall2 Qeq user_vector [0; 0; 0; 0]%Q
    ∧ (row_norm user_vector == 0)%Q
    ∧ cosine_similarity [user_vector] (problem_vectors self') = Ok [scores]
    ∧ length scores = 2%nat
    ∧ Forall (λ s, s == 0)%Q scores.
Proof.
  assert (Hrun : ∃ user_vector self' disk',
            create_user_vector zero_self ex_disk "zed" (Some zero_status)
            = (Some user_vector, self', disk')
            ∧ user_vector = [0; 0; 0; 0 # 8100]%Q).
  { eexists _, _, _. split; [vm_compute; reflexivity | reflexivity]. }
  destruct Hrun as (user_vector & self' & disk' & Hrun & Hv).
  assert (Hnorm : (row_norm user_vector == 0)%Q) by (by rewrite Hv).
  destruct (cosine_similarity_zero_norm zero_self ex_disk "zed"
              [[1; 0; 0; 8100 # 8100]; [0; 0; 0; 0 # 8100]]%Q 4)
    as [_ Hscores].
  - reflexivity.
  - done.
  - lia.
  - by repeat constructor.
  - destruct (Hscores (Some zero_status) user_vector self' disk')
      as (scores & Hok & Hlen & Hrows).
    + intros v Hcached. discriminate Hcached.
    + exact Hrun.
    + exists user_vector, self', disk', scores.
      split; [exact Hrun |]. split; [reflexivity |].
      split; [rewrite Hv; by repeat constructor |].
      split; [exact Hnorm |]. split; [exact Hok |]. split; [exact Hlen |].
      destruct scores as [| s0 [| s1 [| s2 scores]]]; try discriminate Hlen.
      constructor; [| constructor; [| constructor]].
      * by apply (Hrows 0%nat [1; 0; 0; 8100 # 8100]%Q s0 eq_refl eq_refl);
          left.
      * by apply (Hrows 1%nat [0; 0; 0; 0 # 8100]%Q s1 eq_refl eq_refl); left.
Defined.

(** C8 as stated fails: with a list of three entries cached for the handle
    and a feature matrix of four columns, [cosine_similarity] raises
    [ValueError] at line 210 and nothing in [get_recommendations] catches
    it. *)
Lemma cosine_similarity_raises_on_stale_vector :
  process_problem_features ex_fresh = (Ok true, ex_self)
  ∧ user_vectors stale_self !! "carol" = Some (VecList [1; 0; 0]%Q)
  ∧ problem_vectors stale_self = problem_vectors ex_self
  ∧ (∃ vectors, problem_vectors stale_self = Some vectors
                ∧ Forall (λ row, length row = 4%nat) vectors)
  ∧ cosine_similarity [[1; 0; 0]%Q] (problem_vectors stale_self)
    = Raise ValueError
  ∧ get_recommendations stale_self ex_disk "carol" 10 None None None
      (Some ex_status) (Some ex_status)
    = (Raise ValueError, stale_self, ex_disk).
Proof.
  split; [vm_compute; reflexivity |].
  split; [apply lookup_insert_eq |].
  split; [reflexivity |].
  split; [eexists; split; [reflexivity | by repeat constructor] |].
  split; vm_compute; reflexivity.
Qed.


(** A recommender that holds a vector for alice, with a matrix of the width
    of that vector. *)
Definition ex_matrix : list (list Q) :=
  [ [1; 0; 0; 1]; [0; 1; 1 # 2; 1 # 2]; [1 # 2; 1 # 2; 1; 0]; [0; 0; 1; 0] ]%Q.

Definition ex_cached (vectors : list (list Q)) (v : list Q) : Recommender :=
  {| problems_df := Some ex_corpus; tfidf_vectorizer := Some ex_vectorizer;
     problem_vectors := Some vectors;
     user_vectors := <["alice" := VecList v]> ∅; last_update := 0 |}.

(** Alice has solved 3_C as well by the time of her second request. *)
Definition ex_status_later : ApiReply :=
  {| status := "OK";
     api_result := ResultSubmissions
       [ {| verdict := Some "OK"; sub_contestId := Some 1; sub_index := "A" |};
         {| verdict := Some "OK"; sub_contestId := Some 3;
            sub_index := "C" |} ] |}.

Lemma profile_is_computed_once_example :
  ∃ v later self1 disk1,
    create_user_vector ex_self ex_disk "alice" (Some ex_status)
    = (Some v, self1, disk1)
    ∧ (create_user_vector ex_self ex_disk "alice" (Some ex_status_later)).1.1
      = Some later
    ∧ v ≠ later
    ∧ get_recommendations self1 disk1 "alice" 10 None None None
        (Some ex_status_later) (Some ex_status_later)
      = (rows ←! top_recommendations self1 v
                   (solved_problems_of (Some ex_status_later)) 10
                   None None None;
         Ok (map to_record rows),
         self1, disk1).
Proof.
  assert (Hrun : ∃ v later self1 disk1 a b,
            create_user_vector ex_self ex_disk "alice" (Some ex_status)
            = (Some v, self1, disk1)
            ∧ (create_user_vector ex_self ex_disk "alice"
                 (Some ex_status_later)).1.1 = Some later
            ∧ v !! 1%nat = Some a ∧ later !! 1%nat = Some b
            ∧ Qeq_bool a b = false).
  { eexists _, _, _, _, _, _. split; [vm_compute; reflexivity |].
    split; [vm_compute; reflexivity |].
    split; [reflexivity |]. split; reflexivity. }
  destruct Hrun as (v & later & self1 & disk1 & a & b & Hrun & Hlater
                    & Ha & Hb & Hab).
  destruct (profile_is_computed_once ex_self ex_disk "alice" 10 None None None
              (Some ex_status) (Some ex_status) 10 None None None
              (Some ex_status_later) (Some ex_status_later) v self1 disk1)
    as [_ Hsecond].
  - intros u Hu. discriminate Hu.
  - exact Hrun.
  - exists v, later, self1, disk1.
    split; [exact Hrun |]. split; [exact Hlater |].
    split; [| exact Hsecond].
    intros Heq. rewrite Heq, Hb in Ha. injection Ha as <-.
    rewrite Qeq_bool_refl in Hab. discriminate Hab.
Defined.

Definition ex_readonly : Disk :=
  {| problems_file := Some ex_corpus; user_vectors_file := None;
     writable := false |}.

Lemma unwritable_vector_file_serves_second_request_example :
  ∃ v,
    user_vector_of ex_self {["1_A"]} = Ok v
    ∧ get_recommendations ex_self ex_readonly "alice" 10 None None None
        (Some ex_status) (Some ex_status)
      = (Ok [], set_user_vector ex_self "alice" v, ex_readonly)
    ∧ ∃ recs,
        get_recommendations (set_user_vector ex_self "alice" v) ex_readonly
          "alice" 10 None None None None (Some ex_status)
        = (Ok recs, set_user_vector ex_self "alice" v, ex_readonly)
        ∧ rec_problem_id <$> recs = ["3_C"; "2_B"; "4_D"].
Proof.
  assert (Hv : ∃ v, user_vector_of ex_self {["1_A"]} = Ok v)
    by (eexists; vm_compute; reflexivity).
  destruct Hv as [v Hv]. exists v. split; [exact Hv |].
  assert (Hcache : ∀ u, user_vectors ex_self !! "alice" ≠ Some (VecList u))
    by (intros u; vm_compute; discriminate).
  assert (Hsolved : solved_of_reply ex_status = Ok {["1_A"]})
    by (vm_compute; reflexivity).
  destruct (unwritable_vector_file_serves_second_request ex_self ex_readonly
              "alice" 10 None None None ex_status (Some ex_status) None
              (Some ex_status) {["1_A"]} v Hcache eq_refl Hsolved Hv eq_refl)
    as [Hfirst Hsecond].
  split; [exact Hfirst |].
  rewrite Hsecond.
  assert (Hrank : ∃ rows,
            top_recommendations (set_user_vector ex_self "alice" v) v
              (solved_problems_of (Some ex_status)) 10 None None None
            = Ok rows
            ∧ problem_id <$> rows = ["3_C"; "2_B"; "4_D"]).
  { assert (Hv' : user_vector_of ex_self {["1_A"]}
                  = Ok [1 / 1; 0 / 1; (0 # 640000) / 1; (8100 # 8100) / 1]%Q)
      by (vm_compute; reflexivity).
    rewrite Hv in Hv'. injection Hv' as ->.
    eexists. split; [vm_compute; reflexivity | reflexivity]. }
  destruct Hrank as (rows & -> & Hids). simpl.
  eexists. split; [reflexivity |].
  rewrite <- Hids. rewrite <- !list_fmap_compose. reflexivity.
Defined.

Lemma cached_vector_of_other_width_raises_example :
  get_recommendations (ex_cached ex_matrix [1; 0; 0]%Q) ex_disk "alice" 10
    None None None None (Some ex_status)
  = (Raise ValueError, ex_cached ex_matrix [1; 0; 0]%Q, ex_disk).
Proof.
  apply (cached_vector_of_other_width_raises
           (ex_cached ex_matrix [1; 0; 0]%Q) ex_disk "alice" 10 None None None
           None (Some ex_status) [1; 0; 0]%Q ex_matrix [1; 0; 0; 1]%Q
           (lookup_insert_eq _ _ _) eq_refl).
  - by left.
  - simpl. lia.
Defined.

Lemma stale_feature_matrix_raises_example :
  get_recommendations (ex_cached [[1; 0; 0; 1]%Q] [1; 0; 0; 1]%Q) ex_disk
    "alice" 10 None None None None (Some ex_status)
  = (Raise ValueError, ex_cached [[1; 0; 0; 1]%Q] [1; 0; 0; 1]%Q, ex_disk).
Proof.
  apply (stale_feature_matrix_raises
           (ex_cached [[1; 0; 0; 1]%Q] [1; 0; 0; 1]%Q) ex_disk "alice" 10
           None None None None (Some ex_status) [1; 0; 0; 1]%Q
           [[1; 0; 0; 1]%Q] ex_corpus (lookup_insert_eq _ _ _) eq_refl).
  - done.
  - done.
  - by repeat constructor.
  - reflexivity.
  - done.
  - simpl. lia.
Defined.

(** * The [/refresh] endpoint, the constructor and the vectorizer *)

(** What a view returns: the JSON body (its two strings) and the status
    code.  An exception raised in the view is the [Raise] of the result. *)
Record HttpResponse := {
  body_status : string;
  body_message : string;
  code : Z
}.

(** [refresh()]: the return value of [process_problem_features] is not
    looked at. *)
Definition refresh (self : Recommender) (disk : Disk) (response : HttpOutcome)
    (now : Z) : result HttpResponse * Recommender * Disk :=
  let '(success, self1, disk1) := fetch_problems self disk response now in
  if success then
    let '(processed, self2) := process_problem_features self1 in
    (_ ←! processed;
     Ok {| body_status := "success";
           body_message := "Problem data refreshed"; code := 200 |},
     self2, disk1)
  else
    (Ok {| body_status := "error";
           body_message := "Failed to refresh problem data"; code := 500 |},
     self1, disk1).

(** [TfidfVectorizer(max_features=100).fit(texts)]: the fitted model, or the
    [ValueError] of an empty vocabulary. *)
Class TfidfFit := {
  tfidf_fit : list string → result TfidfVectorizer
}.

(** The files [initialize] looks at: those of [Disk], the modification time
    of [PROBLEMS_PATH] and the pickled vectorizer at [TFIDF_MODEL_PATH]. *)
Record Files := {
  disk : Disk;
  problems_mtime : Z;
  tfidf_file : option TfidfVectorizer
}.

Definition CACHE_TIME : Z := 3600.

Definition set_tfidf_vectorizer (self : Recommender)
    (vectorizer : TfidfVectorizer) : Recommender :=
  {| problems_df := problems_df self;
     tfidf_vectorizer := Some vectorizer;
     problem_vectors := problem_vectors self;
     user_vectors := user_vectors self;
     last_update := last_update self |}.

Section Constructor.
Context `{TfidfFit}.

(** [create_tfidf_vectorizer].  Its only caller is the constructor, which
    lets an exception escape: the object is then lost, the files stay. *)
Definition create_tfidf_vectorizer (self : Recommender) (files : Files)
    : result (bool * Recommender) * Files :=
  match problems_df self with
  | None => (Ok (false, self), files)
  | Some df =>
      (* the [tags] column exists when the DataFrame has a row *)
      if bool_decide (df = []) then (Ok (false, self), files)
      else
        match tfidf_fit (map tags_text df) with
        | Raise e => (Raise e, files)
        | Ok vectorizer =>
            if writable (disk files) then
              let files1 :=
                {| disk := disk files; problems_mtime := problems_mtime files;
                   tfidf_file := Some vectorizer |} in
              match process_problem_features
                      (set_tfidf_vectorizer self vectorizer) with
              | (Ok _, self1) => (Ok (true, self1), files1)
              | (Raise e, _) => (Raise e, files1)
              end
            else (Raise OSError, files)
        end
  end.

Definition set_user_vectors (self : Recommender)
    (vectors : gmap string CachedVector) : Recommender :=
  {| problems_df := problems_df self;
     tfidf_vectorizer := tfidf_vectorizer self;
     problem_vectors := problem_vectors self;
     user_vectors := vectors;
     last_update := last_update self |}.

Definition set_problems_df (self : Recommender) (df : DataFrame)
    : Recommender :=
  {| problems_df := Some df;
     tfidf_vectorizer := tfidf_vectorizer self;
     problem_vectors := problem_vectors self;
     user_vectors := user_vectors self;
     last_update := last_update self |}.

(** Lines 38-45 of [initialize]: the corpus from a file younger than
    [CACHE_TIME], from the API otherwise.  [now] is [time.time()], [response]
    answers the request of [fetch_problems] when it is made. *)
Definition load_problems (self : Recommender) (files : Files)
    (response : HttpOutcome) (now : Z) : Recommender * Files :=
  match problems_file (disk files),
        bool_decide (now - problems_mtime files < CACHE_TIME) with
  | Some problems_data, true => (set_problems_df self problems_data, files)
  | _, _ =>
      let '(success, s, d) := fetch_problems self (disk files) response now in
      (s, {| disk := d;
             (* a written file carries the time of the write *)
             problems_mtime := if success then now else problems_mtime files;
             tfidf_file := tfidf_file files |})
  end.

(** Lines 47-50 *)
Definition load_user_vectors (self : Recommender) (files : Files)
    : Recommender :=
  match user_vectors_file (disk files) with
  | Some vectors => set_user_vectors self vectors
  | None => self
  end.

Definition initialize (self : Recommender) (files : Files)
    (response : HttpOutcome) (now : Z) : result Recommender * Files :=
  let '(self1, files1) := load_problems self files response now in
  let self2 := load_user_vectors self1 files1 in
  match tfidf_file files1 with
  | Some vectorizer =>
      match process_problem_features (set_tfidf_vectorizer self2 vectorizer) with
      | (Ok _, self3) => (Ok self3, files1)
      | (Raise e, _) => (Raise e, files1)
      end
  | None =>
      match create_tfidf_vectorizer self2 files1 with
      | (Ok (_, self3), files2) => (Ok self3, files2)
      | (Raise e, files2) => (Raise e, files2)
      end
  end.

(** [CodeforcesRecommender()] *)
Definition new_recommender (files : Files) (response : HttpOutcome) (now : Z)
    : result Recommender * Files :=
  initialize
    {| problems_df := None; tfidf_vectorizer := None; problem_vectors := None;
       user_vectors := ∅; last_update := 0 |}
    files response now.
End Constructor.

(** ** What the steps keep *)

Lemma getitem_cases {A} key (column : Problem → option A) df :
  (getitem key column df = Ok (map column df)
   ∧ ∃ p, p ∈ df ∧ is_Some (column p))
  ∨ (getitem key column df = Raise (KeyError key)
     ∧ ∀ p, p ∈ df → column p = None).
Proof.
  unfold getitem. destruct (existsb _ df) eqn:He.
  - left. split; [done |].
    apply existsb_exists in He as (p & Hp & Hsome).
    exists p. split; [by apply list_elem_of_In |].
    by apply bool_decide_eq_true in Hsome.
  - right. split; [done |]. intros p Hp.
    destruct (column p) as [x |] eqn:Hx; [| done].
    assert (existsb (λ p, bool_decide (is_Some (column p))) df = true);
      [| congruence].
    apply existsb_exists. exists p.
    split; [by apply list_elem_of_In |].
    apply bool_decide_eq_true. by rewrite Hx.
Qed.

(** The outcomes of [process_problem_features]: nothing but the matrix
    changes; [True] comes with a matrix of one row per problem; an exception
    is a [KeyError] for a corpus that is empty or lacks a column. *)
Lemma process_problem_features_cases self :
  (process_problem_features self = (Ok false, self)
   ∧ (problems_df self = None ∨ tfidf_vectorizer self = None))
  ∨ (∃ df vectors,
       process_problem_features self
       = (Ok true, set_problem_vectors self vectors)
       ∧ problems_df self = Some df ∧ df ≠ []
       ∧ is_Some (tfidf_vectorizer self)
       ∧ length vectors = length df)
  ∨ (∃ df key,
       process_problem_features self = (Raise (KeyError key), self)
       ∧ problems_df self = Some df
       ∧ (df = [] ∨ (∀ p, p ∈ df → rating p = None)
          ∨ (∀ p, p ∈ df → solvedCount p = None))).
Proof.
  unfold process_problem_features.
  destruct (problems_df self) as [df |] eqn:Hdf; [| left; by auto].
  destruct (tfidf_vectorizer self) as [vec |] eqn:Hvec; [| left; by auto].
  right. unfold compose_features.
  destruct (decide (df = [])) as [-> | Hne].
  { right. exists [], "tags". simpl. by auto. }
  rewrite bool_decide_eq_false_2 by done. simpl.
  destruct (getitem_cases "rating" rating df) as [[-> _] | [-> Hr]]; simpl;
    [| right; exists df, "rating"; by auto].
  destruct (MinMaxScaler_ok (fillna 1500 (map rating df)))
    as (rs & -> & Hrlen).
  { unfold fillna. rewrite map_map. by destruct df. }
  simpl.
  destruct (getitem_cases "solvedCount" solvedCount df) as [[-> _] | [-> Hs]];
    simpl; [| right; exists df, "solvedCount"; by auto].
  destruct (MinMaxScaler_ok (fillna 0 (map solvedCount df)))
    as (ss & -> & Hslen).
  { unfold fillna. rewrite map_map. by destruct df. }
  simpl. left. eexists df, _. split; [done |]. split; [done |].
  split; [done |]. split; [done |].
  unfold fillna in Hrlen, Hslen. rewrite !length_map in Hrlen, Hslen.
  apply hstack_length; [by rewrite length_map | done | done].
Qed.

Lemma fetch_problems_true_state self disk response now self' disk' :
  fetch_problems self disk response now = (true, self', disk') →
  ∃ data rows,
    response = Some data ∧ status data = "OK"
    ∧ merged_problems data = Ok rows
    ∧ self' = {| problems_df := Some rows;
                 tfidf_vectorizer := tfidf_vectorizer self;
                 problem_vectors := problem_vectors self;
                 user_vectors := user_vectors self;
                 last_update := now |}
    ∧ disk' = {| problems_file := Some rows;
                 user_vectors_file := user_vectors_file disk;
                 writable := writable disk |}.
Proof.
  unfold fetch_problems. destruct response as [data |]; [| discriminate].
  destruct (String.eqb (status data) "OK") eqn:Hs; [| discriminate].
  apply String.eqb_eq in Hs.
  destruct (merged_problems data) as [rows |] eqn:Hm; [| discriminate].
  destruct (writable disk); [| discriminate].
  intros [= <- <-]. exists data, rows. by repeat split.
Qed.

Lemma merged_problems_solved_counts data rows p :
  merged_problems data = Ok rows → p ∈ rows → is_Some (solvedCount p).
Proof.
  intros Hm Hp.
  apply merged_problems_inv in Hm as (ps & stats & d & _ & _ & Hall).
  apply list_elem_of_lookup in Hp as [i Hi].
  destruct (Forall2_lookup_r _ _ _ _ _ Hall Hi) as (q & _ & Hq).
  destruct (add_solved_count_inv _ _ _ Hq) as (_ & _ & _ & _ & ->).
  by eexists.
Qed.

(** X19: whatever the reply, the [/refresh] view ends in one of three
    ways.  It answers 500 with the error body, [fetch_problems] having
    returned [False].  It answers 200 with the corpus of the reply in memory
    and in the file and, when a vectorizer is present, a feature matrix with
    one row per problem.  Or it raises a [KeyError], which happens when the
    new corpus is empty or has no rated problem: the new corpus is then in
    memory and in the file while the feature matrix is still the old one.
    The user vectors are kept in all three cases. *)
Theorem refresh_outcomes self disk response now :
  let '(answer, self', disk') := refresh self disk response now in
  user_vectors self' = user_vectors self
  ∧ match answer with
    | Ok resp =>
        (code resp = 500 ∧ body_status resp = "error"
         ∧ (fetch_problems self disk response now).1.1 = false
         ∧ problem_vectors self' = problem_vectors self)
        ∨ (code resp = 200 ∧ body_status resp = "success"
           ∧ ∃ rows,
               problems_df self' = Some rows
               ∧ problems_file disk' = Some rows
               ∧ last_update self' = now
               ∧ match tfidf_vectorizer self with
                 | Some _ =>
                     ∃ vectors, problem_vectors self' = Some vectors
                                ∧ length vectors = length rows
                 | None => problem_vectors self' = problem_vectors self
                 end)
    | Raise e =>
        ∃ rows key,
          e = KeyError key
          ∧ problems_df self' = Some rows
          ∧ problems_file disk' = Some rows
          ∧ problem_vectors self' = problem_vectors self
          ∧ (rows = [] ∨ ∀ p, p ∈ rows → rating p = None)
    end.
Proof.
  unfold refresh.
  destruct (fetch_problems self disk response now) as [[success self1] disk1]
    eqn:Hfetch.
  destruct success.
  - apply fetch_problems_true_state in Hfetch
      as (data & rows & -> & Hs & Hm & -> & ->).
    set (self1 := {| problems_df := Some rows;
                     tfidf_vectorizer := tfidf_vectorizer self;
                     problem_vectors := problem_vectors self;
                     user_vectors := user_vectors self;
                     last_update := now |}).
    destruct (process_problem_features_cases self1)
      as [[-> Hnone] | [(df & vectors & -> & Hdf & _ & Hvec & Hlen)
                       | (df & key & -> & Hdf & Hwhy)]]; simpl.
    + split; [done |]. right. split; [done |]. split; [done |].
      exists rows. split; [done |]. split; [done |]. split; [done |].
      destruct Hnone as [Hnone | Hnone]; [discriminate Hnone |].
      simpl in Hnone. by rewrite Hnone.
    + split; [done |]. right. split; [done |]. split; [done |].
      exists rows. split; [done |]. split; [done |]. split; [done |].
      simpl in Hdf. injection Hdf as <-.
      simpl in Hvec.
      destruct (tfidf_vectorizer self); [by exists vectors |].
      by destruct Hvec.
    + split; [done |]. exists rows, key. split; [done |].
      split; [done |]. split; [done |]. split; [done |].
      simpl in Hdf. injection Hdf as <-.
      destruct Hwhy as [-> | [Hr | Hsc]]; [by left | by right |].
      destruct rows as [| p rows']; [by left |]. exfalso.
      assert (Hp : is_Some (solvedCount p))
        by (eapply merged_problems_solved_counts; [exact Hm | by left]).
      rewrite (Hsc p) in Hp by (by left). by destruct Hp.
  - simpl. assert (Hkeep : user_vectors self1 = user_vectors self
                           ∧ problem_vectors self1 = problem_vectors self).
    { unfold fetch_problems in Hfetch.
      destruct response as [data |]; [| by injection Hfetch as <- <-].
      destruct (String.eqb (status data) "OK");
        [| by injection Hfetch as <- <-].
      destruct (merged_problems data); [| by injection Hfetch as <- <-].
      destruct (writable disk); [discriminate |].
      by injection Hfetch as <- <-. }
    destruct Hkeep. split; [done |]. left. by repeat split.
Qed.

(** ** The constructor *)

Lemma failed_refresh_keeps_corpus_helper self d response now :
  failed_fetch response → fetch_problems self d response now = (false, self, d).
Proof.
  intros [-> | (data & -> & Hs)]; simpl; [done |].
  by rewrite (failed_fetch_not_ok _ Hs).
Qed.

Lemma fetch_problems_keeps self d response now :
  tfidf_vectorizer (fetch_problems self d response now).1.2
    = tfidf_vectorizer self
  ∧ problem_vectors (fetch_problems self d response now).1.2
    = problem_vectors self
  ∧ user_vectors (fetch_problems self d response now).1.2 = user_vectors self
  ∧ user_vectors_file (fetch_problems self d response now).2
    = user_vectors_file d
  ∧ writable (fetch_problems self d response now).2 = writable d.
Proof.
  unfold fetch_problems. destruct response as [data |]; [| done].
  destruct (String.eqb (status data) "OK"); [| done].
  destruct (merged_problems data); [| done].
  destruct (writable d) eqn:Hw; simpl; by rewrite ?Hw.
Qed.

Lemma load_problems_keeps self files response now :
  tfidf_vectorizer (load_problems self files response now).1
    = tfidf_vectorizer self
  ∧ problem_vectors (load_problems self files response now).1
    = problem_vectors self
  ∧ user_vectors (load_problems self files response now).1 = user_vectors self
  ∧ user_vectors_file (disk (load_problems self files response now).2)
    = user_vectors_file (disk files)
  ∧ tfidf_file (load_problems self files response now).2 = tfidf_file files.
Proof.
  pose proof (fetch_problems_keeps self (disk files) response now) as Hk.
  unfold load_problems.
  destruct (fetch_problems self (disk files) response now) as [[ok s] d].
  simpl in Hk. destruct Hk as (? & ? & ? & ? & _).
  destruct (problems_file (disk files)); [| done].
  by destruct (bool_decide _).
Qed.

Section ConstructorFacts.
Context `{TfidfFit}.

Lemma create_tfidf_vectorizer_cases self files :
  (create_tfidf_vectorizer self files = (Ok (false, self), files)
   ∧ (problems_df self = None ∨ problems_df self = Some []))
  ∨ (∃ df vectorizer vectors,
       create_tfidf_vectorizer self files
       = (Ok (true,
              set_problem_vectors (set_tfidf_vectorizer self vectorizer)
                vectors),
          {| disk := disk files; problems_mtime := problems_mtime files;
             tfidf_file := Some vectorizer |})
       ∧ problems_df self = Some df ∧ df ≠ []
       ∧ tfidf_fit (map tags_text df) = Ok vectorizer
       ∧ length vectors = length df)
  ∨ (∃ e files',
       create_tfidf_vectorizer self files = (Raise e, files')
       ∧ disk files' = disk files).
Proof.
  unfold create_tfidf_vectorizer.
  destruct (problems_df self) as [df |] eqn:Hdf; [| left; by auto].
  destruct (decide (df = [])) as [-> | Hne]; [left; by auto |].
  rewrite bool_decide_eq_false_2 by done. right.
  destruct (tfidf_fit (map tags_text df)) as [vec |] eqn:Hfit;
    [| right; by eexists _, _].
  destruct (writable (disk files)); [| right; by eexists _, _].
  destruct (process_problem_features_cases (set_tfidf_vectorizer self vec))
    as [[_ [Hnone | Hnone]] | [(df' & vectors & -> & Hdf' & _ & _ & Hlen)
                              | (df' & key & -> & _)]];
    try (simpl in Hnone; congruence).
  - left. exists df, vec, vectors. simpl in Hdf'.
    rewrite Hdf in Hdf'. injection Hdf' as <-. by repeat split.
  - right. by eexists _, _.
Qed.

(** X20: a recommender that the constructor returns (no exception) is in
    one of two states: it has a non-empty corpus, a vectorizer and a feature
    matrix with one row per problem; or it has no corpus, or an empty one,
    and no feature matrix. *)
Theorem constructed_recommender_is_consistent files response now s files' :
  new_recommender files response now = (Ok s, files') →
  (∃ df vectorizer vectors,
     problems_df s = Some df ∧ df ≠ []
     ∧ tfidf_vectorizer s = Some vectorizer
     ∧ problem_vectors s = Some vectors ∧ length vectors = length df)
  ∨ ((problems_df s = None ∨ problems_df s = Some [])
     ∧ problem_vectors s = None).
Proof.
  unfold new_recommender, initialize.
  set (self0 := {| problems_df := None; tfidf_vectorizer := None;
                   problem_vectors := None; user_vectors := ∅;
                   last_update := 0 |}).
  pose proof (load_problems_keeps self0 files response now) as Hk.
  destruct (load_problems self0 files response now) as [self1 files1].
  simpl in Hk. destruct Hk as (Htf & Hpv & _).
  set (self2 := load_user_vectors self1 files1).
  assert (Hpv2 : problem_vectors self2 = None
                 ∧ problems_df self2 = problems_df self1).
  { unfold self2, load_user_vectors.
    by destruct (user_vectors_file (disk files1)). }
  destruct Hpv2 as [Hpv2 Hdf2].
  destruct (tfidf_file files1) as [vec |].
  - destruct (process_problem_features_cases (set_tfidf_vectorizer self2 vec))
      as [[-> [Hnone | Hnone]] | [(df & vectors & -> & Hdf & Hne & _ & Hlen)
                                 | (df & key & -> & _)]];
      try discriminate.
    + intros [= <- <-]. right. simpl. split; [by left | done].
    + intros [= <- <-]. left. by exists df, vec, vectors.
  - destruct (create_tfidf_vectorizer_cases self2 files1)
      as [[-> Hnone] | [(df & vec & vectors & -> & Hdf & Hne & _ & Hlen)
                       | (e & files2 & -> & _)]];
      try discriminate.
    + intros [= <- <-]. right. split; [done | done].
    + intros [= <- <-]. left. by exists df, vec, vectors.
Qed.

Lemma initialize_keeps_corpus self files response now s files' :
  initialize self files response now = (Ok s, files') →
  problems_df s = problems_df (load_problems self files response now).1
  ∧ user_vectors s
    = default (user_vectors self) (user_vectors_file (disk files))
  ∧ disk files' = disk (load_problems self files response now).2.
Proof.
  unfold initialize.
  pose proof (load_problems_keeps self files response now) as Hk.
  destruct (load_problems self files response now) as [self1 files1].
  simpl in Hk. destruct Hk as (_ & _ & Huv & Hfile & _). simpl.
  set (self2 := load_user_vectors self1 files1).
  assert (H2 : problems_df self2 = problems_df self1
               ∧ user_vectors self2
                 = default (user_vectors self) (user_vectors_file (disk files))).
  { unfold self2, load_user_vectors. rewrite Hfile.
    by destruct (user_vectors_file (disk files)). }
  destruct H2 as [Hdf Hu].
  destruct (tfidf_file files1) as [vec |].
  - destruct (process_problem_features_cases (set_tfidf_vectorizer self2 vec))
      as [[-> _] | [(df & vectors & -> & _) | (df & key & -> & _)]];
      try discriminate; by intros [= <- <-].
  - destruct (create_tfidf_vectorizer_cases self2 files1)
      as [[-> _] | [(df & vec & vectors & -> & _) | (e & files2 & -> & _)]];
      try discriminate; by intros [= <- <-].
Qed.

(** X21: when the file of problems exists and is younger than
    [CACHE_TIME] seconds, the constructor does not depend on the network:
    whatever the API would answer the outcome is the same, and a recommender
    that is returned has the corpus of the file, the user vectors of the
    file of user vectors, and left both files as they were. *)
Theorem fresh_cache_needs_no_network self files response response' now df :
  problems_file (disk files) = Some df →
  now - problems_mtime files < CACHE_TIME →
  initialize self files response now = initialize self files response' now
  ∧ ∀ s files',
      initialize self files response now = (Ok s, files') →
      problems_df s = Some df
      ∧ user_vectors s
        = default (user_vectors self) (user_vectors_file (disk files))
      ∧ disk files' = disk files.
Proof.
  intros Hfile Hfresh.
  assert (Hload : ∀ r, load_problems self files r now
                       = (set_problems_df self df, files)).
  { intros r. unfold load_problems.
    by rewrite Hfile, bool_decide_eq_true_2. }
  split; [unfold initialize; by rewrite !Hload |].
  intros s files' Hinit.
  destruct (initialize_keeps_corpus _ _ _ _ _ _ Hinit) as (Hdf & Hu & Hd).
  rewrite Hload in Hdf, Hd. done.
Qed.

(** X22: a file of problems that is too old is not a fallback.  When the
    file is missing or at least [CACHE_TIME] seconds old and the fetch fails,
    the constructor returns a recommender without corpus and without feature
    matrix, and leaves the files untouched. *)
Theorem stale_cache_is_not_a_fallback files response now :
  problems_file (disk files) = None
  ∨ CACHE_TIME ≤ now - problems_mtime files →
  failed_fetch response →
  ∃ s,
    new_recommender files response now = (Ok s, files)
    ∧ problems_df s = None
    ∧ problem_vectors s = None
    ∧ tfidf_vectorizer s = tfidf_file files
    ∧ user_vectors s = default ∅ (user_vectors_file (disk files)).
Proof.
  intros Hstale Hfail. unfold new_recommender, initialize.
  set (self0 := {| problems_df := None; tfidf_vectorizer := None;
                   problem_vectors := None; user_vectors := ∅;
                   last_update := 0 |}).
  assert (Hload : load_problems self0 files response now = (self0, files)).
  { unfold load_problems.
    rewrite (failed_refresh_keeps_corpus_helper self0 (disk files) response now
               Hfail).
    destruct files as [d m t]. simpl in *.
    destruct Hstale as [-> | Hold]; [done |].
    rewrite bool_decide_eq_false_2 by lia.
    by destruct (problems_file d). }
  rewrite Hload. unfold load_user_vectors.
  destruct (user_vectors_file (disk files)) as [vectors |];
    destruct (tfidf_file files) as [vec |];
    (eexists; split; [reflexivity | done]).
Qed.
End ConstructorFacts.

Section Restart.
Context `{TfidfFit}.

(** X23: a vector that [create_user_vector] returned is served again
    after a restart: a recommender constructed from the files as that call
    left them holds the dictionary of the old recommender, with that vector
    under the handle, whatever else the constructor did. *)
Theorem stored_vector_survives_restart self d user_handle reply v self' d'
    self0 files response now s files' :
  create_user_vector self d user_handle reply = (Some v, self', d') →
  disk files = d' →
  initialize self0 files response now = (Ok s, files') →
  user_vectors s = user_vectors self'
  ∧ user_vectors s !! user_handle = Some (VecList v).
Proof.
  intros Hc Hd Hinit.
  apply create_user_vector_Some_inv in Hc as (_ & -> & -> & _).
  destruct (initialize_keeps_corpus _ _ _ _ _ _ Hinit) as (_ & Hu & _).
  rewrite Hd in Hu. simpl in Hu. rewrite Hu. simpl.
  split; [done | apply lookup_insert_eq].
Qed.
End Restart.

(** A fit that fails on an empty vocabulary and otherwise gives
    [ex_vectorizer]. *)
Definition ex_fit : TfidfFit :=
  {| tfidf_fit := λ texts,
       if forallb (λ text, String.eqb text "") texts then Raise ValueError
       else Ok ex_vectorizer |}.

Definition ex_files : Files :=
  {| disk := ex_disk; problems_mtime := 1000; tfidf_file := None |}.

Lemma constructed_recommender_is_consistent_example :
  ∃ s files',
    new_recommender (H := ex_fit) ex_files None 2000 = (Ok s, files')
    ∧ tfidf_file files' = Some ex_vectorizer
    ∧ ((∃ df vectorizer vectors,
          problems_df s = Some df ∧ df ≠ []
          ∧ tfidf_vectorizer s = Some vectorizer
          ∧ problem_vectors s = Some vectors ∧ length vectors = length df)
       ∨ ((problems_df s = None ∨ problems_df s = Some [])
          ∧ problem_vectors s = None)).
Proof.
  assert (Hrun : ∃ s files',
            new_recommender (H := ex_fit) ex_files None 2000 = (Ok s, files')
            ∧ tfidf_file files' = Some ex_vectorizer).
  { eexists _, _. split; [vm_compute; reflexivity | reflexivity]. }
  destruct Hrun as (s & files' & Hrun & Hfile).
  exists s, files'. split; [exact Hrun |]. split; [exact Hfile |].
  apply (constructed_recommender_is_consistent (H := ex_fit) ex_files None
           2000 s files' Hrun).
Defined.

Lemma fresh_cache_needs_no_network_example :
  initialize (H := ex_fit) ex_fresh ex_files None 2000
  = initialize (H := ex_fit) ex_fresh ex_files (Some ex_problemset) 2000
  ∧ ∀ s files',
      initialize (H := ex_fit) ex_fresh ex_files None 2000 = (Ok s, files') →
      problems_df s = Some ex_corpus
      ∧ user_vectors s
        = default (user_vectors ex_fresh) (user_vectors_file (disk ex_files))
      ∧ disk files' = disk ex_files.
Proof.
  apply (fresh_cache_needs_no_network (H := ex_fit) ex_fresh ex_files None
           (Some ex_problemset) 2000 ex_corpus eq_refl).
  unfold CACHE_TIME. simpl. lia.
Defined.

Lemma stale_cache_is_not_a_fallback_example :
  problems_file (disk ex_files) = Some ex_corpus
  ∧ ∃ s,
      new_recommender (H := ex_fit) ex_files (Some ex_failed) 10000
      = (Ok s, ex_files)
      ∧ problems_df s = None
      ∧ problem_vectors s = None
      ∧ tfidf_vectorizer s = tfidf_file ex_files
      ∧ user_vectors s = default ∅ (user_vectors_file (disk ex_files)).
Proof.
  split; [reflexivity |].
  apply (stale_cache_is_not_a_fallback (H := ex_fit) ex_files
           (Some ex_failed) 10000).
  - right. unfold CACHE_TIME. simpl. lia.
  - right. exists ex_failed. split; [reflexivity | discriminate].
Defined.

Lemma stored_vector_survives_restart_example :
  ∃ v self' d' s files',
    create_user_vector ex_self ex_disk "alice" (Some ex_status)
    = (Some v, self', d')
    ∧ initialize (H := ex_fit) ex_fresh
        {| disk := d'; problems_mtime := 1000; tfidf_file := None |}
        None 2000 = (Ok s, files')
    ∧ user_vectors s = user_vectors self'
    ∧ user_vectors s !! "alice" = Some (VecList v).
Proof.
  assert (Hrun : ∃ v self' d',
            create_user_vector ex_self ex_disk "alice" (Some ex_status)
            = (Some v, self', d')
            ∧ ∃ s files',
                initialize (H := ex_fit) ex_fresh
                  {| disk := d'; problems_mtime := 1000; tfidf_file := None |}
                  None 2000 = (Ok s, files')).
  { eexists _, _, _. split; [vm_compute; reflexivity |].
    eexists _, _. vm_compute; reflexivity. }
  destruct Hrun as (v & self' & d' & Hc & s & files' & Hinit).
  exists v, self', d', s, files'. split; [exact Hc |]. split; [exact Hinit |].
  apply (stored_vector_survives_restart (H := ex_fit) ex_self ex_disk "alice"
           (Some ex_status) v self' d' ex_fresh
           {| disk := d'; problems_mtime := 1000; tfidf_file := None |}
           None 2000 s files' Hc eq_refl Hinit).
Defined.

(** The three outcomes of [refresh] on the example: a failed fetch, a reply
    with rated problems, a reply without rated problem. *)
Definition ex_unrated_problemset : ApiReply :=
  {| status := "OK";
     api_result := ResultProblemset
       [ {| api_contestId := Some 5; api_index := "A"; api_tags := ["math"];
            api_rating := None |} ]
       None |}.

Example refresh_three_outcomes :
  (refresh ex_self ex_disk None 42).1.1
  = Ok {| body_status := "error";
          body_message := "Failed to refresh problem data"; code := 500 |}
  ∧ (refresh ex_self ex_disk (Some ex_problemset) 42).1.1
    = Ok {| body_status := "success";
            body_message := "Problem data refreshed"; code := 200 |}
  ∧ (refresh ex_self ex_disk (Some ex_unrated_problemset) 42).1.1
    = Raise (KeyError "rating")
  ∧ problem_vectors (refresh ex_self ex_disk (Some ex_unrated_problemset) 42).1.2
    = problem_vectors ex_self
  ∧ (length <$> problems_df
       (refresh ex_self ex_disk (Some ex_unrated_problemset) 42).1.2)
    = Some 1%nat.
Proof. vm_compute. done. Qed.

(** * The identity key *)

Fixpoint underscore_free (s : string) : Prop :=
  match s with
  | EmptyString => True
  | String c s' => c ≠ "_"%char ∧ underscore_free s'
  end.

Lemma pretty_N_char_no_underscore x : pretty_N_char x ≠ "_"%char.
Proof. unfold pretty_N_char. by repeat case_match. Qed.

Lemma pretty_N_go_underscore_free x : ∀ s,
  underscore_free s → underscore_free (pretty_N_go x s).
Proof.
  induction (N.lt_wf_0 x) as [x _ IH]; intros s Hs.
  assert (x = 0 ∨ 0 < x)%N as [-> | Hx] by lia.
  - by rewrite pretty_N_go_0.
  - rewrite pretty_N_go_step by done. apply IH.
    + by apply N.div_lt.
    + split; [apply pretty_N_char_no_underscore | done].
Qed.

Lemma pretty_N_underscore_free (x : N) : underscore_free (pretty x).
Proof.
  unfold pretty, pretty_N. case_decide; [by repeat split |].
  by apply pretty_N_go_underscore_free.
Qed.

Lemma pretty_Z_underscore_free (z : Z) : underscore_free (pretty z).
Proof.
  destruct z as [| p | p]; unfold pretty, pretty_Z.
  - by repeat split.
  - apply pretty_N_underscore_free.
  - split; [done | apply pretty_N_underscore_free].
Qed.

Lemma underscore_split_unique a : ∀ a' b b',
  underscore_free a → underscore_free a' →
  a +:+ "_" +:+ b = a' +:+ "_" +:+ b' → a = a' ∧ b = b'.
Proof.
  induction a as [| c a IH]; intros [| c' a'] b b' Ha Ha' Heq; cbn in Heq.
  - injection Heq as Hb. by subst.
  - injection Heq as Hc _. destruct Ha' as [Hc' _]. by destruct Hc'.
  - injection Heq as Hc _. destruct Ha as [Hc' _]. by destruct Hc'.
  - injection Heq as Hc Hrest. destruct Ha as [_ Ha]. destruct Ha' as [_ Ha'].
    destruct (IH _ _ _ Ha Ha' Hrest) as [-> ->]. by subst.
Qed.

(** X24: the key [contestId_index] identifies the problem: two keys are
    equal only when the contest ids are equal and the indices are equal,
    whatever characters the indices contain. *)
Theorem format_problem_id_inj c i c' i' :
  format_problem_id c i = format_problem_id c' i' → c = c' ∧ i = i'.
Proof.
  unfold format_problem_id. intros Heq.
  apply underscore_split_unique in Heq as [Hc ->];
    [| apply pretty_Z_underscore_free..].
  split; [| done]. by apply (inj pretty).
Qed.

Lemma format_problem_id_inj_example :
  format_problem_id 12 "A_1" = "12_A_1"
  ∧ (12 = 12 ∧ "A_1" = "A_1")
  ∧ format_problem_id 1 "2_A" ≠ format_problem_id 12 "A".
Proof.
  split; [reflexivity |].
  split; [exact (format_problem_id_inj 12 "A_1" 12 "A_1" eq_refl) |].
  intros Heq. by apply (format_problem_id_inj 1 "2_A" 12 "A") in Heq as [? _].
Defined.

(** * Nothing is lost *)

Lemma scored_rows_lookup df : ∀ k scores i p s,
  df !! i = Some p → scores !! i = Some s →
  {| label := (k + i)%nat; problem := p; similarity := s;
     problem_id := format_problem_id (contestId p) (index p) |}
  ∈ scored_rows k df scores.
Proof.
  induction df as [| q df IH]; intros k [| t scores] [| i] p s; simpl;
    try discriminate.
  - intros [= ->] [= ->]. rewrite Nat.add_0_r. by left.
  - intros Hp Hs. right.
    replace (k + S i)%nat with (S k + i)%nat by lia. by apply IH.
Qed.

Lemma filter_rating_keeps df keep bound rows rows' r :
  filter_rating df keep bound rows = Ok rows' →
  r ∈ rows → (∀ b, bound = Some b → keep b r = true) → r ∈ rows'.
Proof.
  unfold filter_rating. destruct bound as [b |]; [| by intros [= <-]].
  destruct (getitem "rating" rating df); simpl; [| discriminate].
  intros [= <-] Hr Hk. apply elem_of_List_filter. split; [done | by apply Hk].
Qed.

Lemma filter_tags_keeps wanted rows r :
  r ∈ rows →
  (∀ ts, wanted = Some ts → any_tag_in ts (tags (problem r)) = true) →
  r ∈ filter_tags wanted rows.
Proof.
  unfold filter_tags. destruct wanted as [ts |]; [| done].
  intros Hr Hk. apply elem_of_List_filter. split; [done | by apply Hk].
Qed.

Section Completeness.
Context `{NumpySqrt} `{SortValues}.

Lemma top_recommendations_complete self user_vector solved n mn mx wanted rows
    (df : list Problem) i p :
  top_recommendations self user_vector solved n mn mx wanted = Ok rows →
  problems_df self = Some df →
  Z.of_nat (length df) ≤ n →
  df !! i = Some p →
  format_problem_id (contestId p) (index p) ∉ solved →
  (∀ b, mn = Some b → ∃ x, rating p = Some x ∧ b ≤ x) →
  (∀ b, mx = Some b → ∃ x, rating p = Some x ∧ x ≤ b) →
  (∀ ts, wanted = Some ts → ∃ tag, tag ∈ ts ∧ tag ∈ tags p) →
  ∃ r, r ∈ rows ∧ problem r = p ∧ label r = i.
Proof.
  intros Htop Hdf Hn Hp Hsolved Hmn Hmx Htags.
  unfold top_recommendations in Htop.
  destruct (cosine_similarity _ _) as [m |] eqn:Hcos; simpl in Htop;
    [| discriminate].
  destruct (cosine_similarity_single _ _ _ Hcos) as [scores ->].
  simpl in Htop. rewrite Hdf in Htop. simpl in Htop.
  unfold DataFrame in Htop.
  destruct (bool_decide (df = [])); simpl in Htop; [discriminate |].
  destruct (bool_decide (length scores = length df)) eqn:Hlen; simpl in Htop;
    [| discriminate].
  apply bool_decide_eq_true in Hlen.
  destruct (filter_rating df rating_ge mn _) as [rows1 |] eqn:H1;
    simpl in Htop; [| discriminate].
  destruct (filter_rating df rating_le mx rows1) as [rows2 |] eqn:H2;
    simpl in Htop; [| discriminate].
  injection Htop as <-.
  destruct (lookup_lt_is_Some_2 scores i) as [s Hs].
  { rewrite Hlen. by eapply lookup_lt_Some. }
  set (r := {| label := (0 + i)%nat; problem := p; similarity := s;
               problem_id := format_problem_id (contestId p) (index p) |}).
  exists r. split; [| done].
  assert (Hr0 : r ∈ List.filter
                      (λ r, bool_decide (problem_id r ∉ solved))
                      (scored_rows 0 df scores)).
  { apply elem_of_List_filter. split; [by apply scored_rows_lookup |].
    by apply bool_decide_eq_true. }
  assert (Hr1 : r ∈ rows1).
  { eapply filter_rating_keeps; [exact H1 | exact Hr0 |].
    intros b Hb. destruct (Hmn b Hb) as (x & Hx & Hle).
    unfold rating_ge. simpl. rewrite Hx. by apply Z.leb_le. }
  assert (Hr2 : r ∈ rows2).
  { eapply filter_rating_keeps; [exact H2 | exact Hr1 |].
    intros b Hb. destruct (Hmx b Hb) as (x & Hx & Hle).
    unfold rating_le. simpl. rewrite Hx. by apply Z.leb_le. }
  assert (Hr3 : r ∈ filter_tags wanted rows2).
  { apply filter_tags_keeps; [done |].
    intros ts Hts. destruct (Htags ts Hts) as (tag & Hin & Htag).
    unfold any_tag_in. apply existsb_exists. exists tag.
    split; [by apply list_elem_of_In | by apply bool_decide_eq_true]. }
  rewrite head_all; [by rewrite sort_values_perm |].
  rewrite sort_values_perm.
  assert (Hsub : filter_tags wanted rows2 `sublist_of` scored_rows 0 df scores).
  { etrans; [apply filter_tags_sublist |].
    etrans; [by eapply filter_rating_sublist |].
    etrans; [by eapply filter_rating_sublist |].
    apply List_filter_sublist. }
  apply sublist_length in Hsub.
  rewrite <- (length_fmap label (scored_rows 0 df scores)) in Hsub.
  rewrite scored_rows_labels, length_seq in Hsub. lia.
Qed.

(** X25: nothing that qualifies is lost.  When a user vector is available
    (cached, or just created) and the count is at least the size of the
    corpus, every problem of the corpus whose key is not in the solved set
    and that passes the rating bounds and the tag filter that were given is
    in the returned list. *)
Theorem qualifying_problems_are_all_returned self disk user_handle n mn mx
    wanted rv rs recs (df : list Problem) p v :
  (get_recommendations self disk user_handle n mn mx wanted rv rs).1.1
    = Ok recs →
  user_vectors self !! user_handle = Some (VecList v)
  ∨ (create_user_vector self disk user_handle rv).1.1 = Some v →
  problems_df self = Some df →
  Z.of_nat (length df) ≤ n →
  p ∈ df →
  format_problem_id (contestId p) (index p) ∉ solved_problems_of rs →
  (∀ b, mn = Some b → ∃ x, rating p = Some x ∧ b ≤ x) →
  (∀ b, mx = Some b → ∃ x, rating p = Some x ∧ x ≤ b) →
  (∀ ts, wanted = Some ts → ∃ tag, tag ∈ ts ∧ tag ∈ tags p) →
  ∃ r, r ∈ recs ∧ rec_problem r = p.
Proof.
  intros Hget Hvector Hdf Hn Hp Hsolved Hmn Hmx Htags.
  apply list_elem_of_lookup in Hp as [i Hi].
  assert (Hrank : ∃ self1 u rows,
            problems_df self1 = Some df
            ∧ top_recommendations self1 u (solved_problems_of rs) n mn mx wanted
              = Ok rows
            ∧ recs = map to_record rows).
  { unfold get_recommendations in Hget.
    destruct (user_vectors self !! user_handle) as [[u |] |] eqn:Hu.
    - simpl in Hget.
      destruct (top_recommendations self u _ _ _ _ _) as [rows |] eqn:Htop;
        simpl in Hget; [| discriminate].
      injection Hget as <-. by exists self, u, rows.
    - destruct Hvector as [Hc | Hc]; [discriminate |].
      assert (Hkeep : problems_df
                        ((create_user_vector self disk user_handle rv).1.2)
                      = problems_df self).
      { unfold create_user_vector.
        destruct (bind _ _) as [[w |] |]; simpl; [| done | done].
        by destruct (writable disk). }
      destruct (create_user_vector self disk user_handle rv)
        as [[vector self1] disk1].
      simpl in Hc, Hkeep. subst vector. simpl in Hget.
      destruct (top_recommendations self1 v _ _ _ _ _) as [rows |] eqn:Htop;
        simpl in Hget; [| discriminate].
      injection Hget as <-. exists self1, v, rows. split; [congruence | done].
    - destruct Hvector as [Hc | Hc]; [discriminate |].
      assert (Hkeep : problems_df
                        ((create_user_vector self disk user_handle rv).1.2)
                      = problems_df self).
      { unfold create_user_vector.
        destruct (bind _ _) as [[w |] |]; simpl; [| done | done].
        by destruct (writable disk). }
      destruct (create_user_vector self disk user_handle rv)
        as [[vector self1] disk1].
      simpl in Hc, Hkeep. subst vector. simpl in Hget.
      destruct (top_recommendations self1 v _ _ _ _ _) as [rows |] eqn:Htop;
        simpl in Hget; [| discriminate].
      injection Hget as <-. exists self1, v, rows. split; [congruence | done]. }
  destruct Hrank as (self1 & u & rows & Hdf1 & Htop & ->).
  destruct (top_recommendations_complete _ _ _ _ _ _ _ _ _ _ _ Htop Hdf1 Hn Hi
              Hsolved Hmn Hmx Htags) as (r & Hr & Hpr & _).
  exists (to_record r). split; [| done].
  apply list_elem_of_fmap. by exists r.
Qed.
End Completeness.

Lemma qualifying_problems_are_all_returned_example :
  ∃ recs r,
    (get_recommendations ex_self ex_disk "alice" 4 (Some 1000) None None
       (Some ex_status) (Some ex_status)).1.1 = Ok recs
    ∧ r ∈ recs ∧ rec_problem r = pB.
Proof.
  assert (Hrun : ∃ recs v,
            (get_recommendations ex_self ex_disk "alice" 4 (Some 1000) None
               None (Some ex_status) (Some ex_status)).1.1 = Ok recs
            ∧ (create_user_vector ex_self ex_disk "alice"
                 (Some ex_status)).1.1 = Some v).
  { eexists _, _. split; vm_compute; reflexivity. }
  destruct Hrun as (recs & v & Hrun & Hv).
  destruct (qualifying_problems_are_all_returned ex_self ex_disk "alice" 4
              (Some 1000) None None (Some ex_status) (Some ex_status) recs
              ex_corpus pB v Hrun (or_intror Hv)) as (r & Hr & Hp).
  - vm_compute; reflexivity.
  - simpl. lia.
  - right. by left.
  - apply (bool_decide_unpack _). vm_compute. exact I.
  - intros b [= <-]. exists 1200. split; [reflexivity | lia].
  - discriminate.
  - discriminate.
  - exists recs, r. exact (conj Hrun (conj Hr Hp)).
Defined.

(** * Degraded states *)

Lemma user_vector_of_without_matrix self solved :
  problem_vectors self = None → ∃ e, user_vector_of self solved = Raise e.
Proof.
  intros Hv. unfold user_vector_of, mean_of_all. rewrite Hv.
  destruct (bool_decide (solved = ∅)); [by eexists |].
  destruct (problems_df self) as [df |]; [| by eexists].
  destruct (bool_decide (problem_indices df solved = [])); by eexists.
Qed.

Section Degraded.
Context `{NumpySqrt} `{SortValues} `{TfidfFit}.

(** X26: a recommender without feature matrix (no corpus could be
    loaded, or no vectorizer) answers every request for a handle without
    cached list with the empty list: whatever the replies are, nothing is
    raised and nothing changes. *)
Theorem no_matrix_gives_empty_list_for_new_users self disk user_handle n mn mx
    wanted rv rs :
  problem_vectors self = None →
  (∀ v, user_vectors self !! user_handle ≠ Some (VecList v)) →
  get_recommendations self disk user_handle n mn mx wanted rv rs
  = (Ok [], self, disk).
Proof.
  intros Hv Hcache.
  assert (Hc : create_user_vector self disk user_handle rv
               = (None, self, disk)).
  { unfold create_user_vector. destruct rv as [data |]; simpl; [| done].
    destruct (String.eqb (status data) "OK"); simpl; [| done].
    destruct (solved_of_reply data) as [solved |]; simpl; [| done].
    by destruct (user_vector_of_without_matrix self solved Hv) as [e ->]. }
  unfold get_recommendations.
  destruct (user_vectors self !! user_handle) as [[u |] |];
    [by destruct (Hcache u) | |]; by rewrite Hc.
Qed.

(** X27: a fresh file of problems in which no problem carries a rating
    stops the constructor: with a pickled vectorizer present,
    [CodeforcesRecommender()] raises [KeyError('rating')] and writes
    nothing. *)
Theorem constructor_raises_on_unrated_cache files response now
    (df : list Problem) vectorizer :
  problems_file (disk files) = Some df →
  now - problems_mtime files < CACHE_TIME →
  df ≠ [] →
  (∀ p, p ∈ df → rating p = None) →
  tfidf_file files = Some vectorizer →
  new_recommender files response now = (Raise (KeyError "rating"), files).
Proof.
  intros Hfile Hfresh Hne Hunrated Htf.
  unfold new_recommender, initialize, load_problems.
  rewrite Hfile, bool_decide_eq_true_2 by done.
  rewrite Htf. unfold load_user_vectors.
  assert (Hraise : ∀ s, problems_df s = Some df →
            tfidf_vectorizer s = Some vectorizer →
            process_problem_features s = (Raise (KeyError "rating"), s)).
  { intros s Hdf Hvec. unfold process_problem_features, compose_features.
    rewrite Hdf, Hvec. unfold DataFrame in *.
    rewrite bool_decide_eq_false_2 by done. simpl.
    destruct (getitem_cases "rating" rating df) as [[_ (p & Hp & Hr)] | [-> _]];
      [| done].
    rewrite (Hunrated p Hp) in Hr. by destruct Hr. }
  destruct (user_vectors_file (disk files)) as [vectors |];
    by rewrite Hraise.
Qed.
End Degraded.

Lemma no_matrix_gives_empty_list_for_new_users_example :
  get_recommendations ex_fresh ex_disk "alice" 10 None None None
    (Some ex_status) (Some ex_status) = (Ok [], ex_fresh, ex_disk).
Proof.
  apply (no_matrix_gives_empty_list_for_new_users ex_fresh ex_disk "alice" 10
           None None None (Some ex_status) (Some ex_status) eq_refl).
  intros v. vm_compute. discriminate.
Defined.

Definition ex_unrated_files : Files :=
  {| disk := {| problems_file := Some unrated_corpus;
                user_vectors_file := None; writable := true |};
     problems_mtime := 1000; tfidf_file := Some ex_vectorizer |}.

Lemma constructor_raises_on_unrated_cache_example :
  new_recommender (H := ex_fit) ex_unrated_files None 2000
  = (Raise (KeyError "rating"), ex_unrated_files).
Proof.
  apply (constructor_raises_on_unrated_cache (H1 := ex_fit) ex_unrated_files
           None 2000 unrated_corpus ex_vectorizer eq_refl).
  - unfold CACHE_TIME. simpl. lia.
  - done.
  - intros p Hp. by apply list_elem_of_singleton in Hp as ->.
  - reflexivity.
Defined.

(** X28: when the file of problems cannot be opened for writing, a
    refresh with a well-formed reply answers 500 "error" although the corpus
    in memory has been replaced by the one of the reply; the file, the
    feature matrix and [last_update] are the old ones. *)
Theorem refresh_reports_failure_after_replacing_corpus self disk data ps stats
    now :
  status data = "OK" →
  api_result data = ResultProblemset ps stats →
  Forall (λ p, is_Some (api_contestId p)) ps →
  Forall (λ stat, is_Some (stat_contestId stat)) (default [] stats) →
  writable disk = false →
  ∃ rows,
    refresh self disk (Some data) now
    = (Ok {| body_status := "error";
             body_message := "Failed to refresh problem data"; code := 500 |},
       {| problems_df := Some rows;
          tfidf_vectorizer := tfidf_vectorizer self;
          problem_vectors := problem_vectors self;
          user_vectors := user_vectors self;
          last_update := last_update self |},
       disk)
    ∧ length rows = length ps.
Proof.
  intros Hs Hres Hps Hstats Hw.
  destruct (build_stats_dict_total _ ∅ Hstats) as [d Hd].
  destruct (mapM_total (add_solved_count d) ps) as [rows Hrows].
  { eapply Forall_impl; [exact Hps |]. intros p [c Hc].
    unfold add_solved_count. rewrite Hc. by eexists. }
  exists rows. split; [| by eapply mapM_length].
  unfold refresh, fetch_problems, merged_problems.
  rewrite Hs, Hres. simpl. rewrite Hd. simpl. by rewrite Hrows, Hw.
Qed.

Lemma refresh_reports_failure_after_replacing_corpus_example :
  ∃ rows,
    refresh ex_self ex_readonly (Some ex_problemset) 42
    = (Ok {| body_status := "error";
             body_message := "Failed to refresh problem data"; code := 500 |},
       {| problems_df := Some rows;
          tfidf_vectorizer := tfidf_vectorizer ex_self;
          problem_vectors := problem_vectors ex_self;
          user_vectors := user_vectors ex_self;
          last_update := last_update ex_self |},
       ex_readonly)
    ∧ length rows = 3%nat.
Proof.
  apply (refresh_reports_failure_after_replacing_corpus ex_self ex_readonly
           ex_problemset _ _ 42 eq_refl eq_refl).
  - repeat constructor; by eexists.
  - repeat constructor; by eexists.
  - reflexivity.
Defined.
